(** * Query-optimization orchestration: retry executor, validator, pipeline
      driver and reporter

    A shallow embedding of [query_optimization_orchestration.py].  The
    notebook talks to three collaborators: the wall clock, the file system
    holding the SQL scripts, and the warehouse session [spark].  They are
    modelled by a [Platform] of oracles; every call the code makes is
    appended to a trace together with the answer it got, and the oracles may
    answer differently depending on everything that happened before.

    Conventions.
    - Instants are microseconds since 0001-01-01T00:00:00, the smallest
      [datetime] ([Z]); a [timedelta] is a number of microseconds, so
      [total_seconds()] is kept exact instead of being rounded to a float.
      Both types have a range, and leaving it raises [OverflowError].
    - A Python exception is represented by its message [str(e)].
    - Calls to [logger] only write to the log sink; they neither change a
      returned value nor the control flow and are left out.
    - [time.sleep] refuses a negative delay and one that does not fit its
      C time type; a refused sleep raises and leaves no event.
    - The configuration dictionary is kept as the notebook reads it: a
      section or key can be missing, hold null, or hold a value.  A
      document that is not empty is taken to be a mapping, and values are
      taken at the types the notebook uses them at (strings, integers, a
      list of strings).
    - [notebook] is the whole notebook, from [load_config] to the
      execution log; [orchestration] is the part of it that goes from the
      pre-flight gate to the summary report. *)

From Stdlib Require Import ZArith NArith List String Ascii Bool Lia Sorted.
From Stdlib Require Import DecimalString.
Import ListNotations.
Local Open Scope string_scope.
Local Open Scope Z_scope.

(** ** The platform and the trace of its calls *)

Inductive Result (A : Type) : Type :=
| Ret (a : A)
| Raise (e : string).
Arguments Ret {A} a.
Arguments Raise {A} e.

(** One row of a collected result set.  Only the statistics query of
    [check_table_health] looks inside a row, at these five columns. *)
Record Row := mkRow {
  col_row_count : Z;
  col_unique_dates : Z;
  col_earliest_date : option Z;
  col_latest_date : option Z;
  col_latest_created_at : option Z
}.

(** What [spark.sql] hands back when it does not raise: nothing that is
    truthy ([NoFrame]), or a data frame that can be collected. *)
Inductive Frame := NoFrame | DataFrame.

Inductive Event :=
| EvNow (t : Z)                                   (* datetime.now() *)
| EvRead (path : string) (r : Result string)      (* open(path).read() *)
| EvSql (sql : string) (r : Result Frame)         (* spark.sql(sql) *)
| EvCollect (r : Result (list Row))               (* frame.collect() *)
| EvSleep (seconds : Z)                           (* time.sleep(seconds) *)
| EvNotify (severity message : string)            (* send_notification *)
| EvDisplay (r : Result unit).     (* display(spark.createDataFrame(...)) *)

(** The trace, most recent event first. *)
Definition World := list Event.

(** ** The configuration dictionary *)

(** What a key of a YAML mapping can be. *)
Inductive Entry (A : Type) : Type :=
| Missing                (* the key is not there *)
| Null                   (* the key is there and holds null ([None]) *)
| Present (a : A).
Arguments Missing {A}.
Arguments Null {A}.
Arguments Present {A} a.

(** [schemas.query_optimization]; [None]: the key is missing. *)
Record SchemaNames := mkNames {
  names_catalog : option string;
  names_schema : option string
}.

(** [etl]; [None]: the key is missing. *)
Record EtlSettings := mkEtl {
  etl_max_retry_attempts : option Z;
  etl_retry_delay_seconds : option Z;
  etl_incremental_window_hours : option Z
}.

(** [CONFIG], as far as the notebook reads it. *)
Record RawConfig := mkRaw {
  section_schemas : Entry (Entry SchemaNames);
    (* "schemas", and its key "query_optimization" *)
  section_etl : Entry EtlSettings;
  section_performance_thresholds : Entry unit;  (* only looked for *)
  section_system_tables : Entry (Entry (list string));
    (* "system_tables", and its key "required_tables" *)
  section_version_info : Entry (Entry string)
    (* "version_info", and its key "config_version" *)
}.

Record Platform := mkPlatform {
  clock : World -> Z;
  file_read : World -> string -> Result string;
  engine_sql : World -> string -> Result Frame;
  engine_collect : World -> Result (list Row);
  isoformat : Z -> string;
  format_2f : Z -> string;                        (* f"{seconds:.2f}" *)
  sleep_limit : Z;
    (* the longest delay [time.sleep] accepts, in seconds: the range of its
       C time type (9223372036 where that counts nanoseconds in 64 bits) *)
  engine_display : World -> Result unit;
    (* display(spark.createDataFrame([metrics])) *)
  yaml_safe_load : string -> Result (option RawConfig)
    (* yaml.safe_load; [None]: an empty document *)
}.

(** ** A state-and-exception monad over the trace *)

Definition M (A : Type) : Type := World -> Result A * World.

Definition ret {A} (a : A) : M A := fun w => (Ret a, w).

Definition raise {A} (e : string) : M A := fun w => (Raise e, w).

Definition bind {A B} (m : M A) (k : A -> M B) : M B :=
  fun w =>
    match m w with
    | (Ret a, w1) => k a w1
    | (Raise e, w1) => (Raise e, w1)
    end.

(** [try: body  except Exception as e: handler (str e)] *)
Definition try_except {A} (body : M A) (handler : string -> M A) : M A :=
  fun w =>
    match body w with
    | (Ret a, w1) => (Ret a, w1)
    | (Raise e, w1) => handler e w1
    end.

Declare Scope orch_scope.
Delimit Scope orch_scope with orch.
Notation "x <- m ;; k" := (bind m (fun x => k))
  (at level 100, m at next level, right associativity) : orch_scope.
Notation "m ;;; k" := (bind m (fun _ => k))
  (at level 100, right associativity) : orch_scope.
Local Open Scope orch_scope.

(** A lookup that raises or gives a value, run as a step. *)
Definition lift {A} (r : Result A) : M A := fun w => (r, w).

Definition and_then {A B} (r : Result A) (k : A -> Result B) : Result B :=
  match r with
  | Ret a => k a
  | Raise e => Raise e
  end.

(** ** Configuration (the module-level names, lines 71-78) *)

Record Config := mkConfig {
  CATALOG : string;
  SCHEMA : string;
  MAX_RETRY_ATTEMPTS : Z;
  RETRY_DELAY_SECONDS : Z;
  INCREMENTAL_WINDOW_HOURS : Z;
  CONFIG : RawConfig
}.

(** [str] of the [KeyError] for [key]. *)
Definition key_error (key : string) : string := "'" ++ key ++ "'".

Definition not_subscriptable : string :=
  "'NoneType' object is not subscriptable".

Definition no_attribute_get : string :=
  "'NoneType' object has no attribute 'get'".

Definition not_iterable : string := "'NoneType' object is not iterable".

(** [d[key]] followed by a further subscript: a missing key is a
    [KeyError]; a null value is handed on and the next subscript fails on
    it. *)
Definition item {A} (key : string) (e : Entry A) : Result A :=
  match e with
  | Missing => Raise (key_error key)
  | Null => Raise not_subscriptable
  | Present a => Ret a
  end.

(** [d[key]] at a leaf. *)
Definition leaf {A} (key : string) (o : option A) : Result A :=
  match o with
  | None => Raise (key_error key)
  | Some v => Ret v
  end.

Definition schema_names (raw : RawConfig) : Result SchemaNames :=
  and_then (item "schemas" (section_schemas raw))
    (item "query_optimization").

(** Lines 74-78, for the value [load_config] returned ([None]: the file
    held an empty document). *)
Definition read_constants (loaded : option RawConfig) : Result Config :=
  match loaded with
  | None => Raise not_subscriptable
  | Some raw =>
      and_then (and_then (schema_names raw)
                  (fun names => leaf "catalog" (names_catalog names)))
        (fun catalog =>
      and_then (and_then (schema_names raw)
                  (fun names => leaf "schema" (names_schema names)))
        (fun schema =>
      and_then (and_then (item "etl" (section_etl raw))
                  (fun etl => leaf "max_retry_attempts"
                                (etl_max_retry_attempts etl)))
        (fun max_retry_attempts =>
      and_then (and_then (item "etl" (section_etl raw))
                  (fun etl => leaf "retry_delay_seconds"
                                (etl_retry_delay_seconds etl)))
        (fun retry_delay_seconds =>
      and_then (and_then (item "etl" (section_etl raw))
                  (fun etl => leaf "incremental_window_hours"
                                (etl_incremental_window_hours etl)))
        (fun incremental_window_hours =>
      Ret (mkConfig catalog schema max_retry_attempts retry_delay_seconds
             incremental_window_hours raw))))))
  end.

(** [key in CONFIG] *)
Definition has_entry {A} (e : Entry A) : bool :=
  match e with
  | Missing => false
  | _ => true
  end.

(** ** Dates and durations *)

Definition microseconds_per_hour : Z := 3600000000.

Definition microseconds_per_day : Z := 86400000000.

(** 9999-12-31T23:59:59.999999, the largest [datetime]. *)
Definition datetime_max : Z := 315537897599999999.

Definition decimal (z : Z) : string := NilZero.string_of_int (Z.to_int z).

(** [timedelta(hours=h)]: the number of days has to fit a C [int] and then
    to lie within 999999999 days of zero. *)
Definition timedelta_hours (hours : Z) : Result Z :=
  let microseconds := hours * microseconds_per_hour in
  let days := microseconds / microseconds_per_day in
  if (days <? -2147483648) || (2147483647 <? days) then
    Raise "Python int too large to convert to C int"
  else if (days <? -999999999) || (999999999 <? days) then
    Raise ("days=" ++ decimal days ++ "; must have magnitude <= 999999999")
  else Ret microseconds.

(** [t - delta] for a [datetime] and a [timedelta]. *)
Definition datetime_sub (t delta : Z) : Result Z :=
  let r := t - delta in
  if (r <? 0) || (datetime_max <? r) then Raise "date value out of range"
  else Ret r.

(** ** Outcome records *)

Inductive Subject :=
| script (path : string)       (* key "script" *)
| command (text : string).     (* key "command" *)

Record ExecutionOutcome := mkOutcome {
  subject : Subject;
  description : string;
  status : string;
  start_time : Z;
  end_time : option Z;
  execution_time_seconds : Z;
  attempt_count : Z;
  error_message : option string;
  row_count : Z
}.

Definition set_status (v : string) (r : ExecutionOutcome) :=
  mkOutcome (subject r) (description r) v (start_time r) (end_time r)
    (execution_time_seconds r) (attempt_count r) (error_message r) (row_count r).
Definition set_end_time (v : option Z) (r : ExecutionOutcome) :=
  mkOutcome (subject r) (description r) (status r) (start_time r) v
    (execution_time_seconds r) (attempt_count r) (error_message r) (row_count r).
Definition set_execution_time_seconds (v : Z) (r : ExecutionOutcome) :=
  mkOutcome (subject r) (description r) (status r) (start_time r) (end_time r)
    v (attempt_count r) (error_message r) (row_count r).
Definition set_attempt_count (v : Z) (r : ExecutionOutcome) :=
  mkOutcome (subject r) (description r) (status r) (start_time r) (end_time r)
    (execution_time_seconds r) v (error_message r) (row_count r).
Definition set_error_message (v : option string) (r : ExecutionOutcome) :=
  mkOutcome (subject r) (description r) (status r) (start_time r) (end_time r)
    (execution_time_seconds r) (attempt_count r) v (row_count r).
Definition set_row_count (v : Z) (r : ExecutionOutcome) :=
  mkOutcome (subject r) (description r) (status r) (start_time r) (end_time r)
    (execution_time_seconds r) (attempt_count r) (error_message r) v.

Record AccessOutcome := mkAccess {
  access_table : string;
  access_status : string;
  accessible : bool;
  access_error : option string
}.

(** The dictionary returned by [check_table_health]: the statistics keys
    exist only in the successful shape.  The freshness is kept as the exact
    [timedelta]; the code reports it divided into hours. *)
Record HealthRecord := mkHealth {
  health_table_name : string;
  health_full_table_name : string;
  health_status : string;
  health_exists : bool;
  health_stats : option Row;
  health_data_freshness : option Z;
  health_error : option string
}.

Record PipelineStep := mkStep {
  step_script : string;
  step_description : string;
  step_required : bool
}.

(** The dictionary returned by [execute_pipeline].  The reporter reads
    four of its keys with [.get(key, default)], so those are optional here;
    "steps_failed" exists only in the summary of a completed run and "error"
    only in the summary of an aborted one. *)
Record PipelineSummary := mkSummary {
  pipeline_status : option string;
  pipeline_start_time : Z;
  pipeline_end_time : Z;
  total_execution_time : option Z;
  steps_completed : option Z;
  steps_failed : option Z;
  steps_total : option Z;
  results : list ExecutionOutcome;
  pipeline_error : option string
}.

(** An entry of "data_quality_checks": the executor's outcome, or the
    two-key dictionary of the [except] branch. *)
Inductive QualityCheck :=
| quality_outcome (r : ExecutionOutcome)
| quality_error (e : string).

Definition quality_status (q : QualityCheck) : string :=
  match q with
  | quality_outcome r => status r
  | quality_error _ => "FAILED"
  end.

Record ValidationResults := mkValidation {
  validation_start_time : Z;
  table_health_checks : list HealthRecord;
  data_quality_checks : list QualityCheck;
  validation_overall_status : option string;
  validation_end_time : option Z
}.

(** A float quotient [a / b], kept as the exact fraction. *)
Record Ratio := mkRatio { numerator : Z; denominator : Z }.

Record PerformanceMetrics := mkMetrics {
  total_execution_time_seconds : Z;
  avg_step_time_seconds : Ratio;
  success_rate : Ratio
}.

Record Report := mkReport {
  execution_timestamp : string;
  report_pipeline_summary : PipelineSummary;
  report_validation_results : ValidationResults;
  report_catalog : string;
  report_schema : string;
  report_incremental_window_hours : Z;
  report_config_version : option string;
  performance_metrics : PerformanceMetrics;
  overall_status : string
}.

Record OptimizationOutcome := mkOptimization {
  optimized_table : string;
  optimization_status : string;
  optimization_time_seconds : option Z;
  optimization_error : option string
}.

(** [range(n)] *)
Definition range (n : Z) : list Z := map Z.of_nat (seq 0 (Z.to_nat n)).

Section Orchestration.

Variable P : Platform.
Variable cfg : Config.

(** *** Platform calls *)

Definition now : M Z :=
  fun w => let t := clock P w in (Ret t, EvNow t :: w).

Definition read_file (path : string) : M string :=
  fun w => let r := file_read P w path in (r, EvRead path r :: w).

Definition spark_sql (sql : string) : M Frame :=
  fun w => let r := engine_sql P w sql in (r, EvSql sql r :: w).

Definition collect (f : Frame) : M (list Row) :=
  match f with
  | NoFrame => raise "'NoneType' object has no attribute 'collect'"
  | DataFrame => fun w => let r := engine_collect P w in (r, EvCollect r :: w)
  end.

(** [time.sleep(seconds)] *)
Definition sleep (seconds : Z) : M unit :=
  if seconds <? 0 then raise "sleep length must be non-negative"
  else if sleep_limit P <? seconds then
    raise "timestamp too large to convert to C _PyTime_t"
  else fun w => (Ret tt, EvSleep seconds :: w).

(** [display(spark.createDataFrame([metrics]))], line 658. *)
Definition display_metrics : M unit :=
  fun w => let r := engine_display P w in (r, EvDisplay r :: w).

(** *** Executor *)

(** Lines 121-131 and 183-193: what both [try] bodies do once [spark.sql]
    has answered. *)
Definition record_success (sql_result : Frame) (result : ExecutionOutcome)
  : M ExecutionOutcome :=
  result <- match sql_result with
            | DataFrame =>
                rows <- collect sql_result ;;
                ret (set_row_count (Z.of_nat (List.length rows)) result)
            | NoFrame => ret result
            end ;;
  let result := set_status "SUCCESS" result in
  t <- now ;;
  let result := set_end_time (Some t) result in
  let result := set_execution_time_seconds (t - start_time result) result in
  ret result.

(** The [try] body of [execute_sql_script], lines 110-131. *)
Definition script_attempt (script_path : string) (result : ExecutionOutcome)
  : M ExecutionOutcome :=
  sql_content <- read_file script_path ;;
  sql_result <- spark_sql sql_content ;;
  record_success sql_result result.

(** The [try] body of [execute_sql_command], lines 176-193. *)
Definition command_attempt (sql_command : string) (result : ExecutionOutcome)
  : M ExecutionOutcome :=
  sql_result <- spark_sql sql_command ;;
  record_success sql_result result.

(** The [for attempt in range(max_retries)] loop, written once: the two
    functions repeat it verbatim around their own [try] body.  Falling out
    of the loop returns [result] as it stands (lines 153 and 215). *)
Fixpoint retry_loop (attempt_body : ExecutionOutcome -> M ExecutionOutcome)
    (max_retries : Z) (attempts : list Z) (result : ExecutionOutcome)
  : M ExecutionOutcome :=
  match attempts with
  | [] => ret result
  | attempt :: later =>
      let result := set_attempt_count (attempt + 1) result in
      try_except (attempt_body result)
        (fun error_msg =>
           let result := set_error_message (Some error_msg) result in
           if attempt =? max_retries - 1 then
             let result := set_status "FAILED" result in
             t <- now ;;
             let result := set_end_time (Some t) result in
             let result :=
               set_execution_time_seconds (t - start_time result) result in
             ret result
           else
             let wait_time := RETRY_DELAY_SECONDS cfg * 2 ^ attempt in
             sleep wait_time ;;;
             retry_loop attempt_body max_retries later result)
  end.

Definition default_retries (max_retries : option Z) : Z :=
  match max_retries with
  | None => MAX_RETRY_ATTEMPTS cfg
  | Some n => n
  end.

Definition execute_sql_script (script_path description : string)
    (max_retries : option Z) : M ExecutionOutcome :=
  let max_retries := default_retries max_retries in
  t <- now ;;
  let result :=
    mkOutcome (script script_path) description "PENDING" t None 0 0 None 0 in
  retry_loop (script_attempt script_path) max_retries (range max_retries) result.

Definition display_command (sql_command : string) : string :=
  if (100 <? String.length sql_command)%nat
  then substring 0 100 sql_command ++ "..."
  else sql_command.

Definition execute_sql_command (sql_command description : string)
    (max_retries : option Z) : M ExecutionOutcome :=
  let max_retries := default_retries max_retries in
  t <- now ;;
  let result :=
    mkOutcome (command (display_command sql_command)) description "PENDING"
      t None 0 0 None 0 in
  retry_loop (command_attempt sql_command) max_retries (range max_retries) result.

(** *** Validator *)

Definition default_required_tables : list string :=
  [ "system.query.history";
    "system.billing.usage";
    "system.billing.list_prices";
    "system.compute.clusters";
    "system.compute.warehouses" ].

(** Line 220, and the [for] of line 230 that iterates over the result. *)
Definition required_tables : Result (list string) :=
  match section_system_tables (CONFIG cfg) with
  | Missing => Ret default_required_tables
  | Null => Raise no_attribute_get
  | Present Missing => Ret default_required_tables
  | Present Null => Raise not_iterable
  | Present (Present tables) => Ret tables
  end.

Definition probe_sql (table : string) : string :=
  "SELECT COUNT(*) FROM " ++ table ++ " LIMIT 1".

Definition access_granted (table : string) : AccessOutcome :=
  mkAccess table "SUCCESS" true None.

Definition access_denied (table e : string) : AccessOutcome :=
  mkAccess table "FAILED" false (Some e).

(** The body of the [for table in required_tables] loop, lines 231-252. *)
Definition probe_table (table : string) (access_results : list AccessOutcome)
  : M (list AccessOutcome) :=
  try_except
    (sql_result <- spark_sql (probe_sql table) ;;
     _ <- collect sql_result ;;
     ret (access_results ++ [access_granted table])%list)
    (fun e => ret (access_results ++ [access_denied table e])%list).

Fixpoint probe_tables (tables : list string) (access_results : list AccessOutcome)
  : M (list AccessOutcome) :=
  match tables with
  | [] => ret access_results
  | table :: rest =>
      access_results <- probe_table table access_results ;;
      probe_tables rest access_results
  end.

Definition check_system_table_access : M (list AccessOutcome) :=
  required_tables <- lift required_tables ;;
  probe_tables required_tables [].

Definition index_error : string := "list index out of range".

Definition check_table_health (table_name : string) (schema_name : option string)
  : M HealthRecord :=
  let schema_name := match schema_name with
                     | None => SCHEMA cfg
                     | Some s => s
                     end in
  let full_table_name :=
    CATALOG cfg ++ "." ++ schema_name ++ "." ++ table_name in
  try_except
    (described <- spark_sql ("DESCRIBE TABLE " ++ full_table_name) ;;
     _ <- collect described ;;
     let stats_query := "
            SELECT 
                COUNT(*) as row_count,
                COUNT(DISTINCT query_date) as unique_dates,
                MIN(query_date) as earliest_date,
                MAX(query_date) as latest_date,
                MAX(created_at) as latest_created_at
            FROM " ++ full_table_name ++ "
            WHERE query_date >= CURRENT_DATE - INTERVAL 7 DAY
        " in
     stats_frame <- spark_sql stats_query ;;
     rows <- collect stats_frame ;;
     stats <- match rows with
              | [] => raise index_error
              | first :: _ => ret first
              end ;;
     freshness <- match col_latest_created_at stats with
                  | None => ret None
                  | Some created => t <- now ;; ret (Some (t - created))
                  end ;;
     ret (mkHealth table_name full_table_name "SUCCESS" true
            (Some stats) freshness None))
    (fun e =>
       ret (mkHealth table_name full_table_name "FAILED" false
              None None (Some e))).

(** *** Notification sink (a log line; the timestamp is read first) *)

Definition send_notification (message severity : string) : M unit :=
  _ <- now ;;
  fun w => (Ret tt, EvNotify severity message :: w).

(** *** Pre-execution validation *)

Definition shown (o : option string) : string :=
  match o with
  | Some s => s
  | None => "None"
  end.

Definition required_config_keys : list string :=
  [ "schemas"; "etl"; "performance_thresholds" ].

Definition key_in_config (key : string) : bool :=
  if (key =? "schemas")%string then has_entry (section_schemas (CONFIG cfg))
  else if (key =? "etl")%string then has_entry (section_etl (CONFIG cfg))
  else if (key =? "performance_thresholds")%string then
    has_entry (section_performance_thresholds (CONFIG cfg))
  else if (key =? "system_tables")%string then
    has_entry (section_system_tables (CONFIG cfg))
  else if (key =? "version_info")%string then
    has_entry (section_version_info (CONFIG cfg))
  else false.

Definition cannot_access (failure : AccessOutcome) : string :=
  "Cannot access " ++ access_table failure ++ ": " ++ shown (access_error failure).

Definition schema_not_accessible (e : string) : string :=
  "Schema " ++ CATALOG cfg ++ "." ++ SCHEMA cfg ++ " not accessible: " ++ e.

Definition missing_section (key : string) : string :=
  "Missing required configuration section: " ++ key.

Definition cluster_issue (e : string) : string :=
  "Cluster resource issue: " ++ e.

Definition validate_prerequisites : M (bool * list string) :=
  let validation_errors := [] in
  (* 1. system table access *)
  access_results <- check_system_table_access ;;
  let failed_access := filter (fun r => negb (accessible r)) access_results in
  let validation_errors :=
    (validation_errors ++ map cannot_access failed_access)%list in
  (* 2. schema *)
  validation_errors <-
    try_except
      (_ <- spark_sql ("USE CATALOG " ++ CATALOG cfg) ;;
       shown_schemas <- spark_sql ("SHOW SCHEMAS LIKE '" ++ SCHEMA cfg ++ "'") ;;
       _ <- collect shown_schemas ;;
       ret validation_errors)
      (fun e => ret (validation_errors ++ [schema_not_accessible e])%list) ;;
  (* 3. configuration sections *)
  let validation_errors :=
    (validation_errors ++
     map missing_section
       (filter (fun key => negb (key_in_config key)) required_config_keys))%list in
  (* 4. cluster resources *)
  validation_errors <-
    try_except
      (one <- spark_sql "SELECT 1" ;;
       _ <- collect one ;;
       ret validation_errors)
      (fun e => ret (validation_errors ++ [cluster_issue e])%list) ;;
  let success := (List.length validation_errors =? 0)%nat in
  ret (success, validation_errors).

(** Lines 391-398: the gate in front of the pipeline. *)
Definition prerequisites_gate : M unit :=
  checked <- validate_prerequisites ;;
  let '(validation_success, validation_errors) := checked in
  if negb validation_success then
    let error_message :=
      "Prerequisites validation failed: " ++ String.concat "; " validation_errors in
    send_notification error_message "ERROR" ;;;
    raise error_message
  else ret tt.

(** *** Pipeline driver *)

Definition pipeline_steps : list PipelineStep :=
  [ mkStep "../sql/01_schema_setup.sql" "Setup schema and permissions" true;
    mkStep "../sql/02_core_tables.sql" "Create core Delta tables" true;
    mkStep "../sql/03_materialized_views.sql"
      "Create materialized views for dashboards" true;
    mkStep "../sql/04_regular_views.sql" "Create real-time analysis views" true ].

Definition required_step_failed (step : PipelineStep) : string :=
  "Required pipeline step failed: " ++ step_description step.

(** The [for step in pipeline_steps] loop, lines 441-467: [inl] is the
    early [return] of the abort, [inr] the results when the loop ends. *)
Fixpoint run_steps (pipeline_start : Z) (steps : list PipelineStep)
    (pipeline_results : list ExecutionOutcome)
  : M (PipelineSummary + list ExecutionOutcome) :=
  match steps with
  | [] => ret (inr pipeline_results)
  | step :: rest =>
      result <- execute_sql_script (step_script step) (step_description step) None ;;
      let pipeline_results := (pipeline_results ++ [result])%list in
      if step_required step && (status result =? "FAILED")%string then
        let error_msg := required_step_failed step in
        send_notification error_msg "ERROR" ;;;
        t_end <- now ;;
        t_total <- now ;;
        ret (inl (mkSummary (Some "FAILED") pipeline_start t_end
                    (Some (t_total - pipeline_start))
                    (Some (Z.of_nat (List.length pipeline_results)))
                    None
                    (Some (Z.of_nat (List.length pipeline_steps)))
                    pipeline_results
                    (Some error_msg)))
      else run_steps pipeline_start rest pipeline_results
  end.

Definition etl_command (start_time end_time : Z) : string :=
  "
    CALL mcp.query_optimization.process_query_performance_incremental(
        TIMESTAMP('" ++ isoformat P start_time ++ "'),
        TIMESTAMP('" ++ isoformat P end_time ++ "')
    )
    ".

Definition count_status (s : string) (rs : list ExecutionOutcome) : Z :=
  Z.of_nat (List.length (filter (fun r => (status r =? s)%string) rs)).

(** Line 497. *)
Definition aggregate_status (pipeline_results : list ExecutionOutcome) : string :=
  let successful_steps := count_status "SUCCESS" pipeline_results in
  let failed_steps := count_status "FAILED" pipeline_results in
  if failed_steps =? 0 then "SUCCESS"
  else if 0 <? successful_steps then "PARTIAL_SUCCESS"
  else "FAILED".

(** Lines 469-514: the incremental ETL call and the summary of a run that
    went through every step. *)
Definition complete_pipeline (pipeline_start : Z)
    (pipeline_results : list ExecutionOutcome) : M PipelineSummary :=
  end_time <- now ;;
  window <- lift (timedelta_hours (INCREMENTAL_WINDOW_HOURS cfg)) ;;
  start_time <- lift (datetime_sub end_time window) ;;
  etl_result <- execute_sql_command (etl_command start_time end_time)
                  "Process incremental query performance data" None ;;
  let pipeline_results := (pipeline_results ++ [etl_result])%list in
  pipeline_end <- now ;;
  let total := pipeline_end - pipeline_start in
  let successful_steps := count_status "SUCCESS" pipeline_results in
  let failed_steps := count_status "FAILED" pipeline_results in
  let overall := aggregate_status pipeline_results in
  ret (mkSummary (Some overall) pipeline_start pipeline_end (Some total)
         (Some successful_steps) (Some failed_steps)
         (Some (Z.of_nat (List.length pipeline_results)))
         pipeline_results None).

Definition execute_pipeline : M PipelineSummary :=
  pipeline_start <- now ;;
  send_notification "Starting query optimization pipeline execution" "INFO" ;;;
  stepped <- run_steps pipeline_start pipeline_steps [] ;;
  match stepped with
  | inl aborted => ret aborted
  | inr pipeline_results => complete_pipeline pipeline_start pipeline_results
  end.

(** *** Post-execution validation *)

Definition key_tables : list string :=
  [ "query_performance_raw"; "query_patterns"; "optimization_tracking";
    "performance_baselines" ].

Fixpoint health_checks (tables : list string) (checks : list HealthRecord)
  : M (list HealthRecord) :=
  match tables with
  | [] => ret checks
  | table_name :: rest =>
      health_check <- check_table_health table_name None ;;
      health_checks rest (checks ++ [health_check])%list
  end.

Definition validate_pipeline_results : M ValidationResults :=
  t_start <- now ;;
  table_checks <- health_checks key_tables [] ;;
  quality_checks <-
    try_except
      (quality_result <- execute_sql_script "../validation/data_quality_tests.sql"
                           "Data quality validation tests" None ;;
       ret [quality_outcome quality_result])
      (fun e => ret [quality_error e]) ;;
  let health_failures :=
    filter (fun h => (health_status h =? "FAILED")%string) table_checks in
  let quality_failures :=
    filter (fun q => (quality_status q =? "FAILED")%string) quality_checks in
  let overall :=
    match health_failures, quality_failures with
    | [], [] => "SUCCESS"
    | _, _ => "FAILED"
    end in
  t_end <- now ;;
  ret (mkValidation t_start table_checks quality_checks (Some overall) (Some t_end)).

(** *** Reporter *)

Definition get {A} (field : option A) (default : A) : A :=
  match field with
  | Some v => v
  | None => default
  end.

(** Lines 609 and 749. *)
Definition config_version : Result (option string) :=
  match section_version_info (CONFIG cfg) with
  | Missing => Ret (Some "unknown")
  | Null => Raise no_attribute_get
  | Present Missing => Ret (Some "unknown")
  | Present Null => Ret None
  | Present (Present version) => Ret (Some version)
  end.

Definition generate_summary_report (pipeline_summary : PipelineSummary)
    (validation_results : ValidationResults) : M Report :=
  t <- now ;;
  version <- lift config_version ;;
  let total := get (total_execution_time pipeline_summary) 0 in
  let metrics :=
    mkMetrics total
      (mkRatio total (Z.max 1 (get (steps_total pipeline_summary) 1)))
      (mkRatio (get (steps_completed pipeline_summary) 0)
               (Z.max 1 (get (steps_total pipeline_summary) 1))) in
  let report := mkReport (isoformat P t) pipeline_summary validation_results
                  (CATALOG cfg) (SCHEMA cfg) (INCREMENTAL_WINDOW_HOURS cfg)
                  version metrics in
  let pipeline_status := get (pipeline_status pipeline_summary) "UNKNOWN" in
  let validation_status :=
    get (validation_overall_status validation_results) "UNKNOWN" in
  if ((pipeline_status =? "SUCCESS") && (validation_status =? "SUCCESS"))%string
  then
    send_notification
      ("Query optimization pipeline completed successfully in "
         ++ format_2f P total ++ " seconds") "INFO" ;;;
    ret (report "SUCCESS")
  else if ((pipeline_status =? "PARTIAL_SUCCESS")
           || (validation_status =? "FAILED"))%string
  then
    send_notification
      ("Query optimization pipeline completed with warnings. Pipeline: "
         ++ pipeline_status ++ ", Validation: " ++ validation_status)
      "WARNING" ;;;
    ret (report "WARNING")
  else
    send_notification
      ("Query optimization pipeline failed. Pipeline: "
         ++ pipeline_status ++ ", Validation: " ++ validation_status)
      "ERROR" ;;;
    ret (report "FAILED").

(** *** Housekeeping *)

Definition tables_to_optimize : list string := key_tables.

Definition materialized_views : list string :=
  [ "mv_hourly_performance"; "mv_daily_performance"; "mv_pattern_performance";
    "mv_user_performance"; "mv_performance_alerts" ].

Fixpoint optimize_tables (tables : list string)
    (optimization_results : list OptimizationOutcome)
  : M (list OptimizationOutcome) :=
  match tables with
  | [] => ret optimization_results
  | table_name :: rest =>
      optimization_results <-
        try_except
          (let full_table_name :=
             CATALOG cfg ++ "." ++ SCHEMA cfg ++ "." ++ table_name in
           optimize_start <- now ;;
           _ <- spark_sql ("OPTIMIZE " ++ full_table_name) ;;
           optimize_end <- now ;;
           _ <- spark_sql ("ANALYZE TABLE " ++ full_table_name
                             ++ " COMPUTE STATISTICS") ;;
           ret (optimization_results ++
                [mkOptimization table_name "SUCCESS"
                   (Some (optimize_end - optimize_start)) None])%list)
          (fun e =>
             ret (optimization_results ++
                  [mkOptimization table_name "FAILED" None (Some e)])%list) ;;
      optimize_tables rest optimization_results
  end.

Fixpoint refresh_views (views : list string) : M unit :=
  match views with
  | [] => ret tt
  | view_name :: rest =>
      _ <- spark_sql ("REFRESH MATERIALIZED VIEW " ++ CATALOG cfg ++ "."
                        ++ SCHEMA cfg ++ "." ++ view_name) ;;
      refresh_views rest
  end.

Definition perform_table_optimization : M (list OptimizationOutcome) :=
  optimization_results <- optimize_tables tables_to_optimize [] ;;
  try_except (refresh_views materialized_views) (fun _ => ret tt) ;;;
  ret optimization_results.

(** *** From the gate (line 391) to the report (line 646)

    The calls the notebook makes between its configuration and the display
    of the metrics; [notebook] below runs them in their place. *)

Definition orchestration : M Report :=
  prerequisites_gate ;;;
  pipeline_summary <- execute_pipeline ;;
  validation_results <- validate_pipeline_results ;;
  generate_summary_report pipeline_summary validation_results.

End Orchestration.

(** *** The whole notebook *)

(** The dictionary [load_config] falls back on, lines 56-68. *)
Definition fallback_raw : RawConfig :=
  mkRaw (Present (Present (mkNames (Some "mcp") (Some "query_optimization"))))
    (Present (mkEtl (Some 3) (Some 30) (Some 1)))
    (Present tt) Missing Missing.

Definition load_config (P : Platform) : M (option RawConfig) :=
  try_except
    (text <- read_file P "../config.yaml" ;;
     lift (yaml_safe_load P text))
    (fun _ => ret (Some fallback_raw)).

(** Lines 71-765: the configuration, the run from the gate to the report,
    the display of the metrics, the housekeeping and the execution log. *)
Definition notebook (P : Platform) : M (Report * list OptimizationOutcome) :=
  loaded <- load_config P ;;
  cfg <- lift (read_constants loaded) ;;
  summary_report <- orchestration P cfg ;;
  display_metrics P ;;;
  optimization_results <- perform_table_optimization P cfg ;;
  _ <- now P ;;
  _ <- now P ;;
  _ <- lift (config_version cfg) ;;
  ret (summary_report, optimization_results).

(** ** Observations on a trace *)

Local Open Scope list_scope.

Definition is_read (ev : Event) : bool :=
  match ev with EvRead _ _ => true | _ => false end.

Definition is_sql (ev : Event) : bool :=
  match ev with EvSql _ _ => true | _ => false end.

(** How many events of a kind a trace holds. *)
Definition count (mark : Event -> bool) (w : World) : nat :=
  List.length (filter mark w).

(** The exception an event ended with, if it did. *)
Definition event_failure (ev : Event) : option string :=
  match ev with
  | EvRead _ (Raise e) => Some e
  | EvSql _ (Raise e) => Some e
  | EvCollect (Raise e) => Some e
  | _ => None
  end.

(** The most recent exception of a trace. *)
Fixpoint last_failure (w : World) : option string :=
  match w with
  | [] => None
  | ev :: earlier =>
      match event_failure ev with
      | Some e => Some e
      | None => last_failure earlier
      end
  end.

(** Sleeps, statements and script paths of a trace, oldest first. *)
Fixpoint sleeps (w : World) : list Z :=
  match w with
  | [] => []
  | EvSleep s :: earlier => sleeps earlier ++ [s]
  | _ :: earlier => sleeps earlier
  end.

Fixpoint sql_statements (w : World) : list string :=
  match w with
  | [] => []
  | EvSql q _ :: earlier => sql_statements earlier ++ [q]
  | _ :: earlier => sql_statements earlier
  end.

Fixpoint read_paths (w : World) : list string :=
  match w with
  | [] => []
  | EvRead p _ :: earlier => read_paths earlier ++ [p]
  | _ :: earlier => read_paths earlier
  end.

(** The retry schedule of a trace, oldest first: the attempts (the events
    [mark] selects) and the sleeps between them. *)
Inductive Step := attempted | slept (seconds : Z).

Definition step_of (mark : Event -> bool) (ev : Event) : list Step :=
  match ev with
  | EvSleep s => [slept s]
  | _ => if mark ev then [attempted] else []
  end.

Fixpoint schedule (mark : Event -> bool) (w : World) : list Step :=
  match w with
  | [] => []
  | ev :: earlier => schedule mark earlier ++ step_of mark ev
  end.

(** The schedule of [a] attempts with exponential backoff, the first one
    being attempt number [k]: a sleep of [d * 2^k] follows every attempt
    but the last. *)
Fixpoint backoff_schedule (d : Z) (k a : nat) : list Step :=
  match a with
  | O => []
  | S a' =>
      attempted ::
      match a' with
      | O => []
      | S _ => slept (d * 2 ^ Z.of_nat k) :: backoff_schedule d (S k) a'
      end
  end.

(** [d * 2^k] for [k = first, first+1, ...], [len] of them. *)
Definition backoff_delays (d : Z) (first len : nat) : list Z :=
  map (fun k => d * 2 ^ Z.of_nat k) (seq first len).

(** ** Vocabulary of the statements *)

(** The sleeps of a schedule, in order. *)
Fixpoint delays (sch : list Step) : list Z :=
  match sch with
  | [] => []
  | attempted :: rest => delays rest
  | slept s :: rest => s :: delays rest
  end.

(** The script executor opens no other file than its script. *)
Definition reads_only (path : string) (ev : Event) : Prop :=
  match ev with
  | EvRead p _ => p = path
  | _ => True
  end.

(** The command executor opens no file and submits its command only. *)
Definition submits_only (sql_command : string) (ev : Event) : Prop :=
  match ev with
  | EvSql q _ => q = sql_command
  | EvRead _ _ => False
  | _ => True
  end.

(** The outcome record as both executors create it (lines 95-105 and
    161-171). *)
Definition initial_outcome (s : Subject) (description : string) (t : Z)
  : ExecutionOutcome :=
  mkOutcome s description "PENDING" t None 0 0 None 0.

(** What the retry loop needs to know about one attempt: it extends the
    trace by exactly one marked event and no sleep, all its events satisfy
    [Q]; when it raises, its message is the most recent failure of what it
    added; when it returns, the outcome is a stamped SUCCESS that keeps
    the attempt number. *)
Definition attempt_spec (body : ExecutionOutcome -> M ExecutionOutcome)
    (mark : Event -> bool) (Q : Event -> Prop) : Prop :=
  forall r w,
  exists new,
    snd (body r w) = new ++ w /\
    schedule mark new = [attempted] /\
    count mark new = 1%nat /\
    Forall Q new /\
    match fst (body r w) with
    | Raise e => last_failure new = Some e
    | Ret r' =>
        status r' = "SUCCESS"%string /\
        attempt_count r' = attempt_count r /\
        subject r' = subject r /\
        description r' = description r /\
        start_time r' = start_time r /\
        exists t rest,
          new = EvNow t :: rest /\
          end_time r' = Some t /\
          execution_time_seconds r' = t - start_time r
    end.

(** The unit of work, tried when the trace is [h], raises / returns. *)
Definition fails_at (body : ExecutionOutcome -> M ExecutionOutcome)
    (r : ExecutionOutcome) (h : World) : Prop :=
  exists e, fst (body r h) = Raise e.

Definition succeeds_at (body : ExecutionOutcome -> M ExecutionOutcome)
    (r : ExecutionOutcome) (h : World) : Prop :=
  exists r', fst (body r h) = Ret r'.

(** What is known of a run of the loop over [m] attempts numbered from
    [j], started with outcome [r0], that returned [r] after adding [new] to
    the trace. *)
Definition run_facts (cfg : Config) (mark : Event -> bool) (Q : Event -> Prop)
    (m j : nat) (r0 r : ExecutionOutcome) (new : World) : Prop :=
  (count mark new <= m)%nat /\
  schedule mark new
    = backoff_schedule (RETRY_DELAY_SECONDS cfg) j (count mark new) /\
  Forall Q new /\
  subject r = subject r0 /\
  description r = description r0 /\
  start_time r = start_time r0 /\
  (m = 0%nat -> r = r0 /\ new = []) /\
  (m <> 0%nat ->
     attempt_count r = Z.of_nat (j + count mark new) /\
     (1 <= count mark new)%nat /\
     (exists t rest,
        new = EvNow t :: rest /\ end_time r = Some t /\
        execution_time_seconds r = t - start_time r) /\
     (status r = "SUCCESS"%string \/
      (status r = "FAILED"%string /\ count mark new = m /\
       exists e, error_message r = Some e /\ last_failure new = Some e))).

(** ** Sleeping *)

(** [time.sleep] accepts the delay. *)
Definition sleepable (P : Platform) (seconds : Z) : Prop :=
  0 <= seconds <= sleep_limit P.

(** [e] is the exception [time.sleep] raises for a delay it refuses. *)
Definition sleep_refused (P : Platform) (seconds : Z) (e : string) : Prop :=
  (seconds < 0 /\ e = "sleep length must be non-negative"%string) \/
  (sleep_limit P < seconds /\
   e = "timestamp too large to convert to C _PyTime_t"%string).

(** Every delay the retry loop can ask for with [n] attempts is one
    [time.sleep] accepts. *)
Definition delays_fit (P : Platform) (cfg : Config) (n : Z) : Prop :=
  forall k, 0 <= k < n - 1 -> sleepable P (RETRY_DELAY_SECONDS cfg * 2 ^ k).

(** What is known of a run of the loop over [m] attempts numbered from
    [j] that ended with the exception [e], having added [new] to the trace:
    an attempt that was not the last one failed, and [time.sleep] refused
    the delay that was to follow it. *)
Definition run_stopped (P : Platform) (cfg : Config) (mark : Event -> bool)
    (Q : Event -> Prop) (m j : nat) (e : string) (new : World) : Prop :=
  (1 <= count mark new)%nat /\ (count mark new < m)%nat /\
  schedule mark new
    = backoff_schedule (RETRY_DELAY_SECONDS cfg) j (count mark new) /\
  Forall Q new /\
  sleep_refused P
    (RETRY_DELAY_SECONDS cfg * 2 ^ Z.of_nat (j + count mark new - 1)) e.

(** How a run of the loop ends. *)
Definition run_ended (P : Platform) (cfg : Config) (mark : Event -> bool)
    (Q : Event -> Prop) (m j : nat) (r0 : ExecutionOutcome)
    (res : Result ExecutionOutcome) (new : World) : Prop :=
  match res with
  | Ret r => run_facts cfg mark Q m j r0 r new
  | Raise e => run_stopped P cfg mark Q m j e new
  end.

(** [emits Q m]: whatever [m] does, the events it adds all satisfy [Q]. *)
Definition emits (Q : Event -> Prop) {A} (m : M A) : Prop :=
  forall w, exists res new, m w = (res, new ++ w) /\ Forall Q new.

(** [safe Q m]: moreover [m] returns a value, it never raises. *)
Definition safe (Q : Event -> Prop) {A} (m : M A) : Prop :=
  forall w, exists a new, m w = (Ret a, new ++ w) /\ Forall Q new.


(** [returns_only v m]: when [m] returns, it returns [v]. *)
Definition returns_only {A} (v : A) (m : M A) : Prop :=
  forall w a w', m w = (Ret a, w') -> a = v.

(** How the answers of the warehouse to the probe of one table, sent when
    the trace is [h], are classified. *)
Definition probe_outcome (P : Platform) (table : string) (h : World)
  : AccessOutcome :=
  match engine_sql P h (probe_sql table) with
  | Raise e => access_denied table e
  | Ret NoFrame =>
      access_denied table "'NoneType' object has no attribute 'collect'"
  | Ret DataFrame =>
      match engine_collect P (EvSql (probe_sql table) (Ret DataFrame) :: h) with
      | Raise e => access_denied table e
      | Ret _ => access_granted table
      end
  end.

(** *** The probes of the required tables, stated on the platform *)

(** What the probe of [table], sent when the trace is [h], leaves on the
    trace and records as outcome, by the answers of the warehouse
    (lines 231-252). *)
Inductive probed (P : Platform) (table : string) (h : World)
  : list Event -> AccessOutcome -> Prop :=
| probed_accessible (rows : list Row) :
    let q := ("SELECT COUNT(*) FROM " ++ table ++ " LIMIT 1")%string in
    engine_sql P h q = Ret DataFrame ->
    engine_collect P (EvSql q (Ret DataFrame) :: h) = Ret rows ->
    probed P table h [EvCollect (Ret rows); EvSql q (Ret DataFrame)]
      (mkAccess table "SUCCESS" true None)
| probed_refused (e : string) :
    let q := ("SELECT COUNT(*) FROM " ++ table ++ " LIMIT 1")%string in
    engine_sql P h q = Raise e ->
    probed P table h [EvSql q (Raise e)]
      (mkAccess table "FAILED" false (Some e))
| probed_uncollected (e : string) :
    let q := ("SELECT COUNT(*) FROM " ++ table ++ " LIMIT 1")%string in
    engine_sql P h q = Ret DataFrame ->
    engine_collect P (EvSql q (Ret DataFrame) :: h) = Raise e ->
    probed P table h [EvCollect (Raise e); EvSql q (Ret DataFrame)]
      (mkAccess table "FAILED" false (Some e))
| probed_nothing :
    let q := ("SELECT COUNT(*) FROM " ++ table ++ " LIMIT 1")%string in
    engine_sql P h q = Ret NoFrame ->
    probed P table h [EvSql q (Ret NoFrame)]
      (mkAccess table "FAILED" false
         (Some "'NoneType' object has no attribute 'collect'"%string)).

(** The probes of a list of tables, one after the other from the trace
    [h]: every table is probed, whatever the earlier probes answered. *)
Inductive probes (P : Platform) : World -> list string -> list Event ->
                                  list AccessOutcome -> Prop :=
| probes_done (h : World) : probes P h [] [] []
| probes_next (h : World) (table : string) (rest : list string)
    (seg later : list Event) (o : AccessOutcome) (outs : list AccessOutcome) :
    probed P table h seg o ->
    probes P (seg ++ h) rest later outs ->
    probes P h (table :: rest) (later ++ seg) (o :: outs).

(** A probe submits its own statement and nothing else. *)
Definition probe_event (ev : Event) : Prop :=
  match ev with
  | EvSql _ _ | EvCollect _ => True
  | _ => False
  end.

(** The statements pre-flight validation may send, [tables] being the
    required tables. *)
Definition validation_queries (cfg : Config) (tables : list string)
  : list string :=
  map (fun table => ("SELECT COUNT(*) FROM " ++ table ++ " LIMIT 1")%string)
    tables ++
  [ ("USE CATALOG " ++ CATALOG cfg)%string;
    ("SHOW SCHEMAS LIKE '" ++ SCHEMA cfg ++ "'")%string;
    "SELECT 1"%string ].

(** Pre-flight validation only queries the warehouse: it opens no script,
    never sleeps, and every statement is one of its own checks. *)
Definition validation_event (cfg : Config) (tables : list string)
    (ev : Event) : Prop :=
  match ev with
  | EvSql q _ => In q (validation_queries cfg tables)
  | EvCollect _ => True
  | _ => False
  end.

(** ** What the run needs besides the gate *)

(** Line 474: the incremental window is a [timedelta], and it can be
    subtracted from every instant the clock gives. *)
Definition window_fits (P : Platform) (cfg : Config) : Prop :=
  exists window,
    timedelta_hours (INCREMENTAL_WINDOW_HOURS cfg) = Ret window /\
    forall h, 0 <= clock P h - window <= datetime_max.

(** Line 658: [display] accepts the metrics. *)
Definition display_accepts (P : Platform) : Prop :=
  forall h, engine_display P h = Ret tt.

(** The trace when the first step starts: the start time was read and the
    start of the run was notified. *)
Definition pipeline_started (P : Platform) (w : World) : World :=
  EvNotify "INFO" "Starting query optimization pipeline execution"
  :: EvNow (clock P (EvNow (clock P w) :: w)) :: EvNow (clock P w) :: w.

(** Every FAILED outcome belongs to a step that is not required.  The
    outcome of the incremental ETL call comes after those of the steps and
    belongs to none: nothing is required of it. *)
Definition all_failures_optional (steps : list PipelineStep)
    (rs : list ExecutionOutcome) : Prop :=
  forall i step r,
    nth_error steps i = Some step -> nth_error rs i = Some r ->
    status r = "FAILED"%string -> step_required step = false.

(** The loop went past [step]: it is not a required step that FAILED. *)
Definition step_passed (step : PipelineStep) (r : ExecutionOutcome) : Prop :=
  step_required step = true -> status r <> "FAILED"%string.

(** ** Example platforms and configurations *)

(** A platform on which nothing works: no script can be opened and the
    warehouse refuses every statement. *)
Definition broken_platform : Platform :=
  mkPlatform (fun w => Z.of_nat (List.length w))
    (fun _ _ => Raise "No such file or directory")
    (fun _ _ => Raise "Connection refused")
    (fun _ => Raise "Connection refused")
    (fun _ => "2024-01-01T00:00:00") (fun _ => "0.00")
    9223372036 (fun _ => Ret tt) (fun _ => Ret (Some fallback_raw)).

(** A platform whose warehouse refuses the first [k] statements it is
    sent and accepts the later ones; scripts can be read. *)
Definition flaky_platform (k : nat) : Platform :=
  mkPlatform (fun w => Z.of_nat (List.length w))
    (fun _ path => Ret ("-- " ++ path)%string)
    (fun w _ => if (count is_sql w <? k)%nat
                then Raise "Connection refused" else Ret DataFrame)
    (fun _ => Ret [])
    (fun _ => "2024-01-01T00:00:00") (fun _ => "0.00")
    9223372036 (fun _ => Ret tt) (fun _ => Ret (Some fallback_raw)).

(** A platform on which a script cannot be opened during the first [k]
    attempts to read one, and can afterwards; the warehouse accepts every
    statement. *)
Definition late_script_platform (k : nat) : Platform :=
  mkPlatform (fun w => Z.of_nat (List.length w))
    (fun w path => if (count is_read w <? k)%nat
                   then Raise "No such file or directory"
                   else Ret ("-- " ++ path)%string)
    (fun _ _ => Ret DataFrame)
    (fun _ => Ret [])
    (fun _ => "2024-01-01T00:00:00") (fun _ => "0.00")
    9223372036 (fun _ => Ret tt) (fun _ => Ret (Some fallback_raw)).

(** A platform on which everything works except reading the table
    [locked]: the warehouse refuses every statement that names it. *)
Definition locked_table_platform (locked : string) : Platform :=
  mkPlatform (fun w => Z.of_nat (List.length w))
    (fun _ path => Ret ("-- " ++ path)%string)
    (fun _ q => if (q =? probe_sql locked)%string
                then Raise "PERMISSION_DENIED" else Ret DataFrame)
    (fun _ => Ret [mkRow 1 1 (Some 0) (Some 0) (Some 0)])
    (fun _ => "2024-01-01T00:00:00") (fun _ => "0.00")
    9223372036 (fun _ => Ret tt) (fun _ => Ret (Some fallback_raw)).

(** A platform on which the script [missing] cannot be opened; every
    other script can, and the warehouse accepts every statement. *)
Definition missing_script_platform (missing : string) : Platform :=
  mkPlatform (fun w => Z.of_nat (List.length w))
    (fun _ path => if (path =? missing)%string
                   then Raise "No such file or directory"
                   else Ret ("-- " ++ path)%string)
    (fun _ _ => Ret DataFrame)
    (fun _ => Ret [mkRow 1 1 (Some 0) (Some 0) (Some 0)])
    (fun _ => "2024-01-01T00:00:00") (fun _ => "0.00")
    9223372036 (fun _ => Ret tt) (fun _ => Ret (Some fallback_raw)).

(** A platform on which no script can be opened although the warehouse
    answers every statement: the SQL directory is not deployed. *)
Definition no_scripts_platform : Platform :=
  mkPlatform (fun w => Z.of_nat (List.length w))
    (fun _ _ => Raise "No such file or directory")
    (fun _ _ => Ret DataFrame)
    (fun _ => Ret [mkRow 1 1 (Some 0) (Some 0) (Some 0)])
    (fun _ => "2024-01-01T00:00:00") (fun _ => "0.00")
    9223372036 (fun _ => Ret tt) (fun _ => Ret (Some fallback_raw)).

(** The names lines 74-78 read from the fallback dictionary. *)
Definition fallback_config : Config :=
  mkConfig "mcp" "query_optimization" 3 30 1 fallback_raw.



(** A command of 101 characters. *)
Definition long_command : string :=
  "SELECT query_id, compute, total_duration_ms FROM system.query.history WHERE total_duration_ms > 10000".

(** ** Vocabulary of the further properties *)

(** The outcome as the [except] branch leaves it after the last attempt
    failed with [e] and the clock read [t] (lines 137-143). *)
Definition failed_outcome (e : string) (t : Z) (r : ExecutionOutcome)
  : ExecutionOutcome :=
  set_execution_time_seconds (t - start_time r)
    (set_end_time (Some t)
       (set_status "FAILED" (set_error_message (Some e) r))).

(** What one attempt leaves behind, beyond [attempt_spec]: a failed
    attempt ends with its exception; a successful one records no exception,
    keeps the error message it was given, and takes its row count from the
    rows it collected, or keeps it when [spark.sql] returned nothing. *)
Definition attempt_detail (body : ExecutionOutcome -> M ExecutionOutcome)
  : Prop :=
  forall r w,
  exists new,
    snd (body r w) = new ++ w /\
    match fst (body r w) with
    | Raise e => last_failure new = Some e
    | Ret r' =>
        last_failure new = None /\
        error_message r' = error_message r /\
        status r' = "SUCCESS"%string /\
        ((exists t rows rest,
            new = EvNow t :: EvCollect (Ret rows) :: rest /\
            row_count r' = Z.of_nat (List.length rows)) \/
         (exists t q rest,
            new = EvNow t :: EvSql q (Ret NoFrame) :: rest /\
            row_count r' = row_count r))
    end.

(** Sum of a list of durations. *)
Definition total (l : list Z) : Z := fold_right Z.add 0 l.

(** The row count an outcome [r] must carry given the events [new] of its
    call: for a SUCCESS, the trace then starts with the end stamp preceded
    by the rows collected, or by a [spark.sql] that returned nothing. *)
Definition row_count_explained (r : ExecutionOutcome) (new : list Event)
  : Prop :=
  (status r = "SUCCESS"%string /\
   ((exists t rows rest,
       new = EvNow t :: EvCollect (Ret rows) :: rest /\
       row_count r = Z.of_nat (List.length rows)) \/
    (exists t q rest,
       new = EvNow t :: EvSql q (Ret NoFrame) :: rest /\
       row_count r = 0))) \/
  (status r <> "SUCCESS"%string /\ row_count r = 0).

(** The events added by the script executor: it opens [path] and no other
    file, submits at most one statement per reading, and every statement
    it submits is a text that a reading of [path] returned. *)
Definition submits_what_it_read (path : string) (seg : list Event) : Prop :=
  read_paths seg = repeat path (count is_read seg) /\
  (count is_sql seg <= count is_read seg)%nat /\
  Forall (fun q => In (EvRead path (Ret q)) seg) (sql_statements seg).

(** The statements of the schema check, and the configuration sections
    the configuration check finds missing. *)
Definition use_catalog_sql (cfg : Config) : string :=
  ("USE CATALOG " ++ CATALOG cfg)%string.

Definition show_schemas_sql (cfg : Config) : string :=
  ("SHOW SCHEMAS LIKE '" ++ SCHEMA cfg ++ "'")%string.

Definition missing_keys (cfg : Config) : list string :=
  filter (fun key => negb (key_in_config cfg key)) required_config_keys.

Definition access_failures (outcomes : list AccessOutcome) : list AccessOutcome :=
  filter (fun r => negb (accessible r)) outcomes.

(** The message pre-flight validation records for each table that is not
    accessible, in the order of the outcomes (lines 352-354). *)
Definition table_errors (outcomes : list AccessOutcome) : list string :=
  flat_map
    (fun o =>
       if accessible o then []
       else [("Cannot access " ++ access_table o ++ ": "
              ++ match access_error o with
                 | Some e => e
                 | None => "None"
                 end)%string])
    outcomes.

(** The required sections the configuration does not have, in the order
    they are looked for (lines 367-370). *)
Definition absent {A} (key : string) (e : Entry A) : list string :=
  match e with
  | Missing => [key]
  | _ => []
  end.

Definition missing_sections (raw : RawConfig) : list string :=
  absent "schemas" (section_schemas raw)
  ++ absent "etl" (section_etl raw)
  ++ absent "performance_thresholds" (section_performance_thresholds raw).

(** What the schema check, started when the trace is [h], leaves on the
    trace and adds to the errors, by the answers of the warehouse
    (lines 357-364): SHOW SCHEMAS is sent unless USE CATALOG was refused,
    and the rows it finds are collected but not looked at. *)
Inductive schema_checked (P : Platform) (cfg : Config) (h : World)
  : list Event -> list string -> Prop :=
| schema_use_refused (e : string) :
    let use := ("USE CATALOG " ++ CATALOG cfg)%string in
    engine_sql P h use = Raise e ->
    schema_checked P cfg h [EvSql use (Raise e)]
      [("Schema " ++ CATALOG cfg ++ "." ++ SCHEMA cfg
        ++ " not accessible: " ++ e)%string]
| schema_show_refused (f : Frame) (e : string) :
    let use := ("USE CATALOG " ++ CATALOG cfg)%string in
    let show := ("SHOW SCHEMAS LIKE '" ++ SCHEMA cfg ++ "'")%string in
    engine_sql P h use = Ret f ->
    engine_sql P (EvSql use (Ret f) :: h) show = Raise e ->
    schema_checked P cfg h [EvSql show (Raise e); EvSql use (Ret f)]
      [("Schema " ++ CATALOG cfg ++ "." ++ SCHEMA cfg
        ++ " not accessible: " ++ e)%string]
| schema_show_nothing (f : Frame) :
    let use := ("USE CATALOG " ++ CATALOG cfg)%string in
    let show := ("SHOW SCHEMAS LIKE '" ++ SCHEMA cfg ++ "'")%string in
    engine_sql P h use = Ret f ->
    engine_sql P (EvSql use (Ret f) :: h) show = Ret NoFrame ->
    schema_checked P cfg h [EvSql show (Ret NoFrame); EvSql use (Ret f)]
      [("Schema " ++ CATALOG cfg ++ "." ++ SCHEMA cfg
        ++ " not accessible: "
        ++ "'NoneType' object has no attribute 'collect'")%string]
| schema_uncollected (f : Frame) (e : string) :
    let use := ("USE CATALOG " ++ CATALOG cfg)%string in
    let show := ("SHOW SCHEMAS LIKE '" ++ SCHEMA cfg ++ "'")%string in
    engine_sql P h use = Ret f ->
    engine_sql P (EvSql use (Ret f) :: h) show = Ret DataFrame ->
    engine_collect P (EvSql show (Ret DataFrame) :: EvSql use (Ret f) :: h)
      = Raise e ->
    schema_checked P cfg h
      [EvCollect (Raise e); EvSql show (Ret DataFrame); EvSql use (Ret f)]
      [("Schema " ++ CATALOG cfg ++ "." ++ SCHEMA cfg
        ++ " not accessible: " ++ e)%string]
| schema_accessible (f : Frame) (rows : list Row) :
    let use := ("USE CATALOG " ++ CATALOG cfg)%string in
    let show := ("SHOW SCHEMAS LIKE '" ++ SCHEMA cfg ++ "'")%string in
    engine_sql P h use = Ret f ->
    engine_sql P (EvSql use (Ret f) :: h) show = Ret DataFrame ->
    engine_collect P (EvSql show (Ret DataFrame) :: EvSql use (Ret f) :: h)
      = Ret rows ->
    schema_checked P cfg h
      [EvCollect (Ret rows); EvSql show (Ret DataFrame); EvSql use (Ret f)]
      [].

(** The same for the cluster check (lines 373-377). *)
Inductive cluster_checked (P : Platform) (h : World)
  : list Event -> list string -> Prop :=
| cluster_refused (e : string) :
    engine_sql P h "SELECT 1" = Raise e ->
    cluster_checked P h [EvSql "SELECT 1" (Raise e)]
      [("Cluster resource issue: " ++ e)%string]
| cluster_nothing :
    engine_sql P h "SELECT 1" = Ret NoFrame ->
    cluster_checked P h [EvSql "SELECT 1" (Ret NoFrame)]
      [("Cluster resource issue: "
        ++ "'NoneType' object has no attribute 'collect'")%string]
| cluster_uncollected (e : string) :
    engine_sql P h "SELECT 1" = Ret DataFrame ->
    engine_collect P (EvSql "SELECT 1" (Ret DataFrame) :: h) = Raise e ->
    cluster_checked P h [EvCollect (Raise e); EvSql "SELECT 1" (Ret DataFrame)]
      [("Cluster resource issue: " ++ e)%string]
| cluster_answers (rows : list Row) :
    engine_sql P h "SELECT 1" = Ret DataFrame ->
    engine_collect P (EvSql "SELECT 1" (Ret DataFrame) :: h) = Ret rows ->
    cluster_checked P h [EvCollect (Ret rows); EvSql "SELECT 1" (Ret DataFrame)]
      [].

(** A configuration file without its "performance_thresholds" section. *)
Definition no_thresholds_raw : RawConfig :=
  mkRaw (section_schemas fallback_raw) (section_etl fallback_raw)
    Missing Missing Missing.

(** A configuration file without its "etl" section. *)
Definition no_etl_raw : RawConfig :=
  mkRaw (section_schemas fallback_raw) Missing (Present tt) Missing Missing.

Definition no_thresholds_config : Config :=
  mkConfig "mcp" "query_optimization" 3 30 1 no_thresholds_raw.

(** A warehouse that accepts every statement and hands back a result set
    (possibly an empty one) for each. *)
Definition answers_every_query (P : Platform) : Prop :=
  (forall h q, engine_sql P h q = Ret DataFrame) /\
  (forall h, exists rows, engine_collect P h = Ret rows).

(** The qualified name [check_table_health] builds (line 262). *)
Definition full_table_name (cfg : Config) (schema_name : option string)
    (table_name : string) : string :=
  (CATALOG cfg ++ "."
   ++ match schema_name with None => SCHEMA cfg | Some s => s end
   ++ "." ++ table_name)%string.

(** The statements of [check_table_health] (lines 266 and 269-278). *)
Definition describe_sql (full_name : string) : string :=
  ("DESCRIBE TABLE " ++ full_name)%string.

Definition stats_sql (full_name : string) : string :=
  ("
            SELECT 
                COUNT(*) as row_count,
                COUNT(DISTINCT query_date) as unique_dates,
                MIN(query_date) as earliest_date,
                MAX(query_date) as latest_date,
                MAX(created_at) as latest_created_at
            FROM " ++ full_name ++ "
            WHERE query_date >= CURRENT_DATE - INTERVAL 7 DAY
        ")%string.

(** The statements of the housekeeping (lines 687, 691 and 721). *)
Definition optimize_sql (cfg : Config) (table_name : string) : string :=
  ("OPTIMIZE " ++ full_table_name cfg None table_name)%string.

Definition analyze_sql (cfg : Config) (table_name : string) : string :=
  ("ANALYZE TABLE " ++ full_table_name cfg None table_name
   ++ " COMPUTE STATISTICS")%string.

Definition refresh_sql (cfg : Config) (view_name : string) : string :=
  ("REFRESH MATERIALIZED VIEW " ++ CATALOG cfg ++ "." ++ SCHEMA cfg ++ "."
   ++ view_name)%string.

(** A well-formed entry of the optimization results: a SUCCESS with its
    duration and no error, or a FAILED with its error and no duration. *)
Definition optimization_entry (o : OptimizationOutcome) : Prop :=
  (optimization_status o = "SUCCESS"%string /\
   optimization_error o = None /\
   exists t, optimization_time_seconds o = Some t) \/
  (optimization_status o = "FAILED"%string /\
   optimization_time_seconds o = None /\
   exists e, optimization_error o = Some e).

(** The statements sent for one table: [OPTIMIZE], then [ANALYZE] unless
    [OPTIMIZE] raised. *)
Definition table_statements (cfg : Config) (table_name : string)
    (q : list string) : Prop :=
  q = [optimize_sql cfg table_name] \/
  q = [optimize_sql cfg table_name; analyze_sql cfg table_name].

(** What one turn of the table loop leaves behind: a well-formed entry, the
    statements of its table, and both statements whenever it reports
    SUCCESS. *)
Definition table_run (cfg : Config) (o : OptimizationOutcome)
    (q : list string) : Prop :=
  optimization_entry o /\
  table_statements cfg (optimized_table o) q /\
  (optimization_status o = "SUCCESS"%string ->
   q = [optimize_sql cfg (optimized_table o);
        analyze_sql cfg (optimized_table o)]).

(** The most recent event is a statement the warehouse refused. *)
Definition ends_refused (new : list Event) : Prop :=
  exists q e rest, new = EvSql q (Raise e) :: rest.

(** *** The housekeeping, stated on the platform *)

(** What the turn of the table loop for [table], started when the trace is
    [h], leaves on the trace and records as entry, by the answers of the
    warehouse (lines 680-707): ANALYZE TABLE is sent exactly when OPTIMIZE
    was accepted, and the entry is a SUCCESS exactly when both were. *)
Inductive table_optimized (P : Platform) (cfg : Config) (table : string)
    (h : World) : list Event -> OptimizationOutcome -> Prop :=
| optimize_refused (e : string) :
    let name := (CATALOG cfg ++ "." ++ SCHEMA cfg ++ "." ++ table)%string in
    let t0 := clock P h in
    engine_sql P (EvNow t0 :: h) ("OPTIMIZE " ++ name) = Raise e ->
    table_optimized P cfg table h
      [EvSql ("OPTIMIZE " ++ name) (Raise e); EvNow t0]
      (mkOptimization table "FAILED" None (Some e))
| analyze_refused (f : Frame) (e : string) :
    let name := (CATALOG cfg ++ "." ++ SCHEMA cfg ++ "." ++ table)%string in
    let t0 := clock P h in
    let optimized := EvSql ("OPTIMIZE " ++ name) (Ret f) :: EvNow t0 :: h in
    let t1 := clock P optimized in
    engine_sql P (EvNow t0 :: h) ("OPTIMIZE " ++ name) = Ret f ->
    engine_sql P (EvNow t1 :: optimized)
      ("ANALYZE TABLE " ++ name ++ " COMPUTE STATISTICS") = Raise e ->
    table_optimized P cfg table h
      [EvSql ("ANALYZE TABLE " ++ name ++ " COMPUTE STATISTICS") (Raise e);
       EvNow t1; EvSql ("OPTIMIZE " ++ name) (Ret f); EvNow t0]
      (mkOptimization table "FAILED" None (Some e))
| optimized_and_analyzed (f g : Frame) :
    let name := (CATALOG cfg ++ "." ++ SCHEMA cfg ++ "." ++ table)%string in
    let t0 := clock P h in
    let optimized := EvSql ("OPTIMIZE " ++ name) (Ret f) :: EvNow t0 :: h in
    let t1 := clock P optimized in
    engine_sql P (EvNow t0 :: h) ("OPTIMIZE " ++ name) = Ret f ->
    engine_sql P (EvNow t1 :: optimized)
      ("ANALYZE TABLE " ++ name ++ " COMPUTE STATISTICS") = Ret g ->
    table_optimized P cfg table h
      [EvSql ("ANALYZE TABLE " ++ name ++ " COMPUTE STATISTICS") (Ret g);
       EvNow t1; EvSql ("OPTIMIZE " ++ name) (Ret f); EvNow t0]
      (mkOptimization table "SUCCESS" (Some (t1 - t0)) None).

(** The turns of a list of tables, one after the other from the trace
    [h]: every table has its turn, whatever the earlier ones met. *)
Inductive tables_optimized (P : Platform) (cfg : Config)
  : World -> list string -> list Event -> list OptimizationOutcome -> Prop :=
| optimized_none (h : World) : tables_optimized P cfg h [] [] []
| optimized_next (h : World) (table : string) (rest : list string)
    (seg later : list Event) (o : OptimizationOutcome)
    (outs : list OptimizationOutcome) :
    table_optimized P cfg table h seg o ->
    tables_optimized P cfg (seg ++ h) rest later outs ->
    tables_optimized P cfg h (table :: rest) (later ++ seg) (o :: outs).

(** The refresh of a list of views from the trace [h] (lines 714-722):
    one statement per view, in list order, up to and including the first
    one the warehouse refuses; the views after that one are not
    refreshed. *)
Inductive views_refreshed (P : Platform) (cfg : Config)
  : World -> list string -> list Event -> Prop :=
| refreshed_none (h : World) : views_refreshed P cfg h [] []
| refreshed_next (h : World) (view : string) (rest : list string)
    (f : Frame) (later : list Event) :
    let q := ("REFRESH MATERIALIZED VIEW " ++ CATALOG cfg ++ "."
              ++ SCHEMA cfg ++ "." ++ view)%string in
    engine_sql P h q = Ret f ->
    views_refreshed P cfg (EvSql q (Ret f) :: h) rest later ->
    views_refreshed P cfg h (view :: rest) (later ++ [EvSql q (Ret f)])
| refreshed_refused (h : World) (view : string) (rest : list string)
    (e : string) :
    let q := ("REFRESH MATERIALIZED VIEW " ++ CATALOG cfg ++ "."
              ++ SCHEMA cfg ++ "." ++ view)%string in
    engine_sql P h q = Raise e ->
    views_refreshed P cfg h (view :: rest) [EvSql q (Raise e)].

(** Statuses of the health records and of the quality outcome, as the
    overall validation status reads them (lines 571-572). *)
Definition health_failed (h : HealthRecord) : Prop :=
  health_status h = "FAILED"%string.

Definition health_passed (h : HealthRecord) : Prop :=
  health_status h = "SUCCESS"%string.

Definition quality_script : string := "../validation/data_quality_tests.sql".

(** The quality check counts as failed (line 572): the outcome of the
    data-quality script is FAILED, or the call raised and the [except]
    branch recorded its message. *)
Definition quality_failed (c : QualityCheck) : Prop :=
  match c with
  | quality_outcome q => status q = "FAILED"%string
  | quality_error _ => True
  end.


(** The statuses an executor outcome can have under the configured retry
    budget: PENDING when the budget allows no attempt, SUCCESS or FAILED
    otherwise. *)
Definition outcome_status_ok (cfg : Config) (r : ExecutionOutcome) : Prop :=
  (MAX_RETRY_ATTEMPTS cfg <= 0 /\ status r = "PENDING"%string) \/
  (1 <= MAX_RETRY_ATTEMPTS cfg /\
   (status r = "SUCCESS"%string \/ status r = "FAILED"%string)).

(** The outcome recorded for a step of the pipeline. *)
Definition step_outcome (cfg : Config) (step : PipelineStep)
    (r : ExecutionOutcome) : Prop :=
  subject r = script (step_script step) /\
  description r = step_description step /\
  outcome_status_ok cfg r.

Definition every_status (st : string) (rs : list ExecutionOutcome) : Prop :=
  Forall (fun r => status r = st) rs.

(** The summary of a run that went through the four steps and the ETL
    call (lines 499-508). *)
Definition completed_summary (s : PipelineSummary) (st : string)
    (completed failed : Z) : Prop :=
  pipeline_status s = Some st /\
  steps_completed s = Some completed /\
  steps_failed s = Some failed /\
  steps_total s = Some 5 /\
  pipeline_error s = None /\
  List.length (results s) = 5%nat.


Definition etl_description : string :=
  "Process incremental query performance data".

(** A configuration that allows no attempt at all. *)
Definition no_budget_config : Config :=
  mkConfig "mcp" "query_optimization" 0 30 1
    (mkRaw (section_schemas fallback_raw)
       (Present (mkEtl (Some 0) (Some 30) (Some 1)))
       (Present tt) Missing Missing).

(** An outcome nothing was done for: as created, never attempted. *)
Definition untouched (r : ExecutionOutcome) : Prop :=
  status r = "PENDING"%string /\ attempt_count r = 0 /\ end_time r = None /\
  error_message r = None /\ row_count r = 0.

(** One line of the reporter's decision (lines 618-629): the overall
    status, the severity of the notification, and the pipeline and
    validation statuses it was taken from. *)
Definition report_line (overall severity ps vs : string) : Prop :=
  (overall = "SUCCESS" /\ severity = "INFO" /\
   ps = "SUCCESS" /\ vs = "SUCCESS")%string \/
  (overall = "WARNING" /\ severity = "WARNING" /\
   ~ (ps = "SUCCESS" /\ vs = "SUCCESS") /\
   (ps = "PARTIAL_SUCCESS" \/ vs = "FAILED"))%string \/
  (overall = "FAILED" /\ severity = "ERROR" /\
   ~ (ps = "SUCCESS" /\ vs = "SUCCESS") /\
   ps <> "PARTIAL_SUCCESS" /\ vs <> "FAILED")%string.

(** The metrics of a report, read off the summary (lines 610-614). *)
Definition metrics_of (s : PipelineSummary) : PerformanceMetrics :=
  mkMetrics (get (total_execution_time s) 0)
    (mkRatio (get (total_execution_time s) 0) (Z.max 1 (get (steps_total s) 1)))
    (mkRatio (get (steps_completed s) 0) (Z.max 1 (get (steps_total s) 1))).

(** A platform on which everything works: every script can be opened, the
    warehouse accepts every statement and every result set has a row. *)
Definition healthy (P : Platform) : Prop :=
  (forall h path, exists text, file_read P h path = Ret text) /\
  (forall h q, engine_sql P h q = Ret DataFrame) /\
  (forall h, exists row rows, engine_collect P h = Ret (row :: rows)).

(** An outcome that succeeded at the first attempt. *)
Definition first_try (r : ExecutionOutcome) : Prop :=
  status r = "SUCCESS"%string /\ attempt_count r = 1 /\
  error_message r = None /\ 1 <= row_count r.

(** 2024-01-01T00:00:00. *)
Definition new_year_2024 : Z := 63839664000000000.

(** A clock that starts on 2024-01-01 and advances by a microsecond with
    every call on the platform, for a day at most. *)
Definition ticking_clock (w : World) : Z :=
  new_year_2024 + Z.min (Z.of_nat (List.length w)) microseconds_per_day.

(** A platform on which everything works, whose configuration file holds
    [raw]. *)
Definition working_platform (raw : RawConfig) : Platform :=
  mkPlatform ticking_clock
    (fun _ path => Ret ("-- " ++ path)%string)
    (fun _ _ => Ret DataFrame)
    (fun _ => Ret [mkRow 1 1 (Some 0) (Some 0) (Some 0)])
    (fun _ => "2024-01-01T00:00:00") (fun _ => "0.00")
    9223372036 (fun _ => Ret tt) (fun _ => Ret (Some raw)).

Definition healthy_platform : Platform := working_platform fallback_raw.

(** A platform on which everything works except the stored procedure of
    the incremental ETL: the warehouse refuses the CALL statement. *)
Definition failing_etl_platform : Platform :=
  mkPlatform ticking_clock
    (fun _ path => Ret ("-- " ++ path)%string)
    (fun _ q => if String.prefix (String "010"%char "    CALL ") q
                then Raise "PROCEDURE_NOT_FOUND" else Ret DataFrame)
    (fun _ => Ret [mkRow 1 1 (Some 0) (Some 0) (Some 0)])
    (fun _ => "2024-01-01T00:00:00") (fun _ => "0.00")
    9223372036 (fun _ => Ret tt) (fun _ => Ret (Some fallback_raw)).



(** ** Basic facts *)

Lemma count_app mark (a b : World) :
  count mark (a ++ b) = (count mark a + count mark b)%nat.
Proof. unfold count. now rewrite filter_app, length_app. Qed.

Lemma schedule_app mark (a b : World) :
  schedule mark (a ++ b) = (schedule mark b ++ schedule mark a)%list.
Proof.
  induction a as [|ev a IH]; simpl.
  - now rewrite app_nil_r.
  - now rewrite IH, app_assoc.
Qed.

Lemma sleeps_app (a b : World) : sleeps (a ++ b) = (sleeps b ++ sleeps a)%list.
Proof.
  induction a as [|ev a IH]; simpl.
  - now rewrite app_nil_r.
  - destruct ev; auto. now rewrite IH, app_assoc.
Qed.

Lemma sql_statements_app (a b : World) :
  sql_statements (a ++ b) = (sql_statements b ++ sql_statements a)%list.
Proof.
  induction a as [|ev a IH]; simpl.
  - now rewrite app_nil_r.
  - destruct ev; auto. now rewrite IH, app_assoc.
Qed.

Lemma read_paths_app (a b : World) :
  read_paths (a ++ b) = (read_paths b ++ read_paths a)%list.
Proof.
  induction a as [|ev a IH]; simpl.
  - now rewrite app_nil_r.
  - destruct ev; auto. now rewrite IH, app_assoc.
Qed.

Lemma last_failure_app_some (a b : World) (e : string) :
  last_failure a = Some e -> last_failure (a ++ b) = Some e.
Proof.
  induction a as [|ev a IH]; simpl; [discriminate|].
  destruct (event_failure ev); auto.
Qed.

Lemma delays_app (a b : list Step) : delays (a ++ b) = (delays a ++ delays b)%list.
Proof. induction a as [|[|s] a IH]; simpl; congruence. Qed.

Lemma delays_schedule mark (w : World) : delays (schedule mark w) = sleeps w.
Proof.
  induction w as [|ev w IH]; simpl; auto.
  rewrite delays_app, IH.
  destruct ev; simpl; try (destruct (mark _); simpl; now rewrite app_nil_r).
  reflexivity.
Qed.

Lemma delays_backoff d k a :
  delays (backoff_schedule d k a) = backoff_delays d k (Nat.pred a).
Proof.
  revert k; induction a as [|a IH]; intros k; simpl; auto.
  destruct a as [|a]; simpl; auto.
  specialize (IH (S k)). simpl in IH. unfold backoff_delays in *. simpl.
  now rewrite IH.
Qed.


(** ** Sleeping *)


Lemma sleep_cases (P : Platform) (s : Z) (w : World) :
  (sleepable P s /\ sleep P s w = (Ret tt, EvSleep s :: w)) \/
  (exists e, sleep_refused P s e /\ sleep P s w = (Raise e, w)).
Proof.
  unfold sleep, sleepable, sleep_refused.
  destruct (Z.ltb_spec s 0).
  - right. eexists. split; [left; split; [assumption|reflexivity]|reflexivity].
  - destruct (Z.ltb_spec (sleep_limit P) s).
    + right. eexists.
      split; [right; split; [assumption|reflexivity]|reflexivity].
    + left. split; [lia|reflexivity].
Qed.

Lemma refused_not_sleepable (P : Platform) (s : Z) (e : string) :
  sleep_refused P s e -> sleepable P s -> False.
Proof. intros [(H & _)|(H & _)] (H0 & H1); lia. Qed.

(** ** The retry loop, for any unit of work *)

Section RetryLoop.

Variable P : Platform.
Variable cfg : Config.
Variable body : ExecutionOutcome -> M ExecutionOutcome.
Variable mark : Event -> bool.
Variable Q : Event -> Prop.

Local Abbreviation d := (RETRY_DELAY_SECONDS cfg).

Hypothesis body_ok : attempt_spec body mark Q.
Hypothesis mark_now : forall t, mark (EvNow t) = false.
Hypothesis mark_sleep : forall s, mark (EvSleep s) = false.
Hypothesis Q_now : forall t, Q (EvNow t).
Hypothesis Q_sleep : forall s, Q (EvSleep s).

Lemma last_attempt_test (j m : nat) :
  (Z.of_nat j =? Z.of_nat (j + S m) - 1) = (m =? 0)%nat.
Proof.
  destruct (Nat.eqb_spec m 0) as [->|Hm].
  - apply Z.eqb_eq. lia.
  - apply Z.eqb_neq. lia.
Qed.

(** Every run of the loop ends: with an outcome, or with the exception of
    a sleep that was refused.  In both cases its trace follows the backoff
    schedule for as many attempts as it made. *)
Lemma retry_loop_run (m j : nat) (n : Z) (r0 : ExecutionOutcome) (w : World) :
  m = 0%nat \/ n = Z.of_nat (j + m) ->
  exists res new,
    retry_loop P cfg body n (map Z.of_nat (seq j m)) r0 w = (res, new ++ w) /\
    run_ended P cfg mark Q m j r0 res new.
Proof.
  unfold run_ended, run_stopped, run_facts.
  revert j r0 w. induction m as [|m IH]; intros j r0 w Hn.
  - exists (Ret r0), []. simpl. unfold ret, count. simpl.
    repeat split; auto; try constructor; congruence.
  - destruct Hn as [Hn|Hn]; [discriminate|]. subst n.
    simpl. unfold try_except.
    destruct (body_ok (set_attempt_count (Z.of_nat j + 1) r0) w)
      as (new1 & Hw1 & Hsch1 & Hc1 & HQ1 & Hres).
    destruct (body (set_attempt_count (Z.of_nat j + 1) r0) w)
      as [[r'|e] w1] eqn:Hb; simpl in Hw1, Hres; subst w1.
    + (* the attempt succeeded *)
      destruct Hres as (Hst & Hac & Hsu & Hde & Hstart & t & rest & -> & Het & Hex).
      exists (Ret r'), (EvNow t :: rest). rewrite Hc1.
      repeat split; auto; try lia.
      exists t, rest. repeat split; auto. congruence.
    + (* the attempt failed *)
      rewrite last_attempt_test.
      destruct (Nat.eqb_spec m 0) as [->|Hm].
      * (* it was the last one *)
        unfold bind, now, ret. simpl.
        eexists (Ret _). exists (EvNow (clock P (new1 ++ w)) :: new1).
        split; [reflexivity|].
        assert (Hc : count mark (EvNow (clock P (new1 ++ w)) :: new1) = 1%nat).
        { unfold count in *. simpl. now rewrite mark_now. }
        rewrite Hc. simpl. rewrite mark_now, app_nil_r.
        repeat split; auto; try lia; try discriminate.
        -- exists (clock P (new1 ++ w)), new1. auto.
        -- right. repeat split; auto. exists e. auto.
      * (* sleep, then the next attempt *)
        unfold bind at 1.
        set (r1 := set_error_message (Some e)
                     (set_attempt_count (Z.of_nat j + 1) r0)).
        set (s := RETRY_DELAY_SECONDS cfg * 2 ^ Z.of_nat j).
        destruct (sleep_cases P s (new1 ++ w)) as [(_ & Es)|(e' & Href & Es)];
          rewrite Es.
        2:{ (* the sleep is refused *)
            exists (Raise e'), new1. split; [reflexivity|].
            rewrite Hc1. repeat split; auto; try lia.
            replace (j + 1 - 1)%nat with j by lia. exact Href. }
        destruct (IH (S j) r1 (EvSleep s :: new1 ++ w))
          as (res & new2 & Hrun & Hend).
        { right. lia. }
        exists res, (new2 ++ EvSleep s :: new1).
        rewrite <- app_assoc. simpl app at 1.
        split; [exact Hrun|].
        assert (Hc : count mark (new2 ++ EvSleep s :: new1)
                     = S (count mark new2)).
        { rewrite count_app. unfold count at 2. simpl filter.
          rewrite mark_sleep. fold (count mark new1). lia. }
        rewrite Hc.
        destruct res as [r|e2].
        -- destruct Hend as (Hle & Hsch2 & HQ2 & Hsu & Hde & Hstart & _ & Hpos).
           destruct (Hpos Hm) as (Hac & Hone & (t & rest & -> & Het & Hex) & Hst).
           repeat split; auto; try lia; try discriminate.
           ++ rewrite schedule_app. simpl schedule at 1.
              rewrite Hsch1, Hsch2. simpl.
              destruct (count mark (EvNow t :: rest)) eqn:Hk; [lia|].
              reflexivity.
           ++ apply Forall_app. split; auto.
           ++ exists t, (rest ++ EvSleep s :: new1). auto.
           ++ destruct Hst as [Hst|(Hst & Hcm & e' & Herr & Hlast)];
                [left; exact Hst|].
              right. repeat split; auto; try lia.
              exists e'. split; auto.
              now apply (last_failure_app_some (EvNow t :: rest)).
        -- destruct Hend as (Hone & Hlt & Hsch2 & HQ2 & Href).
           repeat split; auto; try lia.
           ++ rewrite schedule_app. simpl schedule at 1.
              rewrite Hsch1, Hsch2. simpl.
              destruct (count mark new2) eqn:Hk; [lia|].
              reflexivity.
           ++ apply Forall_app. split; auto.
           ++ replace (j + S (count mark new2) - 1)%nat
                with (S j + count mark new2 - 1)%nat by lia.
              exact Href.
Qed.

(** A loop whose delays are all accepted returns an outcome. *)
Lemma retry_loop_returns (m j : nat) (n : Z) (r0 : ExecutionOutcome) (w : World) :
  m = 0%nat \/ n = Z.of_nat (j + m) ->
  (forall k, (j <= k)%nat -> (k + 1 < j + m)%nat ->
             sleepable P (d * 2 ^ Z.of_nat k)) ->
  exists r new,
    retry_loop P cfg body n (map Z.of_nat (seq j m)) r0 w = (Ret r, new ++ w) /\
    run_facts cfg mark Q m j r0 r new.
Proof.
  intros Hn Hfit.
  destruct (retry_loop_run m j n r0 w Hn) as ([r|e] & new & E & Hend).
  - exists r, new. split; assumption.
  - exfalso. destruct Hend as (Hone & Hlt & _ & _ & Href).
    apply (refused_not_sleepable _ _ _ Href). apply Hfit; lia.
Qed.

Lemma count_after_sleep (s : Z) (new : list Event) (w : World) :
  count mark (EvSleep s :: new ++ w) = (count mark new + count mark w)%nat.
Proof.
  rewrite <- count_app. unfold count. simpl. now rewrite mark_sleep.
Qed.


(** When the unit of work fails on the first [k] attempts and succeeds on
    the next one, the loop never makes an attempt after that one: it
    returns SUCCESS right after it, unless the sleep that follows an
    earlier attempt is refused, whose exception then ends the loop. *)
Lemma retry_loop_until_success (k m j : nat) (n : Z) (r0 : ExecutionOutcome)
    (w : World) :
  (k < m)%nat -> n = Z.of_nat (j + m) ->
  (forall r h, (count mark h < count mark w + k)%nat -> fails_at body r h) ->
  (forall r h, count mark h = (count mark w + k)%nat -> succeeds_at body r h) ->
  exists res new,
    retry_loop P cfg body n (map Z.of_nat (seq j m)) r0 w = (res, new ++ w) /\
    match res with
    | Ret r => status r = "SUCCESS"%string /\ count mark new = S k
    | Raise e =>
        exists i, (i < k)%nat /\ count mark new = S i /\
                  sleep_refused P (d * 2 ^ Z.of_nat (j + i)) e
    end.
Proof.
  revert m j r0 w. induction k as [|k IH]; intros m j r0 w Hk Hn Hfail Hok.
  - destruct m as [|m]; [lia|]. subst n. simpl. unfold try_except.
    destruct (body_ok (set_attempt_count (Z.of_nat j + 1) r0) w)
      as (new1 & Hw1 & _ & Hc1 & _ & Hres).
    destruct (Hok (set_attempt_count (Z.of_nat j + 1) r0) w) as (r' & Hr'); [lia|].
    destruct (body (set_attempt_count (Z.of_nat j + 1) r0) w) as [res w1].
    simpl in Hw1, Hr', Hres. subst res w1.
    exists (Ret r'), new1. intuition.
  - destruct m as [|m]; [lia|]. subst n. simpl. unfold try_except.
    destruct (body_ok (set_attempt_count (Z.of_nat j + 1) r0) w)
      as (new1 & Hw1 & _ & Hc1 & _ & _).
    destruct (Hfail (set_attempt_count (Z.of_nat j + 1) r0) w) as (e & He); [lia|].
    destruct (body (set_attempt_count (Z.of_nat j + 1) r0) w) as [res w1].
    simpl in Hw1, He. subst res w1.
    rewrite last_attempt_test.
    destruct (Nat.eqb_spec m 0) as [->|Hm']; [lia|].
    unfold bind at 1.
    set (s := RETRY_DELAY_SECONDS cfg * 2 ^ Z.of_nat j).
    destruct (sleep_cases P s (new1 ++ w)) as [(_ & Es)|(e' & Href & Es)];
      rewrite Es.
    2:{ exists (Raise e'), new1. split; [reflexivity|].
        exists 0%nat. split; [lia|]. split; [exact Hc1|].
        replace (j + 0)%nat with j by lia. exact Href. }
    assert (Hcw : count mark (EvSleep s :: new1 ++ w) = S (count mark w)).
    { rewrite count_after_sleep. lia. }
    destruct (IH m (S j) (set_error_message (Some e)
                            (set_attempt_count (Z.of_nat j + 1) r0))
                (EvSleep s :: new1 ++ w))
      as (res & new2 & Hrun & Hres).
    + lia.
    + lia.
    + intros r h Hh. apply Hfail. lia.
    + intros r h Hh. apply Hok. lia.
    + exists res, (new2 ++ EvSleep s :: new1).
      rewrite <- app_assoc. split; [exact Hrun|].
      assert (Hc : count mark (new2 ++ EvSleep s :: new1)
                   = S (count mark new2)).
      { rewrite count_app. unfold count at 2. simpl filter.
        rewrite mark_sleep. fold (count mark new1). lia. }
      rewrite Hc. destruct res as [r|e2].
      * destruct Hres as (Hst & Hc2). split; [exact Hst|lia].
      * destruct Hres as (i & Hi & Hc2 & Href).
        exists (S i). split; [lia|]. split; [lia|].
        replace (j + S i)%nat with (S j + i)%nat by lia. exact Href.
Qed.

End RetryLoop.
(** ** The two units of work *)

Ltac segment_of l w :=
  match l with
  | w => constr:(@nil Event)
  | ?ev :: ?l' => let s := segment_of l' w in constr:(ev :: s)
  end.

Ltac give_segment :=
  match goal with
  | |- exists new, ?l = new ++ ?w /\ _ =>
      let s := segment_of l w in exists s
  end.

Ltac run_attempt :=
  repeat match goal with
         | |- context [file_read ?P ?w ?p] => destruct (file_read P w p)
         | |- context [engine_sql ?P ?w ?q] => destruct (engine_sql P w q) as [[|]|]
         | |- context [engine_collect ?P ?w] => destruct (engine_collect P w)
         end;
  simpl; give_segment; unfold count; simpl;
  repeat split; auto; repeat constructor; simpl; eauto.

Lemma script_attempt_spec (P : Platform) (path : string) :
  attempt_spec (script_attempt P path) is_read (reads_only path).
Proof.
  intros r w.
  unfold script_attempt, record_success, bind, read_file, spark_sql, collect,
    now, ret, raise.
  run_attempt.
Qed.

Lemma command_attempt_spec (P : Platform) (sql_command : string) :
  attempt_spec (command_attempt P sql_command) is_sql (submits_only sql_command).
Proof.
  intros r w.
  unfold command_attempt, record_success, bind, spark_sql, collect, now, ret, raise.
  run_attempt.
Qed.


(** ** The executor *)

Lemma is_read_now t : is_read (EvNow t) = false.
Proof. reflexivity. Qed.
Lemma is_read_sleep s : is_read (EvSleep s) = false.
Proof. reflexivity. Qed.
Lemma is_sql_now t : is_sql (EvNow t) = false.
Proof. reflexivity. Qed.
Lemma is_sql_sleep s : is_sql (EvSleep s) = false.
Proof. reflexivity. Qed.

Lemma retries_shape (n : Z) :
  Z.to_nat n = 0%nat \/ n = Z.of_nat (0 + Z.to_nat n).
Proof. lia. Qed.

Lemma execute_sql_script_unfold P cfg path desc mr w :
  execute_sql_script P cfg path desc mr w =
  retry_loop P cfg (script_attempt P path) (default_retries cfg mr)
    (map Z.of_nat (seq 0 (Z.to_nat (default_retries cfg mr))))
    (initial_outcome (script path) desc (clock P w)) (EvNow (clock P w) :: w).
Proof. reflexivity. Qed.

Lemma execute_sql_command_unfold P cfg cmd desc mr w :
  execute_sql_command P cfg cmd desc mr w =
  retry_loop P cfg (command_attempt P cmd) (default_retries cfg mr)
    (map Z.of_nat (seq 0 (Z.to_nat (default_retries cfg mr))))
    (initial_outcome (command (display_command cmd)) desc (clock P w))
    (EvNow (clock P w) :: w).
Proof. reflexivity. Qed.

(** Every call of the script executor ends, with an outcome or with the
    exception of a refused sleep. *)
Lemma execute_sql_script_run P cfg path desc mr w :
  exists res new,
    execute_sql_script P cfg path desc mr w
      = (res, new ++ EvNow (clock P w) :: w) /\
    run_ended P cfg is_read (reads_only path)
      (Z.to_nat (default_retries cfg mr)) 0
      (initial_outcome (script path) desc (clock P w)) res new.
Proof.
  rewrite execute_sql_script_unfold.
  apply retry_loop_run;
    auto using script_attempt_spec, is_read_now, is_read_sleep, retries_shape.
  - intros; exact I.
  - intros; exact I.
Qed.

(** Every call of the command executor ends, in the same two ways. *)
Lemma execute_sql_command_run P cfg cmd desc mr w :
  exists res new,
    execute_sql_command P cfg cmd desc mr w
      = (res, new ++ EvNow (clock P w) :: w) /\
    run_ended P cfg is_sql (submits_only cmd)
      (Z.to_nat (default_retries cfg mr)) 0
      (initial_outcome (command (display_command cmd)) desc (clock P w)) res new.
Proof.
  rewrite execute_sql_command_unfold.
  apply retry_loop_run;
    auto using command_attempt_spec, is_sql_now, is_sql_sleep, retries_shape.
  - intros; exact I.
  - intros; exact I.
Qed.

Lemma delays_fit_nat (P : Platform) (cfg : Config) (n : Z) :
  delays_fit P cfg n ->
  forall k, (0 <= k)%nat -> (k + 1 < 0 + Z.to_nat n)%nat ->
            sleepable P (RETRY_DELAY_SECONDS cfg * 2 ^ Z.of_nat k).
Proof. intros Hfit k _ Hk. apply Hfit. lia. Qed.

(** With delays that fit, both executors return an outcome. *)
Lemma execute_sql_script_returns P cfg path desc mr w :
  delays_fit P cfg (default_retries cfg mr) ->
  exists r new,
    execute_sql_script P cfg path desc mr w
      = (Ret r, new ++ EvNow (clock P w) :: w) /\
    run_facts cfg is_read (reads_only path)
      (Z.to_nat (default_retries cfg mr)) 0
      (initial_outcome (script path) desc (clock P w)) r new.
Proof.
  intros Hfit. rewrite execute_sql_script_unfold.
  apply (retry_loop_returns P cfg (script_attempt P path) is_read
           (reads_only path) (script_attempt_spec P path)
           is_read_now is_read_sleep (fun _ => I) (fun _ => I));
    [apply retries_shape|apply delays_fit_nat; exact Hfit].
Qed.

Lemma execute_sql_command_returns P cfg cmd desc mr w :
  delays_fit P cfg (default_retries cfg mr) ->
  exists r new,
    execute_sql_command P cfg cmd desc mr w
      = (Ret r, new ++ EvNow (clock P w) :: w) /\
    run_facts cfg is_sql (submits_only cmd)
      (Z.to_nat (default_retries cfg mr)) 0
      (initial_outcome (command (display_command cmd)) desc (clock P w)) r new.
Proof.
  intros Hfit. rewrite execute_sql_command_unfold.
  apply (retry_loop_returns P cfg (command_attempt P cmd) is_sql
           (submits_only cmd) (command_attempt_spec P cmd)
           is_sql_now is_sql_sleep (fun _ => I) (fun _ => I));
    [apply retries_shape|apply delays_fit_nat; exact Hfit].
Qed.

(** The facts the claims need, for either executor: [run] is the body
    shared by [execute_sql_script] and [execute_sql_command] once the
    outcome record is created. *)
Section Executor.

Variable P : Platform.
Variable cfg : Config.
Variable body : ExecutionOutcome -> M ExecutionOutcome.
Variable mark : Event -> bool.
Variable Q : Event -> Prop.
Variable subj : Subject.
Variable desc : string.
Variable n : Z.
Variable w : World.

Hypothesis body_ok : attempt_spec body mark Q.
Hypothesis mark_now : forall t, mark (EvNow t) = false.
Hypothesis mark_sleep : forall s, mark (EvSleep s) = false.
Hypothesis Q_now : forall t, Q (EvNow t).
Hypothesis Q_sleep : forall s, Q (EvSleep s).

Local Abbreviation d := (RETRY_DELAY_SECONDS cfg).
Local Abbreviation t0 := (clock P w).
Local Abbreviation run :=
  (retry_loop P cfg body n (map Z.of_nat (seq 0 (Z.to_nat n)))
     (initial_outcome subj desc t0) (EvNow t0 :: w)).

Lemma count_stamp (new : list Event) (t : Z) :
  count mark (new ++ [EvNow t]) = count mark new.
Proof. rewrite count_app. unfold count at 2. simpl. rewrite mark_now. simpl. lia. Qed.

Lemma count_stamped_world (t : Z) : count mark (EvNow t :: w) = count mark w.
Proof. unfold count. simpl. now rewrite mark_now. Qed.


Lemma stamp_assoc (new : list Event) (t : Z) :
  (new ++ [EvNow t]) ++ w = new ++ EvNow t :: w.
Proof. now rewrite <- app_assoc. Qed.

Lemma executor_run :
  exists res new,
    run = (res, new ++ EvNow t0 :: w) /\
    run_ended P cfg mark Q (Z.to_nat n) 0 (initial_outcome subj desc t0) res new.
Proof. apply retry_loop_run; auto using retries_shape. Qed.


(** No attempt at all when [max_retries <= 0]. *)
Lemma executor_no_attempt :
  n <= 0 -> run = (Ret (initial_outcome subj desc t0), EvNow t0 :: w).
Proof.
  intros Hn. unfold run. replace (Z.to_nat n) with 0%nat by lia. reflexivity.
Qed.



(** The same unit of work, however the call ends. *)
Lemma executor_until_success (k : nat) :
  Z.of_nat k + 1 <= n ->
  (forall r h, (count mark h < count mark w + k)%nat -> fails_at body r h) ->
  (forall r h, count mark h = (count mark w + k)%nat -> succeeds_at body r h) ->
  exists res new,
    run = (res, new ++ w) /\
    (count mark new <= S k)%nat /\
    (count mark new = S k <-> exists r, res = Ret r) /\
    ((forall i, (i < k)%nat -> sleepable P (d * 2 ^ Z.of_nat i)) ->
     exists r, res = Ret r) /\
    (forall r, res = Ret r ->
       status r = "SUCCESS"%string /\
       attempt_count r = Z.of_nat k + 1 /\
       exists t rest, new = EvNow t :: rest /\ end_time r = Some t) /\
    (forall e, res = Raise e ->
       exists i, (i < k)%nat /\ count mark new = S i /\
                 sleep_refused P (d * 2 ^ Z.of_nat i) e).
Proof.
  intros Hk Hfail Hok.
  destruct (retry_loop_until_success P cfg body mark Q body_ok mark_sleep
              k (Z.to_nat n) 0 n (initial_outcome subj desc t0) (EvNow t0 :: w))
    as (res' & new' & Hrun' & Hres'); try lia.
  { intros r1 h Hh. apply Hfail. rewrite count_stamped_world in Hh. exact Hh. }
  { intros r1 h Hh. apply Hok. rewrite count_stamped_world in Hh. exact Hh. }
  destruct executor_run as (res & new & Hrun & Hend).
  fold run in Hrun'. rewrite Hrun in Hrun'. inversion Hrun' as [[Hr Hw]].
  apply app_inv_tail in Hw. subst res' new'.
  exists res, (new ++ [EvNow t0]). rewrite stamp_assoc, count_stamp.
  split; [exact Hrun|].
  destruct res as [r|e].
  - destruct Hres' as (Hst & Hc).
    split; [lia|]. split; [split; eauto|]. split; [eauto|].
    split; [|intros e He; discriminate].
    intros r' Hr'. inversion Hr'; subst r'.
    destruct Hend as (_ & _ & _ & _ & _ & _ & _ & Hpos).
    destruct Hpos as (Hac & _ & (t & rest & Hnew & Het & _) & _); [lia|].
    split; [exact Hst|]. split; [rewrite Hac, Hc; lia|].
    exists t, (rest ++ [EvNow t0]). split; [now rewrite Hnew|exact Het].
  - destruct Hres' as (i & Hi & Hc & Href).
    split; [lia|]. split.
    { split; [intros H; lia|intros (r & Hr); discriminate]. }
    split.
    { intros Hfit. exfalso. apply (refused_not_sleepable _ _ _ Href).
      apply Hfit. exact Hi. }
    split; [intros r Hr; discriminate|].
    intros e' He'. inversion He'; subst e'. exists i. auto.
Qed.

End Executor.

Lemma stopped_not_fit (P : Platform) (cfg : Config) (mark : Event -> bool)
    (Q : Event -> Prop) (n : Z) (e : string) (new : World) :
  run_stopped P cfg mark Q (Z.to_nat n) 0 e new ->
  delays_fit P cfg n -> False.
Proof.
  intros (Hone & Hlt & _ & _ & Href) Hfit.
  apply (refused_not_sleepable _ _ _ Href). apply Hfit. lia.
Qed.

(** ** Claims on the executor *)





(** C5.  Let the unit of work fail on the attempts of index [0..k-1] and
    succeed on the attempt of index [k], with [k + 1 <= max_retries].
    Then no attempt after the one of index [k] is performed, and the
    executor returns exactly when that attempt is made; it then returns
    right after it: status SUCCESS, [attempt_count = k + 1], and the most
    recent event of the trace is the stamp of [end_time].  That attempt is
    made when the sleeps that follow the earlier ones are accepted; the
    only other way the call can end is the exception of one of those
    sleeps, refused by [time.sleep]. *)
Theorem first_success_stops_retrying
    (P : Platform) (cfg : Config) (max_retries : option Z) (w : World)
    (k : nat) :
  Z.of_nat k + 1 <= default_retries cfg max_retries ->
  (forall script_path description,
     (forall r h, (count is_read h < count is_read w + k)%nat ->
                  fails_at (script_attempt P script_path) r h) ->
     (forall r h, count is_read h = (count is_read w + k)%nat ->
                  succeeds_at (script_attempt P script_path) r h) ->
     exists res new,
       execute_sql_script P cfg script_path description max_retries w
         = (res, new ++ w) /\
       (count is_read new <= S k)%nat /\
       (count is_read new = S k <-> exists r, res = Ret r) /\
       ((forall i, (i < k)%nat ->
                   sleepable P (RETRY_DELAY_SECONDS cfg * 2 ^ Z.of_nat i)) ->
        exists r, res = Ret r) /\
       (forall r, res = Ret r ->
          status r = "SUCCESS"%string /\
          attempt_count r = Z.of_nat k + 1 /\
          exists t rest, new = EvNow t :: rest /\ end_time r = Some t) /\
       (forall e, res = Raise e ->
          exists i, (i < k)%nat /\ count is_read new = S i /\
                    sleep_refused P
                      (RETRY_DELAY_SECONDS cfg * 2 ^ Z.of_nat i) e))
  /\
  (forall sql_command description,
     (forall r h, (count is_sql h < count is_sql w + k)%nat ->
                  fails_at (command_attempt P sql_command) r h) ->
     (forall r h, count is_sql h = (count is_sql w + k)%nat ->
                  succeeds_at (command_attempt P sql_command) r h) ->
     exists res new,
       execute_sql_command P cfg sql_command description max_retries w
         = (res, new ++ w) /\
       (count is_sql new <= S k)%nat /\
       (count is_sql new = S k <-> exists r, res = Ret r) /\
       ((forall i, (i < k)%nat ->
                   sleepable P (RETRY_DELAY_SECONDS cfg * 2 ^ Z.of_nat i)) ->
        exists r, res = Ret r) /\
       (forall r, res = Ret r ->
          status r = "SUCCESS"%string /\
          attempt_count r = Z.of_nat k + 1 /\
          exists t rest, new = EvNow t :: rest /\ end_time r = Some t) /\
       (forall e, res = Raise e ->
          exists i, (i < k)%nat /\ count is_sql new = S i /\
                    sleep_refused P
                      (RETRY_DELAY_SECONDS cfg * 2 ^ Z.of_nat i) e)).
Proof.
  intros Hk. split.
  - intros path desc Hfail Hok. rewrite execute_sql_script_unfold.
    apply (executor_until_success P cfg _ is_read (reads_only path));
      auto using script_attempt_spec, is_read_now, is_read_sleep.
    + intros; exact I.
    + intros; exact I.
  - intros cmd desc Hfail Hok. rewrite execute_sql_command_unfold.
    apply (executor_until_success P cfg _ is_sql (submits_only cmd));
      auto using command_attempt_spec, is_sql_now, is_sql_sleep.
    + intros; exact I.
    + intros; exact I.
Qed.

Lemma flaky_command_fails (k : nat) (cmd : string) r h :
  (count is_sql h < k)%nat ->
  fails_at (command_attempt (flaky_platform k) cmd) r h.
Proof.
  intros Hh. exists "Connection refused"%string.
  unfold command_attempt, bind, spark_sql. simpl.
  apply Nat.ltb_lt in Hh. now rewrite Hh.
Qed.

Lemma flaky_command_succeeds (k : nat) (cmd : string) r h :
  count is_sql h = k ->
  succeeds_at (command_attempt (flaky_platform k) cmd) r h.
Proof.
  intros Hh. unfold succeeds_at, command_attempt, bind, spark_sql. simpl.
  rewrite Hh, Nat.ltb_irrefl. simpl. eexists. reflexivity.
Qed.

Lemma late_script_fails (k : nat) (path : string) r h :
  (count is_read h < k)%nat ->
  fails_at (script_attempt (late_script_platform k) path) r h.
Proof.
  intros Hh. exists "No such file or directory"%string.
  unfold script_attempt, bind, read_file. simpl.
  apply Nat.ltb_lt in Hh. now rewrite Hh.
Qed.

Lemma late_script_succeeds (k : nat) (path : string) r h :
  count is_read h = k ->
  succeeds_at (script_attempt (late_script_platform k) path) r h.
Proof.
  intros Hh. unfold succeeds_at, script_attempt, bind, read_file. simpl.
  rewrite Hh, Nat.ltb_irrefl. simpl. eexists. reflexivity.
Qed.

Lemma first_sleeps_accepted (limit : Z) (k : nat) :
  (k <= 20)%nat -> 31457280 <= limit ->
  forall i, (i < k)%nat -> 0 <= 30 * 2 ^ Z.of_nat i <= limit.
Proof.
  intros Hk Hl i Hi.
  assert (0 < 2 ^ Z.of_nat i) by (apply Z.pow_pos_nonneg; lia).
  assert (2 ^ Z.of_nat i <= 2 ^ 20) by (apply Z.pow_le_mono_r; lia).
  change (2 ^ 20) with 1048576 in *. lia.
Qed.

Lemma first_success_stops_retrying_witness :
  (exists r new t rest,
     execute_sql_script (late_script_platform 1) fallback_config
       "../sql/02_core_tables.sql" "Create core Delta tables" None []
       = (Ret r, new ++ []) /\
     count is_read new = 2%nat /\
     status r = "SUCCESS"%string /\ attempt_count r = 2 /\
     new = EvNow t :: rest /\ end_time r = Some t)
  /\
  (exists r new t rest,
     execute_sql_command (flaky_platform 2) fallback_config
       "SELECT 1" "Probe" (Some 5) []
       = (Ret r, new ++ []) /\
     count is_sql new = 3%nat /\
     status r = "SUCCESS"%string /\ attempt_count r = 3 /\
     new = EvNow t :: rest /\ end_time r = Some t).
Proof.
  assert (H1 : Z.of_nat 1 + 1 <= default_retries fallback_config None)
    by (simpl; lia).
  assert (H2 : Z.of_nat 2 + 1 <= default_retries fallback_config (Some 5))
    by (simpl; lia).
  assert (F1 : forall i, (i < 1)%nat ->
                 sleepable (late_script_platform 1)
                   (RETRY_DELAY_SECONDS fallback_config * 2 ^ Z.of_nat i)).
  { apply (first_sleeps_accepted 9223372036 1); lia. }
  assert (F2 : forall i, (i < 2)%nat ->
                 sleepable (flaky_platform 2)
                   (RETRY_DELAY_SECONDS fallback_config * 2 ^ Z.of_nat i)).
  { apply (first_sleeps_accepted 9223372036 2); lia. }
  split.
  - destruct (proj1 (first_success_stops_retrying (late_script_platform 1)
                       fallback_config None [] 1 H1)
                "../sql/02_core_tables.sql"%string
                "Create core Delta tables"%string)
      as (res & new & E & _ & Hmade & Hret & Hfacts & _).
    + intros r h Hh. apply late_script_fails. exact Hh.
    + intros r h Hh. apply late_script_succeeds. exact Hh.
    + destruct (Hret F1) as (r & ->).
      destruct (Hfacts r eq_refl) as (Hst & Hac & t & rest & Hn & Het).
      exists r, new, t, rest. split; [exact E|].
      split; [apply Hmade; eauto|]. auto.
  - destruct (proj2 (first_success_stops_retrying (flaky_platform 2)
                       fallback_config (Some 5) [] 2 H2)
                "SELECT 1"%string "Probe"%string)
      as (res & new & E & _ & Hmade & Hret & Hfacts & _).
    + intros r h Hh. apply flaky_command_fails. exact Hh.
    + intros r h Hh. apply flaky_command_succeeds. exact Hh.
    + destruct (Hret F2) as (r & ->).
      destruct (Hfacts r eq_refl) as (Hst & Hac & t & rest & Hn & Het).
      exists r, new, t, rest. split; [exact E|].
      split; [apply Hmade; eauto|]. auto.
Defined.

(** C10.  With [max_retries <= 0] the loop body never runs: the only event
    is the clock read for [start_time], and the outcome that comes back is
    the record as it was created, status PENDING, [attempt_count = 0], no
    [end_time], no [error_message], [row_count = 0]. *)
Theorem no_retries_returns_pending
    (P : Platform) (cfg : Config) (max_retries : option Z) (w : World)
    (text description : string) :
  default_retries cfg max_retries <= 0 ->
  (exists r,
     execute_sql_script P cfg text description max_retries w
       = (Ret r, EvNow (clock P w) :: w) /\
     status r = "PENDING"%string /\ attempt_count r = 0 /\
     end_time r = None /\ error_message r = None /\ row_count r = 0)
  /\
  (exists r,
     execute_sql_command P cfg text description max_retries w
       = (Ret r, EvNow (clock P w) :: w) /\
     status r = "PENDING"%string /\ attempt_count r = 0 /\
     end_time r = None /\ error_message r = None /\ row_count r = 0).
Proof.
  intros Hn. split.
  - exists (initial_outcome (script text) description (clock P w)).
    rewrite execute_sql_script_unfold.
    split; [|repeat split]. now apply executor_no_attempt.
  - exists (initial_outcome (command (display_command text)) description
              (clock P w)).
    rewrite execute_sql_command_unfold.
    split; [|repeat split]. now apply executor_no_attempt.
Qed.

Lemma no_retries_returns_pending_witness :
  (exists r,
     execute_sql_script broken_platform fallback_config "SELECT 1" "Probe"
       (Some 0) [] = (Ret r, [EvNow 0]) /\
     status r = "PENDING"%string /\ attempt_count r = 0 /\
     end_time r = None /\ error_message r = None /\ row_count r = 0)
  /\
  (exists r,
     execute_sql_command broken_platform fallback_config "SELECT 1" "Probe"
       (Some 0) [] = (Ret r, [EvNow 0]) /\
     status r = "PENDING"%string /\ attempt_count r = 0 /\
     end_time r = None /\ error_message r = None /\ row_count r = 0).
Proof.
  assert (H0 : default_retries fallback_config (Some 0) <= 0) by (simpl; lia).
  exact (no_retries_returns_pending broken_platform fallback_config (Some 0)
           [] "SELECT 1"%string "Probe"%string H0).
Defined.




Lemma submitted_statements (cmd : string) (new : list Event) :
  Forall (submits_only cmd) new ->
  Forall (fun q => q = cmd) (sql_statements new).
Proof.
  induction new as [|ev new IH]; intros H; simpl; [constructor|].
  inversion H as [|? ? Hev Hnew]; subst.
  destruct ev; auto. apply Forall_app. split; auto.
Qed.

Lemma statements_counted (w : World) :
  List.length (sql_statements w) = count is_sql w.
Proof.
  unfold count. induction w as [|ev w IH]; simpl; auto.
  destruct ev; simpl; auto. rewrite length_app. simpl. lia.
Qed.

(** C9, as amended.  However the call ends, every statement it submits to
    the warehouse, one per attempt, is the full command; and the "command"
    field of the outcome it returns is the command itself when that has at
    most 100 characters, and otherwise its first 100 characters followed by
    the three-character marker "...".  The call returns an outcome whenever
    its backoff delays are delays [time.sleep] accepts. *)
Theorem command_is_shortened_for_display_only
    (P : Platform) (cfg : Config) (max_retries : option Z) (w : World)
    (sql_command description : string) :
  exists res new,
    execute_sql_command P cfg sql_command description max_retries w
      = (res, new ++ w) /\
    (forall r, res = Ret r ->
       subject r
       = command (if (100 <? String.length sql_command)%nat
                  then (substring 0 100 sql_command ++ "...")%string
                  else sql_command)) /\
    Forall (fun q => q = sql_command) (sql_statements new) /\
    List.length (sql_statements new) = count is_sql new /\
    (delays_fit P cfg (default_retries cfg max_retries) ->
     exists r, res = Ret r).
Proof.
  destruct (execute_sql_command_run P cfg sql_command description max_retries w)
    as (res & new & Hrun & Hend).
  exists res, (new ++ [EvNow (clock P w)]).
  rewrite <- app_assoc. split; [exact Hrun|].
  assert (HQ : Forall (submits_only sql_command) (new ++ [EvNow (clock P w)])).
  { apply Forall_app. split; [|repeat constructor].
    destruct res; [apply Hend|]. destruct Hend as (_ & _ & _ & HQ & _). exact HQ. }
  split; [|split; [|split]].
  - intros r Hr. subst res. destruct Hend as (_ & _ & _ & Hsu & _). exact Hsu.
  - apply submitted_statements. exact HQ.
  - apply statements_counted.
  - intros Hfit. destruct res as [r|e]; [eauto|].
    exfalso. eapply stopped_not_fit; eauto.
Qed.

(** C9 as stated fails: the displayed command of a long command is not its
    first 100 characters, it is three characters longer. *)
Lemma displayed_command_is_not_a_prefix :
  String.length long_command = 101%nat /\
  exists r w',
    execute_sql_command (flaky_platform 0) fallback_config long_command
      "Slow queries" (Some 1) [] = (Ret r, w') /\
    subject r <> command (substring 0 100 long_command) /\
    subject r = command (substring 0 100 long_command ++ "...")%string.
Proof.
  split; [reflexivity|].
  destruct (execute_sql_command (flaky_platform 0) fallback_config long_command
              "Slow queries" (Some 1) []) as [[r|e] w'] eqn:E;
    vm_compute in E; [|discriminate].
  inversion E; subst. eexists. eexists. split; [reflexivity|]. simpl.
  split; [discriminate|reflexivity].
Qed.

(** ** Computations that return, and what they leave on the trace *)

Lemma safe_emits Q {A} (m : M A) : safe Q m -> emits Q m.
Proof. intros H w. destruct (H w) as (a & new & E & HQ). eauto. Qed.

Lemma safe_ret Q {A} (a : A) : safe Q (ret a).
Proof. intros w. exists a, []. split; [reflexivity|constructor]. Qed.



Lemma emits_bind Q {A B} (m : M A) (k : A -> M B) :
  emits Q m -> (forall a, emits Q (k a)) -> emits Q (bind m k).
Proof.
  intros Hm Hk w. unfold bind.
  destruct (Hm w) as ([a|e] & new1 & E1 & HQ1); rewrite E1.
  - destruct (Hk a (new1 ++ w)) as (res & new2 & E2 & HQ2). rewrite E2.
    exists res, (new2 ++ new1). rewrite app_assoc.
    split; [reflexivity|]. apply Forall_app; auto.
  - exists (Raise e), new1. auto.
Qed.




Lemma emits_spark_sql Q P (q : string) :
  (forall r, Q (EvSql q r)) -> emits Q (spark_sql P q).
Proof.
  intros HQ w. exists (engine_sql P w q), [EvSql q (engine_sql P w q)].
  split; [reflexivity|]. repeat constructor. apply HQ.
Qed.

Lemma emits_collect Q P (f : Frame) :
  (forall r, Q (EvCollect r)) -> emits Q (collect P f).
Proof.
  intros HQ w. destruct f; simpl.
  - eexists. exists []. split; [reflexivity|constructor].
  - exists (engine_collect P w), [EvCollect (engine_collect P w)].
    split; [reflexivity|]. repeat constructor. apply HQ.
Qed.









(** ** The validator *)

Lemma probe_table_run P (table : string) (acc : list AccessOutcome) (w : World) :
  exists new,
    probe_table P table acc w = (Ret (acc ++ [probe_outcome P table w]), new ++ w) /\
    sql_statements new = [probe_sql table] /\
    Forall probe_event new /\
    probed P table w new (probe_outcome P table w).
Proof.
  unfold probe_table, try_except, bind, spark_sql, collect, probe_outcome, ret, raise.
  destruct (engine_sql P w (probe_sql table)) as [[|]|e] eqn:Es; simpl.
  - eexists [_]. split; [reflexivity|]. split; [reflexivity|].
    split; [repeat constructor|]. apply (probed_nothing P table w Es).
  - destruct (engine_collect P _) as [rows|e] eqn:Ec; simpl;
      eexists [_; _]; (split; [reflexivity|]); (split; [reflexivity|]);
      (split; [repeat constructor|]).
    + apply (probed_accessible P table w rows Es Ec).
    + apply (probed_uncollected P table w e Es Ec).
  - eexists [_]. split; [reflexivity|]. split; [reflexivity|].
    split; [repeat constructor|]. apply (probed_refused P table w e Es).
Qed.

Lemma probe_tables_run P (tables : list string) (acc : list AccessOutcome)
    (w : World) :
  exists outcomes new,
    probe_tables P tables acc w = (Ret (acc ++ outcomes), new ++ w) /\
    map access_table outcomes = tables /\
    sql_statements new = map probe_sql tables /\
    Forall probe_event new /\
    probes P w tables new outcomes.
Proof.
  revert acc w. induction tables as [|table rest IH]; intros acc w; simpl.
  - exists [], []. rewrite app_nil_r. repeat split; constructor.
  - unfold bind.
    destruct (probe_table_run P table acc w) as (new1 & E1 & Hs1 & HQ1 & Hp1).
    rewrite E1.
    destruct (IH (acc ++ [probe_outcome P table w]) (new1 ++ w))
      as (outs & new2 & E2 & Hm & Hs2 & HQ2 & Hp2).
    rewrite E2.
    exists (probe_outcome P table w :: outs), (new2 ++ new1).
    rewrite <- !app_assoc. simpl.
    assert (Ht : access_table (probe_outcome P table w) = table).
    { unfold probe_outcome.
      destruct (engine_sql P w _) as [[|]|]; auto.
      destruct (engine_collect P _); auto. }
    repeat split.
    + now rewrite Ht, Hm.
    + now rewrite sql_statements_app, Hs1, Hs2.
    + apply Forall_app; auto.
    + econstructor; eauto.
Qed.

Lemma check_system_table_access_unfold P cfg (tables : list string) (w : World) :
  required_tables cfg = Ret tables ->
  check_system_table_access P cfg w = probe_tables P tables [] w.
Proof.
  intros H. unfold check_system_table_access, bind, lift. now rewrite H.
Qed.

Lemma check_system_table_access_raises P cfg (e : string) (w : World) :
  required_tables cfg = Raise e ->
  check_system_table_access P cfg w = (Raise e, w).
Proof.
  intros H. unfold check_system_table_access, bind, lift. now rewrite H.
Qed.

(** C8.  Given the list of required tables, [check_system_table_access]
    returns one outcome per table, in the order of the list.  It probes
    every table, whatever the earlier probes answered, and the outcome of a
    table is decided by the answers of the warehouse to the probe of that
    table alone: accessible when the statement was accepted and its rows
    collected, and otherwise FAILED and not accessible with the message of
    the exception. *)
Theorem table_checks_are_independent
    (P : Platform) (cfg : Config) (w : World) (tables : list string) :
  required_tables cfg = Ret tables ->
  exists outcomes new,
    check_system_table_access P cfg w = (Ret outcomes, new ++ w) /\
    map access_table outcomes = tables /\
    probes P w tables new outcomes.
Proof.
  intros Ht. rewrite (check_system_table_access_unfold P cfg tables w Ht).
  destruct (probe_tables_run P tables [] w)
    as (outs & new & E & Hm & _ & _ & Hp).
  exists outs, new. auto.
Qed.

Lemma table_checks_are_independent_witness :
  exists new,
    check_system_table_access (locked_table_platform "system.billing.usage")
      fallback_config []
    = (Ret [ mkAccess "system.query.history" "SUCCESS" true None;
             mkAccess "system.billing.usage" "FAILED" false
               (Some "PERMISSION_DENIED"%string);
             mkAccess "system.billing.list_prices" "SUCCESS" true None;
             mkAccess "system.compute.clusters" "SUCCESS" true None;
             mkAccess "system.compute.warehouses" "SUCCESS" true None ],
       new ++ []) /\
    probes (locked_table_platform "system.billing.usage") []
      default_required_tables new
      [ mkAccess "system.query.history" "SUCCESS" true None;
        mkAccess "system.billing.usage" "FAILED" false
          (Some "PERMISSION_DENIED"%string);
        mkAccess "system.billing.list_prices" "SUCCESS" true None;
        mkAccess "system.compute.clusters" "SUCCESS" true None;
        mkAccess "system.compute.warehouses" "SUCCESS" true None ].
Proof.
  assert (Ht : required_tables fallback_config = Ret default_required_tables)
    by reflexivity.
  destruct (table_checks_are_independent
              (locked_table_platform "system.billing.usage") fallback_config []
              default_required_tables Ht) as (outs & new & E & _ & Hp).
  assert (Ho : outs
               = [ mkAccess "system.query.history" "SUCCESS" true None;
                   mkAccess "system.billing.usage" "FAILED" false
                     (Some "PERMISSION_DENIED"%string);
                   mkAccess "system.billing.list_prices" "SUCCESS" true None;
                   mkAccess "system.compute.clusters" "SUCCESS" true None;
                   mkAccess "system.compute.warehouses" "SUCCESS" true None ]).
  { assert (H : fst (check_system_table_access
                       (locked_table_platform "system.billing.usage")
                       fallback_config []) = Ret outs) by now rewrite E.
    vm_compute in H. inversion H. reflexivity. }
  subst outs. exists new. split; [exact E|exact Hp].
Defined.

(** ** What cannot raise *)










(** ** The pre-flight gate *)

Lemma returns_only_ret {A} (v : A) : returns_only v (ret v).
Proof. intros w a w' E. inversion E. reflexivity. Qed.

Lemma returns_only_bind {A B} (v : B) (m : M A) (k : A -> M B) :
  (forall a, returns_only v (k a)) -> returns_only v (bind m k).
Proof.
  intros Hk w b w' E. unfold bind in E.
  destruct (m w) as [[a|e] w1]; [|discriminate]. eapply Hk; eauto.
Qed.

Lemma try_block (Q : Event -> Prop) (body : M (list string))
    (errs : list string) (f : string -> string) (w : World) :
  emits Q body -> returns_only errs body ->
  exists errs' new,
    try_except body (fun e => ret (errs ++ [f e])) w = (Ret errs', new ++ w) /\
    Forall Q new /\
    (errs' = errs \/ exists e, errs' = errs ++ [f e]).
Proof.
  intros Hb Hr. unfold try_except.
  destruct (Hb w) as ([a|e] & new & E & HQ); rewrite E.
  - exists a, new. repeat split; auto. left. eapply Hr; eauto.
  - exists (errs ++ [f e]), new. repeat split; auto. right. eauto.
Qed.

Lemma statement_of_event (q : string) (r : Result Frame) (w : World) :
  In (EvSql q r) w -> In q (sql_statements w).
Proof.
  induction w as [|ev w IH]; simpl; [tauto|].
  intros [->|H].
  - apply in_or_app. right. left. reflexivity.
  - destruct ev; auto. apply in_or_app. left. auto.
Qed.

Lemma validate_prerequisites_run (P : Platform) (cfg : Config)
    (tables : list string) (w : World) :
  required_tables cfg = Ret tables ->
  exists errors new outcomes probing rest,
    validate_prerequisites P cfg w
      = (Ret ((List.length errors =? 0)%nat, errors), new ++ w) /\
    Forall (validation_event cfg tables) new /\
    new = rest ++ probing /\
    probes P w tables probing outcomes /\
    (forall o, In o outcomes -> accessible o = false ->
               In (cannot_access o) errors).
Proof.
  intros Ht.
  unfold validate_prerequisites. unfold bind at 1.
  rewrite (check_system_table_access_unfold P cfg tables w Ht).
  destruct (probe_tables_run P tables [] w)
    as (outs & new1 & E1 & _ & Hs1 & HQ1 & Hp1).
  simpl app in E1. rewrite E1. cbv zeta.
  set (errs1 := [] ++ map (cannot_access) (filter _ outs)).
  assert (HV1 : Forall (validation_event cfg tables) new1).
  { apply Forall_forall. intros ev Hev.
    pose proof (proj1 (Forall_forall _ _) HQ1 ev Hev) as Hp.
    destruct ev; simpl in Hp; try contradiction; simpl; auto.
    apply statement_of_event in Hev. rewrite Hs1 in Hev.
    unfold validation_queries. apply in_or_app. left. exact Hev. }
  unfold bind at 1.
  destruct (try_block (validation_event cfg tables)
              (_ <- spark_sql P ("USE CATALOG " ++ CATALOG cfg) ;;
               shown_schemas <- spark_sql P
                                  ("SHOW SCHEMAS LIKE '" ++ SCHEMA cfg ++ "'") ;;
               _ <- collect P shown_schemas ;; ret errs1)
              errs1 (schema_not_accessible cfg) (new1 ++ w))
    as (errs2 & new2 & E2 & HQ2 & Hshape2).
  { apply emits_bind; [|intros; apply emits_bind; [|intros; apply emits_bind]].
    - apply emits_spark_sql. intros r. simpl. unfold validation_queries.
      apply in_or_app. right. simpl. auto.
    - apply emits_spark_sql. intros r. simpl. unfold validation_queries.
      apply in_or_app. right. simpl. auto.
    - apply emits_collect. intros; exact I.
    - intros; apply safe_emits, safe_ret. }
  { repeat (apply returns_only_bind; intros). apply returns_only_ret. }
  rewrite E2.
  set (errs3 := errs2 ++ map missing_section _).
  unfold bind at 1.
  destruct (try_block (validation_event cfg tables)
              (one <- spark_sql P "SELECT 1" ;;
               _ <- collect P one ;; ret errs3)
              errs3 cluster_issue (new2 ++ new1 ++ w))
    as (errs4 & new3 & E3 & HQ3 & Hshape3).
  { apply emits_bind; [|intros; apply emits_bind].
    - apply emits_spark_sql. intros r. simpl. unfold validation_queries.
      apply in_or_app. right. simpl. auto.
    - apply emits_collect. intros; exact I.
    - intros; apply safe_emits, safe_ret. }
  { repeat (apply returns_only_bind; intros). apply returns_only_ret. }
  rewrite E3. unfold ret.
  exists errs4, (new3 ++ new2 ++ new1), outs, new1, (new3 ++ new2).
  rewrite <- !app_assoc.
  split; [reflexivity|]. split; [|split; [reflexivity|split; [exact Hp1|]]].
  - repeat (apply Forall_app; split); auto.
  - intros o Ho Hacc.
    assert (H1 : In (cannot_access o) errs1).
    { unfold errs1. simpl. apply in_map. apply filter_In. split; auto.
      now rewrite Hacc. }
    assert (H2 : In (cannot_access o) errs2).
    { destruct Hshape2 as [->|(e & ->)]; auto. apply in_or_app. auto. }
    assert (H3 : In (cannot_access o) errs3).
    { unfold errs3. apply in_or_app. auto. }
    destruct Hshape3 as [->|(e & ->)]; auto. apply in_or_app. auto.
Qed.

Lemma validate_prerequisites_raises (P : Platform) (cfg : Config) (e : string)
    (w : World) :
  required_tables cfg = Raise e ->
  validate_prerequisites P cfg w = (Raise e, w).
Proof.
  intros H. unfold validate_prerequisites. unfold bind at 1.
  now rewrite (check_system_table_access_raises P cfg e w H).
Qed.

Lemma validation_reads_no_script (cfg : Config) (tables : list string)
    (new : list Event) :
  Forall (validation_event cfg tables) new ->
  read_paths new = [] /\ sleeps new = [] /\
  Forall (fun q => In q (validation_queries cfg tables)) (sql_statements new).
Proof.
  induction new as [|ev new IH]; intros H; simpl;
    [split; [|split]; constructor|].
  inversion H as [|? ? Hev Hnew]; subst.
  destruct (IH Hnew) as (Hr & Hz & Hs).
  destruct ev; simpl in Hev; try contradiction; auto.
  split; auto. split; auto. apply Forall_app. split; auto.
Qed.

Lemma prerequisites_gate_run (P : Platform) (cfg : Config) (w : World)
    (errors : list string) (new : list Event) :
  validate_prerequisites P cfg w
    = (Ret ((List.length errors =? 0)%nat, errors), new ++ w) ->
  prerequisites_gate P cfg w =
  match errors with
  | [] => (Ret tt, new ++ w)
  | _ :: _ =>
      (Raise ("Prerequisites validation failed: "
                ++ String.concat "; " errors)%string,
       EvNotify "ERROR"
         ("Prerequisites validation failed: " ++ String.concat "; " errors)%string
       :: EvNow (clock P (new ++ w)) :: new ++ w)
  end.
Proof.
  intros E. unfold prerequisites_gate, bind. rewrite E.
  destruct errors; reflexivity.
Qed.


(** ** When the run returns *)

Lemma datetime_sub_fits (t delta : Z) :
  0 <= t - delta <= datetime_max -> datetime_sub t delta = Ret (t - delta).
Proof.
  intros H. unfold datetime_sub.
  destruct (Z.ltb_spec (t - delta) 0); [lia|].
  destruct (Z.ltb_spec datetime_max (t - delta)); [lia|]. reflexivity.
Qed.







(** Lines 46-68: whatever goes wrong while the file is read, the fallback
    dictionary is the configuration. *)
Lemma load_config_run (P : Platform) (w : World) :
  exists loaded,
    load_config P w
    = (Ret loaded,
       EvRead "../config.yaml" (file_read P w "../config.yaml") :: w).
Proof.
  unfold load_config, try_except, bind, read_file, lift, ret.
  destruct (file_read P w "../config.yaml") as [text|e]; simpl.
  - destruct (yaml_safe_load P text); eauto.
  - eauto.
Qed.


(** The notebook once lines 46-78 gave the configuration. *)
Lemma notebook_configured (P : Platform) (w w0 : World)
    (loaded : option RawConfig) (cfg : Config) :
  load_config P w = (Ret loaded, w0) ->
  read_constants loaded = Ret cfg ->
  notebook P w
  = bind (prerequisites_gate P cfg)
      (fun _ =>
         bind (pipeline_summary <- execute_pipeline P cfg ;;
               validation_results <- validate_pipeline_results P cfg ;;
               generate_summary_report P cfg pipeline_summary
                 validation_results)
           (fun summary_report =>
              display_metrics P ;;;
              optimization_results <- perform_table_optimization P cfg ;;
              _ <- now P ;;
              _ <- now P ;;
              _ <- lift (config_version cfg) ;;
              ret (summary_report, optimization_results))) w0.
Proof.
  intros Hload Hcfg. unfold notebook. unfold bind at 1. rewrite Hload.
  unfold bind at 1. unfold lift at 1. rewrite Hcfg.
  unfold orchestration, bind.
  destruct (prerequisites_gate P cfg w0) as [[u|e] w1]; [|reflexivity].
  destruct (execute_pipeline P cfg w1) as [[s|e] w2]; [|reflexivity].
  destruct (validate_pipeline_results P cfg w2) as [[v|e] w3]; [|reflexivity].
  reflexivity.
Qed.

(** Lines 74-78 raise: the notebook ends there. *)
Lemma notebook_unconfigured (P : Platform) (w w0 : World)
    (loaded : option RawConfig) (e : string) :
  load_config P w = (Ret loaded, w0) ->
  read_constants loaded = Raise e ->
  notebook P w = (Raise e, w0).
Proof.
  intros Hload Hcfg. unfold notebook. unfold bind at 1. rewrite Hload.
  unfold bind at 1. unfold lift at 1. now rewrite Hcfg.
Qed.

(** The notebook stops at the gate when validation found an error. *)
Lemma notebook_stops_at_the_gate (P : Platform) (w w0 : World)
    (loaded : option RawConfig) (cfg : Config)
    (errors : list string) (new : list Event) :
  load_config P w = (Ret loaded, w0) ->
  read_constants loaded = Ret cfg ->
  validate_prerequisites P cfg w0
    = (Ret ((List.length errors =? 0)%nat, errors), new ++ w0) ->
  errors <> [] ->
  notebook P w
  = (Raise ("Prerequisites validation failed: "
              ++ String.concat "; " errors)%string,
     EvNotify "ERROR"
       ("Prerequisites validation failed: "
          ++ String.concat "; " errors)%string
     :: EvNow (clock P (new ++ w0)) :: new ++ w0).
Proof.
  intros Hload Hcfg Ev Hne.
  rewrite (notebook_configured P w w0 loaded cfg Hload Hcfg).
  unfold bind at 1. rewrite (prerequisites_gate_run P cfg w0 errors new Ev).
  destruct errors; [congruence|reflexivity].
Qed.




(** ** The pipeline driver *)

Lemma execute_pipeline_unfold P cfg w :
  execute_pipeline P cfg w =
  match run_steps P cfg (clock P w) pipeline_steps [] (pipeline_started P w) with
  | (Ret (inl aborted), w') => (Ret aborted, w')
  | (Ret (inr rs), w') => complete_pipeline P cfg (clock P w) rs w'
  | (Raise e, w') => (Raise e, w')
  end.
Proof.
  unfold execute_pipeline, bind, now, send_notification, pipeline_started, bind, now.
  destruct (run_steps P cfg (clock P w) pipeline_steps [] _) as [[[s|rs]|e] w'];
    reflexivity.
Qed.

Lemma run_steps_cons P cfg start step rest acc w :
  run_steps P cfg start (step :: rest) acc w =
  match execute_sql_script P cfg (step_script step) (step_description step)
          None w with
  | (Ret result, w1) =>
      if step_required step && (status result =? "FAILED")%string then
        (Ret (inl (mkSummary (Some "FAILED"%string) start
                     (clock P (EvNotify "ERROR" (required_step_failed step)
                               :: EvNow (clock P w1) :: w1))
                     (Some (clock P
                              (EvNow (clock P
                                        (EvNotify "ERROR" (required_step_failed step)
                                         :: EvNow (clock P w1) :: w1))
                               :: EvNotify "ERROR" (required_step_failed step)
                               :: EvNow (clock P w1) :: w1) - start))
                     (Some (Z.of_nat (List.length (acc ++ [result]))))
                     None
                     (Some (Z.of_nat (List.length pipeline_steps)))
                     (acc ++ [result])
                     (Some (required_step_failed step)))),
         EvNow (clock P
                  (EvNow (clock P
                            (EvNotify "ERROR" (required_step_failed step)
                             :: EvNow (clock P w1) :: w1))
                   :: EvNotify "ERROR" (required_step_failed step)
                   :: EvNow (clock P w1) :: w1))
         :: EvNow (clock P (EvNotify "ERROR" (required_step_failed step)
                            :: EvNow (clock P w1) :: w1))
         :: EvNotify "ERROR" (required_step_failed step)
         :: EvNow (clock P w1) :: w1)
      else run_steps P cfg start rest (acc ++ [result]) w1
  | (Raise e, w1) => (Raise e, w1)
  end.
Proof.
  simpl run_steps. unfold bind at 1.
  destruct (execute_sql_script P cfg (step_script step) (step_description step)
              None w) as [[result|e] w1]; [|reflexivity].
  destruct (step_required step && (status result =? "FAILED")%string);
    reflexivity.
Qed.

Lemma retry_budget (cfg : Config) (r0 r : ExecutionOutcome) (new : World)
    (mark : Event -> bool) (Q : Event -> Prop) :
  status r0 = "PENDING"%string ->
  run_facts cfg mark Q (Z.to_nat (MAX_RETRY_ATTEMPTS cfg)) 0 r0 r new ->
  outcome_status_ok cfg r.
Proof.
  intros H0 (_ & _ & _ & _ & _ & _ & Hzero & Hpos).
  destruct (Z_le_gt_dec (MAX_RETRY_ATTEMPTS cfg) 0) as [Hle|Hgt].
  - left. split; [exact Hle|]. destruct Hzero as [-> _]; [lia|exact H0].
  - right. split; [lia|].
    destruct Hpos as (_ & _ & _ & [H|(H & _)]); [lia| |]; auto.
Qed.

Lemma stopped_refusal (P : Platform) (cfg : Config) (mark : Event -> bool)
    (Q : Event -> Prop) (m j : nat) (e : string) (new : World) :
  run_stopped P cfg mark Q m j e new -> exists s, sleep_refused P s e.
Proof. intros (_ & _ & _ & _ & H). eauto. Qed.

(** A call of the script executor under the configured budget: the
    outcome it returns, or the refusal of a sleep. *)
Lemma script_outcome (P : Platform) (cfg : Config) (path desc : string)
    (w : World) :
  exists res new,
    execute_sql_script P cfg path desc None w = (res, new ++ w) /\
    (delays_fit P cfg (MAX_RETRY_ATTEMPTS cfg) -> exists r, res = Ret r) /\
    match res with
    | Ret r =>
        subject r = script path /\ description r = desc /\
        outcome_status_ok cfg r
    | Raise e => exists s, sleep_refused P s e
    end.
Proof.
  destruct (execute_sql_script_run P cfg path desc None w)
    as (res & new & E & Hend).
  exists res, (new ++ [EvNow (clock P w)]). rewrite <- app_assoc.
  split; [exact E|]. destruct res as [r|e]; simpl in Hend.
  - split; [eauto|].
    pose proof Hend as (_ & _ & _ & Hsu & Hde & _).
    split; [exact Hsu|]. split; [exact Hde|].
    eapply retry_budget; [|exact Hend]. reflexivity.
  - split; [|eapply stopped_refusal; exact Hend].
    intros Hfit. exfalso. eapply stopped_not_fit; eauto.
Qed.

Lemma command_outcome (P : Platform) (cfg : Config) (cmd desc : string)
    (w : World) :
  exists res new,
    execute_sql_command P cfg cmd desc None w = (res, new ++ w) /\
    (delays_fit P cfg (MAX_RETRY_ATTEMPTS cfg) -> exists r, res = Ret r) /\
    match res with
    | Ret r =>
        subject r = command (display_command cmd) /\ description r = desc /\
        outcome_status_ok cfg r
    | Raise e => exists s, sleep_refused P s e
    end.
Proof.
  destruct (execute_sql_command_run P cfg cmd desc None w)
    as (res & new & E & Hend).
  exists res, (new ++ [EvNow (clock P w)]). rewrite <- app_assoc.
  split; [exact E|]. destruct res as [r|e]; simpl in Hend.
  - split; [eauto|].
    pose proof Hend as (_ & _ & _ & Hsu & Hde & _).
    split; [exact Hsu|]. split; [exact Hde|].
    eapply retry_budget; [|exact Hend]. reflexivity.
  - split; [|eapply stopped_refusal; exact Hend].
    intros Hfit. exfalso. eapply stopped_not_fit; eauto.
Qed.

(** The step loop in detail: the outcomes follow the step list; an abort
    happens at the first required step that FAILED, and leaves the ERROR
    notification and two clock reads on the trace; the loop raises only
    when the executor does, for a sleep that was refused. *)
Lemma run_steps_detail P cfg start steps acc w :
  exists res w',
    run_steps P cfg start steps acc w = (res, w') /\
    (delays_fit P cfg (MAX_RETRY_ATTEMPTS cfg) -> exists v, res = Ret v) /\
    match res with
    | Ret (inr rs) =>
        exists outs,
          rs = acc ++ outs /\
          Forall2 (step_outcome cfg) steps outs /\
          Forall2 step_passed steps outs
    | Ret (inl s) =>
        exists outs r passed step rest t2 t3 w1,
          steps = passed ++ step :: rest /\
          Forall2 (step_outcome cfg) passed outs /\
          Forall2 step_passed passed outs /\
          step_outcome cfg step r /\
          step_required step = true /\ status r = "FAILED"%string /\
          s = mkSummary (Some "FAILED"%string) start t2 (Some (t3 - start))
                (Some (Z.of_nat (List.length (acc ++ outs ++ [r])))) None
                (Some (Z.of_nat (List.length pipeline_steps)))
                (acc ++ outs ++ [r]) (Some (required_step_failed step)) /\
          w' = EvNow t3 :: EvNow t2
               :: EvNotify "ERROR" (required_step_failed step) :: w1 /\
          exists t1 w0 wr,
            w1 = EvNow t1 :: wr /\
            execute_sql_script P cfg (step_script step) (step_description step)
              None w0 = (Ret r, wr)
    | Raise e =>
        exists outs passed step rest w0,
          steps = passed ++ step :: rest /\
          Forall2 (step_outcome cfg) passed outs /\
          Forall2 step_passed passed outs /\
          execute_sql_script P cfg (step_script step) (step_description step)
            None w0 = (Raise e, w') /\
          exists s, sleep_refused P s e
    end.
Proof.
  revert acc w. induction steps as [|step rest IH]; intros acc w.
  - exists (Ret (inr acc)), w. split; [reflexivity|]. split; [eauto|].
    exists []. rewrite app_nil_r. repeat split; constructor.
  - rewrite run_steps_cons.
    destruct (script_outcome P cfg (step_script step) (step_description step) w)
      as ([r|e] & new & E & Hret & Hres).
    2:{ rewrite E. eexists. eexists. split; [reflexivity|]. split.
        - intros Hfit. destruct (Hret Hfit) as (r & Hr). discriminate.
        - exists [], [], step, rest, w. repeat split; auto; constructor. }
    destruct Hres as (Hsu & Hde & Hok).
    rewrite E.
    assert (Hout : step_outcome cfg step r) by (repeat split; assumption).
    destruct (step_required step && (status r =? "FAILED")%string) eqn:Hab.
    + apply andb_prop in Hab. destruct Hab as (Hreq & Hst).
      apply String.eqb_eq in Hst.
      eexists. eexists. split; [reflexivity|]. split; [eauto|].
      exists [], r, [], step, rest. eexists _, _, _.
      repeat split; auto.
      eexists _, w, _. split; [reflexivity|exact E].
    + destruct (IH (acc ++ [r]) (new ++ w)) as (res & w' & E' & Hret' & Hres).
      exists res, w'. split; [exact E'|]. split; [exact Hret'|].
      assert (Hpass : step_passed step r).
      { intros Hreq Hst. rewrite Hreq in Hab. simpl in Hab.
        apply String.eqb_neq in Hab. contradiction. }
      destruct res as [[s|rs]|e].
      * destruct Hres as (outs & r' & passed & step' & rest' & t2 & t3 & w1 &
                          Hsteps & Ho & Hp & Ho' & Hreq & Hst & Hs & Hw & Hex).
        exists (r :: outs), r', (step :: passed), step', rest', t2, t3, w1.
        rewrite Hsteps, Hs, <- !app_assoc.
        split; [reflexivity|]. split; [constructor; assumption|].
        split; [constructor; assumption|]. split; [exact Ho'|].
        split; [exact Hreq|]. split; [exact Hst|]. split; [reflexivity|].
        split; [exact Hw|exact Hex].
      * destruct Hres as (outs & -> & Ho & Hp).
        exists (r :: outs). rewrite <- app_assoc. repeat split; auto.
      * destruct Hres as (outs & passed & step' & rest' & w0 &
                          Hsteps & Ho & Hp & Hx & Href).
        exists (r :: outs), (step :: passed), step', rest', w0.
        rewrite Hsteps. repeat split; auto.
Qed.

(** Lines 469-508 in detail: the summary of a run that went through, or
    the exception of line 474 or of a refused sleep. *)
Lemma complete_pipeline_detail P cfg start rs w :
  exists res w',
    complete_pipeline P cfg start rs w = (res, w') /\
    (delays_fit P cfg (MAX_RETRY_ATTEMPTS cfg) -> window_fits P cfg ->
     exists s, res = Ret s) /\
    match res with
    | Ret s =>
        exists etl t w'',
          s = mkSummary (Some (aggregate_status (rs ++ [etl]))) start t
                (Some (t - start))
                (Some (count_status "SUCCESS" (rs ++ [etl])))
                (Some (count_status "FAILED" (rs ++ [etl])))
                (Some (Z.of_nat (List.length (rs ++ [etl]))))
                (rs ++ [etl]) None /\
          w' = EvNow t :: w'' /\
          description etl = etl_description /\
          (exists text, subject etl = command text) /\
          outcome_status_ok cfg etl
    | Raise e =>
        timedelta_hours (INCREMENTAL_WINDOW_HOURS cfg) = Raise e \/
        (exists window,
           timedelta_hours (INCREMENTAL_WINDOW_HOURS cfg) = Ret window /\
           datetime_sub (clock P w) window = Raise e) \/
        (exists s, sleep_refused P s e)
    end.
Proof.
  unfold complete_pipeline. unfold bind at 1. unfold now at 1. cbv zeta.
  unfold bind at 1. unfold lift at 1.
  destruct (timedelta_hours (INCREMENTAL_WINDOW_HOURS cfg)) as [window|e] eqn:Hw.
  2:{ eexists. eexists. split; [reflexivity|]. split; [|left; reflexivity].
      intros _ (window & Hw' & _). congruence. }
  unfold bind at 1. unfold lift at 1.
  destruct (datetime_sub (clock P w) window) as [start_time|e] eqn:Hs.
  2:{ eexists. eexists. split; [reflexivity|]. split;
        [|right; left; eauto].
      intros _ (window' & Hw' & Hc).
      assert (window' = window) by congruence. subst window'.
      rewrite (datetime_sub_fits _ _ (Hc w)) in Hs. discriminate. }
  unfold bind at 1.
  destruct (command_outcome P cfg
              (etl_command P start_time (clock P w))
              "Process incremental query performance data"
              (EvNow (clock P w) :: w)) as ([etl|e] & new & E & Hret & Hres);
    rewrite E.
  - destruct Hres as (Hsu & Hde & Hok).
    unfold bind, now, ret.
    eexists. eexists. split; [reflexivity|]. split; [eauto|].
    exists etl. eexists. eexists. split; [reflexivity|].
    split; [reflexivity|].
    split; [exact Hde|]. split; [eexists; exact Hsu|exact Hok].
  - eexists. eexists. split; [reflexivity|]. split; [|right; right; exact Hres].
    intros Hfit _. destruct (Hret Hfit) as (r & Hr). discriminate.
Qed.

Lemma Forall2_nth_error {A B} (R : A -> B -> Prop) (l1 : list A) (l2 : list B) :
  Forall2 R l1 l2 ->
  forall i a b, nth_error l1 i = Some a -> nth_error l2 i = Some b -> R a b.
Proof.
  induction 1 as [|x y l1 l2 Hxy _ IH]; intros [|i] a b Ha Hb; simpl in *;
    try discriminate.
  - inversion Ha; inversion Hb; subst. exact Hxy.
  - eapply IH; eauto.
Qed.

Lemma completed_failures_optional (steps : list PipelineStep)
    (outs : list ExecutionOutcome) (etl : ExecutionOutcome) :
  Forall2 step_passed steps outs ->
  all_failures_optional steps (outs ++ [etl]).
Proof.
  intros Hp i step r Hs Hr Hst.
  assert (Hi : (i < List.length outs)%nat).
  { rewrite <- (Forall2_length Hp). apply nth_error_Some. congruence. }
  rewrite nth_error_app1 in Hr by exact Hi.
  pose proof (Forall2_nth_error _ _ _ Hp i step r Hs Hr) as Hpass.
  unfold step_passed in Hpass.
  destruct (step_required step); auto. exfalso. now apply Hpass.
Qed.

Lemma aborted_failure_required (passed rest : list PipelineStep)
    (step : PipelineStep) (outs : list ExecutionOutcome) (r : ExecutionOutcome) :
  Forall2 step_passed passed outs ->
  step_required step = true -> status r = "FAILED"%string ->
  ~ all_failures_optional (passed ++ step :: rest) (outs ++ [r]).
Proof.
  intros Hp Hreq Hst Hopt.
  specialize (Hopt (List.length passed) step r).
  rewrite nth_error_app2, Nat.sub_diag in Hopt by lia.
  rewrite (Forall2_length Hp), nth_error_app2, Nat.sub_diag in Hopt by lia.
  simpl in Hopt. specialize (Hopt eq_refl eq_refl Hst). congruence.
Qed.

Lemma count_status_nonneg (s : string) (rs : list ExecutionOutcome) :
  0 <= count_status s rs.
Proof. unfold count_status. lia. Qed.

Lemma count_status_none (st : string) (rs : list ExecutionOutcome) :
  count_status st rs = 0 <-> Forall (fun r => status r <> st) rs.
Proof.
  unfold count_status. induction rs as [|r rs IH]; simpl.
  - split; [constructor|reflexivity].
  - destruct (String.eqb_spec (status r) st) as [Heq|Hne]; simpl.
    + split; [lia|]. intros H. inversion H; subst. contradiction.
    + rewrite IH. split; [intros; constructor; auto|].
      intros H. inversion H; auto.
Qed.

Lemma count_status_some (st : string) (rs : list ExecutionOutcome) :
  0 < count_status st rs <-> Exists (fun r => status r = st) rs.
Proof.
  pose proof (count_status_nonneg st rs) as H0.
  pose proof (count_status_none st rs) as Hn.
  split.
  - intros Hpos.
    destruct (Exists_dec (fun r => status r = st) rs
                (fun r => string_dec (status r) st)) as [He|Hne]; [exact He|].
    exfalso. assert (Hall : Forall (fun r => status r <> st) rs).
    { apply Forall_forall. intros r Hin Heq. apply Hne.
      apply Exists_exists. eauto. }
    apply Hn in Hall. lia.
  - intros He. destruct (Z.eq_dec (count_status st rs) 0) as [Hz|Hz]; [|lia].
    apply Hn in Hz. apply Exists_exists in He. destruct He as (r & Hin & Heq).
    exact (False_ind _ (proj1 (Forall_forall _ _) Hz r Hin Heq)).
Qed.

(** Line 497, on any list of outcomes. *)
Lemma aggregate_status_cases (rs : list ExecutionOutcome) :
  (Forall (fun r => status r <> "FAILED"%string) rs ->
     aggregate_status rs = "SUCCESS"%string) /\
  (Exists (fun r => status r = "FAILED"%string) rs ->
   Exists (fun r => status r = "SUCCESS"%string) rs ->
     aggregate_status rs = "PARTIAL_SUCCESS"%string) /\
  (Exists (fun r => status r = "FAILED"%string) rs ->
   Forall (fun r => status r <> "SUCCESS"%string) rs ->
     aggregate_status rs = "FAILED"%string).
Proof.
  unfold aggregate_status.
  split; [|split].
  - intros H. apply count_status_none in H. now rewrite H.
  - intros Hf Hs. apply count_status_some in Hf, Hs.
    destruct (Z.eqb_spec (count_status "FAILED" rs) 0); [lia|].
    destruct (Z.ltb_spec 0 (count_status "SUCCESS" rs)); [reflexivity|lia].
  - intros Hf Hs. apply count_status_some in Hf. apply count_status_none in Hs.
    destruct (Z.eqb_spec (count_status "FAILED" rs) 0); [lia|].
    now rewrite Hs.
Qed.

Lemma aggregate_status_partial (rs : list ExecutionOutcome) :
  aggregate_status rs = "PARTIAL_SUCCESS"%string <->
  Exists (fun r => status r = "FAILED"%string) rs /\
  Exists (fun r => status r = "SUCCESS"%string) rs.
Proof.
  rewrite <- !count_status_some. unfold aggregate_status.
  pose proof (count_status_nonneg "SUCCESS" rs).
  pose proof (count_status_nonneg "FAILED" rs).
  destruct (Z.eqb_spec (count_status "FAILED" rs) 0);
    [|destruct (Z.ltb_spec 0 (count_status "SUCCESS" rs))];
    (split; [try discriminate; intros; lia|intros; try reflexivity; lia]).
Qed.

(** How a call of [execute_pipeline] ends. *)
Lemma execute_pipeline_detail P cfg w :
  exists res w',
    execute_pipeline P cfg w = (res, w') /\
    (delays_fit P cfg (MAX_RETRY_ATTEMPTS cfg) -> window_fits P cfg ->
     exists s, res = Ret s) /\
    match res with
    | Ret s =>
        (pipeline_error s = None /\
         exists outs etl,
           results s = outs ++ [etl] /\
           Forall2 (step_outcome cfg) pipeline_steps outs /\
           Forall2 step_passed pipeline_steps outs /\
           description etl = etl_description /\
           (exists text, subject etl = command text) /\
           outcome_status_ok cfg etl /\
           pipeline_status s = Some (aggregate_status (results s)) /\
           steps_completed s = Some (count_status "SUCCESS" (results s)) /\
           steps_failed s = Some (count_status "FAILED" (results s)) /\
           steps_total s = Some (Z.of_nat (List.length (results s)))) \/
        (exists outs r passed step rest,
           pipeline_steps = passed ++ step :: rest /\
           results s = outs ++ [r] /\
           Forall2 (step_outcome cfg) passed outs /\
           Forall2 step_passed passed outs /\
           step_outcome cfg step r /\
           step_required step = true /\ status r = "FAILED"%string /\
           pipeline_status s = Some "FAILED"%string /\
           pipeline_error s = Some (required_step_failed step) /\
           steps_completed s = Some (Z.of_nat (List.length (results s))) /\
           steps_failed s = None /\
           steps_total s = Some (Z.of_nat (List.length pipeline_steps)))
    | Raise e =>
        timedelta_hours (INCREMENTAL_WINDOW_HOURS cfg) = Raise e \/
        (exists t window,
           timedelta_hours (INCREMENTAL_WINDOW_HOURS cfg) = Ret window /\
           datetime_sub t window = Raise e) \/
        (exists s, sleep_refused P s e)
    end.
Proof.
  rewrite execute_pipeline_unfold.
  destruct (run_steps_detail P cfg (clock P w) pipeline_steps []
              (pipeline_started P w)) as (res & w1 & E & Hret & Hres).
  rewrite E. destruct res as [[s|rs]|e].
  - destruct Hres as (outs & r & passed & step & rest & t2 & t3 & w0 &
                      Hsteps & Ho & Hp & Ho' & Hreq & Hst & Hs & Hw & Hex).
    simpl app in Hs.
    exists (Ret s), w1. split; [reflexivity|]. split; [eauto|].
    right. exists outs, r, passed, step, rest. subst s. simpl.
    repeat split; auto; apply Ho'.
  - destruct Hres as (outs & Hrs & Ho & Hp). simpl in Hrs. subst rs.
    destruct (complete_pipeline_detail P cfg (clock P w) outs w1)
      as (res & w' & Ec & Hretc & Hresc).
    rewrite Ec. exists res, w'. split; [reflexivity|]. split; [exact Hretc|].
    destruct res as [s|e].
    + destruct Hresc as (etl & t & w'' & Hs & Hw & Hde & Hsu & Hok).
      left. subst s. simpl. split; [reflexivity|].
      exists outs, etl. repeat split; auto.
    + destruct Hresc as [H|[(window & Hw & Hs)|H]]; eauto 6.
  - eexists. eexists. split; [reflexivity|]. split.
    + intros Hfit _. destruct (Hret Hfit) as (v & Hv). discriminate.
    + destruct Hres as (_ & _ & _ & _ & _ & _ & _ & _ & _ & H).
      right. right. exact H.
Qed.

(** Delays of 30 seconds doubled fewer than twenty times are accepted. *)
Lemma thirty_seconds_fit (P : Platform) (cfg : Config) (n : Z) :
  sleep_limit P = 9223372036 -> RETRY_DELAY_SECONDS cfg = 30 -> n <= 20 ->
  delays_fit P cfg n.
Proof.
  intros Hl Hd Hn k Hk. unfold sleepable. rewrite Hl, Hd.
  assert (0 < 2 ^ k) by (apply Z.pow_pos_nonneg; lia).
  assert (2 ^ k <= 2 ^ 18) by (apply Z.pow_le_mono_r; lia).
  change (2 ^ 18) with 262144 in *. lia.
Qed.

(** An hour can be subtracted from every instant of the ticking clock. *)
Lemma ticking_window_fits (P : Platform) (cfg : Config) :
  clock P = ticking_clock -> INCREMENTAL_WINDOW_HOURS cfg = 1 ->
  window_fits P cfg.
Proof.
  intros Hc Hh. exists 3600000000. rewrite Hh. split; [reflexivity|].
  intros h. rewrite Hc. unfold ticking_clock, new_year_2024,
    microseconds_per_day, datetime_max. lia.
Qed.

(** C6.  Line 497 gives, for any list of outcomes, SUCCESS when none is
    FAILED, PARTIAL_SUCCESS when one is FAILED and one is SUCCESS, and
    FAILED when one is FAILED and none is SUCCESS.  Every call of
    [execute_pipeline] ends, and returns a summary when the retry delays
    and the incremental window fit.  A returned summary has no "error"
    (the run reached the end of the step list) exactly when no FAILED
    outcome belongs to a required step; its status is then the one line
    497 gives for its outcomes.  And for every returned summary, the
    status is PARTIAL_SUCCESS iff some outcome is FAILED, no FAILED
    outcome belongs to a required step, and some outcome is SUCCESS. *)
Theorem aggregate_status_of_a_run (P : Platform) (cfg : Config) (w : World) :
  (forall rs : list ExecutionOutcome,
     (Forall (fun r => status r <> "FAILED"%string) rs ->
        aggregate_status rs = "SUCCESS"%string) /\
     (Exists (fun r => status r = "FAILED"%string) rs ->
      Exists (fun r => status r = "SUCCESS"%string) rs ->
        aggregate_status rs = "PARTIAL_SUCCESS"%string) /\
     (Exists (fun r => status r = "FAILED"%string) rs ->
      Forall (fun r => status r <> "SUCCESS"%string) rs ->
        aggregate_status rs = "FAILED"%string)) /\
  exists res w',
    execute_pipeline P cfg w = (res, w') /\
    (delays_fit P cfg (MAX_RETRY_ATTEMPTS cfg) -> window_fits P cfg ->
     exists summary, res = Ret summary) /\
    forall summary, res = Ret summary ->
      (pipeline_error summary = None <->
       all_failures_optional pipeline_steps (results summary)) /\
      (pipeline_error summary = None ->
         List.length (results summary) = 5%nat /\
         (Forall (fun r => status r <> "FAILED"%string) (results summary) ->
            pipeline_status summary = Some "SUCCESS"%string) /\
         (Exists (fun r => status r = "FAILED"%string) (results summary) ->
          Exists (fun r => status r = "SUCCESS"%string) (results summary) ->
            pipeline_status summary = Some "PARTIAL_SUCCESS"%string) /\
         (Exists (fun r => status r = "FAILED"%string) (results summary) ->
          Forall (fun r => status r <> "SUCCESS"%string) (results summary) ->
            pipeline_status summary = Some "FAILED"%string)) /\
      (pipeline_status summary = Some "PARTIAL_SUCCESS"%string <->
       Exists (fun r => status r = "FAILED"%string) (results summary) /\
       all_failures_optional pipeline_steps (results summary) /\
       Exists (fun r => status r = "SUCCESS"%string) (results summary)).
Proof.
  split; [exact aggregate_status_cases|].
  destruct (execute_pipeline_detail P cfg w) as (res & w' & E & Hret & Hres).
  exists res, w'. split; [exact E|]. split; [exact Hret|].
  intros summary ->.
  destruct Hres as [(Herr & outs & etl & Hr & _ & Hp & _ & _ & _ & Hst & _)
                   |(outs & r & passed & step & rest & Hsteps & Hr & _ & Hp & _ &
                     Hreq & Hfail & Hst & Herr & _)].
  - (* every step ran *)
    pose proof (completed_failures_optional _ _ etl Hp) as Ho.
    rewrite <- Hr in Ho.
    destruct (aggregate_status_cases (results summary)) as (H1 & H2 & H3).
    split; [tauto|]. split.
    + intros _. split.
      { rewrite Hr, length_app, <- (Forall2_length Hp). reflexivity. }
      rewrite Hst.
      split; [intros H; now rewrite H1|].
      split; [intros Ha Hb; now rewrite H2|intros Ha Hb; now rewrite H3].
    + rewrite Hst. split.
      * intros H. assert (H' : aggregate_status (results summary)
                               = "PARTIAL_SUCCESS"%string) by congruence.
        apply aggregate_status_partial in H'. tauto.
      * intros (Ha & _ & Hb). now rewrite H2.
  - (* aborted *)
    assert (Hno : ~ all_failures_optional pipeline_steps (results summary)).
    { rewrite Hr, Hsteps. now apply aborted_failure_required. }
    split; [|split].
    + split; [intros Hn; congruence|intros Ho; contradiction].
    + intros Hn. congruence.
    + rewrite Hst. split; [discriminate|]. intros (_ & Ho & _). contradiction.
Qed.

Lemma status_listed (st : string) (rs : list ExecutionOutcome) :
  In st (map status rs) -> Exists (fun r => status r = st) rs.
Proof.
  intros H. apply in_map_iff in H. destruct H as (r & Hr & Hin).
  apply Exists_exists. eauto.
Qed.

Lemma aggregate_status_of_a_run_witness :
  exists summary w',
    execute_pipeline failing_etl_platform fallback_config [] = (Ret summary, w') /\
    map status (results summary)
    = ["SUCCESS"; "SUCCESS"; "SUCCESS"; "SUCCESS"; "FAILED"]%string /\
    pipeline_error summary = None /\
    pipeline_status summary = Some "PARTIAL_SUCCESS"%string.
Proof.
  destruct (aggregate_status_of_a_run failing_etl_platform fallback_config [])
    as (_ & res & w' & E & Hret & Hall).
  destruct Hret as (summary & ->).
  { apply thirty_seconds_fit; [reflexivity|reflexivity|simpl; lia]. }
  { apply ticking_window_fits; reflexivity. }
  destruct (Hall summary eq_refl) as (_ & Hdone & _).
  assert (Hs : map status (results summary)
               = ["SUCCESS"; "SUCCESS"; "SUCCESS"; "SUCCESS"; "FAILED"]%string /\
               pipeline_error summary = None).
  { assert (H : fst (execute_pipeline failing_etl_platform fallback_config [])
                = Ret summary) by now rewrite E.
    vm_compute in H. inversion H. split; reflexivity. }
  destruct Hs as (Hs & Herr).
  destruct (Hdone Herr) as (_ & _ & Hpartial & _).
  exists summary, w'. split; [exact E|]. split; [exact Hs|].
  split; [exact Herr|].
  apply Hpartial; apply status_listed; rewrite Hs; simpl; tauto.
Defined.

(** C2 at the level of the driver.  When the first script step does not
    fail and the second one comes back FAILED, [execute_pipeline] aborts
    there: after the outcome of the second step the trace only gains the
    ERROR notification and clock reads, so steps 3 and 4 are never
    attempted and the incremental ETL call is never made.  The summary has
    status FAILED and holds exactly the two outcomes recorded; its
    [steps_completed] is 2, the number of outcomes, the failed one
    included, although at most one of them is a SUCCESS, and its
    [steps_total] is 4, the length of the step list. *)
Theorem second_step_failure_aborts
    (P : Platform) (cfg : Config) (w : World)
    (r1 r2 : ExecutionOutcome) (w1 w2 : World) :
  execute_sql_script P cfg "../sql/01_schema_setup.sql"
    "Setup schema and permissions" None (pipeline_started P w) = (Ret r1, w1) ->
  status r1 <> "FAILED"%string ->
  execute_sql_script P cfg "../sql/02_core_tables.sql"
    "Create core Delta tables" None w1 = (Ret r2, w2) ->
  status r2 = "FAILED"%string ->
  exists summary t1 t2 t3,
    execute_pipeline P cfg w
    = (Ret summary,
       [ EvNow t3; EvNow t2;
         EvNotify "ERROR" "Required pipeline step failed: Create core Delta tables";
         EvNow t1 ] ++ w2) /\
    pipeline_status summary = Some "FAILED"%string /\
    pipeline_error summary
    = Some "Required pipeline step failed: Create core Delta tables"%string /\
    results summary = [r1; r2] /\
    steps_completed summary = Some 2 /\
    steps_failed summary = None /\
    steps_total summary = Some 4 /\
    (List.length (filter (fun r => (status r =? "SUCCESS")%string)
                    (results summary)) <= 1)%nat.
Proof.
  intros E1 Hs1 E2 Hs2.
  rewrite execute_pipeline_unfold. unfold pipeline_steps.
  rewrite run_steps_cons. simpl step_script. simpl step_description.
  rewrite E1. simpl step_required.
  apply String.eqb_neq in Hs1. rewrite Hs1. simpl andb.
  rewrite run_steps_cons. simpl step_script. simpl step_description.
  rewrite E2. simpl step_required.
  pose proof Hs2 as Hs2'.
  apply String.eqb_eq in Hs2. rewrite Hs2. simpl andb. cbv iota.
  eexists. eexists. eexists. eexists. split; [reflexivity|].
  cbn [pipeline_status pipeline_error results steps_completed steps_failed
       steps_total app].
  repeat (split; [reflexivity|]).
  cbn [filter]. rewrite Hs2'.
  change ("FAILED" =? "SUCCESS")%string with false.
  destruct (status r1 =? "SUCCESS")%string; simpl; lia.
Qed.

Lemma second_step_failure_aborts_witness :
  exists summary w',
    execute_pipeline (missing_script_platform "../sql/02_core_tables.sql")
      fallback_config [] = (Ret summary, w') /\
    pipeline_status summary = Some "FAILED"%string /\
    map status (results summary) = ["SUCCESS"; "FAILED"]%string /\
    steps_completed summary = Some 2 /\
    steps_total summary = Some 4.
Proof.
  assert (E1 : exists r1 w1,
            execute_sql_script (missing_script_platform "../sql/02_core_tables.sql")
              fallback_config "../sql/01_schema_setup.sql"
              "Setup schema and permissions" None
              (pipeline_started
                 (missing_script_platform "../sql/02_core_tables.sql") [])
            = (Ret r1, w1) /\ status r1 = "SUCCESS"%string).
  { eexists. eexists. split; [lazy; reflexivity|reflexivity]. }
  destruct E1 as (r1 & w1 & E1 & Hs1).
  assert (E2 : exists r2 w2,
            execute_sql_script (missing_script_platform "../sql/02_core_tables.sql")
              fallback_config "../sql/02_core_tables.sql"
              "Create core Delta tables" None w1
            = (Ret r2, w2) /\ status r2 = "FAILED"%string).
  { assert (Hw1 : snd (execute_sql_script
                         (missing_script_platform "../sql/02_core_tables.sql")
                         fallback_config "../sql/01_schema_setup.sql"
                         "Setup schema and permissions" None
                         (pipeline_started
                            (missing_script_platform "../sql/02_core_tables.sql")
                            [])) = w1) by now rewrite E1.
    lazy in Hw1. subst w1.
    eexists. eexists. split; [lazy; reflexivity|reflexivity]. }
  destruct E2 as (r2 & w2 & E2 & Hs2).
  assert (Hs1' : status r1 <> "FAILED"%string) by (rewrite Hs1; discriminate).
  destruct (second_step_failure_aborts
              (missing_script_platform "../sql/02_core_tables.sql")
              fallback_config [] r1 r2 w1 w2 E1 Hs1' E2 Hs2)
    as (summary & t1 & t2 & t3 & E & Hst & _ & Hres & Hc & _ & Htot & _).
  exists summary. eexists. split; [exact E|]. split; [exact Hst|].
  split; [|split; [exact Hc|exact Htot]].
  rewrite Hres. simpl. now rewrite Hs1, Hs2.
Defined.

(** ** The reporter *)

(** The branch taken for a failed pipeline depends on the validation: a
    failed validation turns the report into a WARNING. *)
Lemma failed_pipeline_report (P : Platform) (cfg : Config)
    (version : option string)
    (summary : PipelineSummary) (validation : ValidationResults) (w : World) :
  config_version cfg = Ret version ->
  pipeline_status summary = Some "FAILED"%string ->
  exists report w',
    generate_summary_report P cfg summary validation w = (Ret report, w') /\
    overall_status report
    = (if (get (validation_overall_status validation) "UNKNOWN" =? "FAILED")%string
       then "WARNING" else "FAILED")%string.
Proof.
  intros Hv Hs. unfold generate_summary_report, bind, now, lift.
  rewrite Hv, Hs. simpl.
  destruct (get (validation_overall_status validation) "UNKNOWN" =? "FAILED")%string;
    eexists; eexists; (split; [reflexivity|reflexivity]).
Qed.

(** C1 at the failing input.  On a platform where the warehouse answers
    but no SQL script can be opened, pre-flight validation passes, the
    first required step fails (pipeline status FAILED), the data-quality
    script fails too (validation status FAILED), and the report comes out
    as WARNING with a WARNING notification, not as FAILED. *)
Theorem failed_run_is_reported_as_warning :
  exists report w' message,
    orchestration no_scripts_platform fallback_config [] = (Ret report, w') /\
    pipeline_status (report_pipeline_summary report) = Some "FAILED"%string /\
    validation_overall_status (report_validation_results report)
      = Some "FAILED"%string /\
    overall_status report = "WARNING"%string /\
    hd_error w' = Some (EvNotify "WARNING" message).
Proof.
  destruct (orchestration no_scripts_platform fallback_config [])
    as [[report|e] w'] eqn:E; vm_compute in E; [|discriminate].
  inversion E; subst. do 3 eexists.
  split; [reflexivity|]. simpl. repeat split.
Qed.

(** * Further properties of the orchestrator *)

(** ** A rule for the retry loop *)

(** An invariant [Inv] of the outcome and of the events added so far, kept
    by a failed attempt followed by a sleep, gives [Post] when the loop
    returns, provided a successful attempt and the last failed one
    establish [Post]; and it gives [Stop] when a sleep is refused, provided
    a failed attempt establishes [Stop]. *)
Lemma retry_loop_rule (P : Platform) (cfg : Config)
    (body : ExecutionOutcome -> M ExecutionOutcome)
    (Inv Post : ExecutionOutcome -> list Event -> Prop)
    (Stop : list Event -> Prop) (n : Z) (w0 : World) :
  (forall r seg, Inv r seg -> Post r seg) ->
  (forall a r seg r' w1,
     Inv r seg ->
     body (set_attempt_count (a + 1) r) (seg ++ w0) = (Ret r', w1) ->
     exists new, w1 = new ++ seg ++ w0 /\ Post r' (new ++ seg)) ->
  (forall a r seg e w1,
     Inv r seg ->
     body (set_attempt_count (a + 1) r) (seg ++ w0) = (Raise e, w1) ->
     exists new,
       w1 = new ++ seg ++ w0 /\
       (forall t, Post (failed_outcome e t (set_attempt_count (a + 1) r))
                    (EvNow t :: new ++ seg)) /\
       (forall s, Inv (set_error_message (Some e) (set_attempt_count (a + 1) r))
                    (EvSleep s :: new ++ seg)) /\
       Stop (new ++ seg)) ->
  forall attempts r seg,
    Inv r seg ->
    exists res new,
      retry_loop P cfg body n attempts r (seg ++ w0) = (res, new ++ w0) /\
      match res with
      | Ret r' => Post r' new
      | Raise _ => Stop new
      end.
Proof.
  intros Hfall Hsucc Hfail attempts.
  induction attempts as [|a later IH]; intros r seg HI.
  - exists (Ret r), seg. split; [reflexivity|auto].
  - simpl. unfold try_except.
    destruct (body (set_attempt_count (a + 1) r) (seg ++ w0)) as [[r'|e] w1] eqn:E.
    + destruct (Hsucc a r seg r' w1 HI E) as (new & -> & HP).
      exists (Ret r'), (new ++ seg). split; [now rewrite <- app_assoc|exact HP].
    + destruct (Hfail a r seg e w1 HI E) as (new & -> & HP & HI' & HS).
      destruct (a =? n - 1).
      * unfold bind, now, ret. simpl.
        eexists. exists (EvNow (clock P (new ++ seg ++ w0)) :: new ++ seg).
        split; [simpl; now rewrite <- app_assoc|]. apply HP.
      * unfold bind at 1.
        destruct (sleep_cases P (RETRY_DELAY_SECONDS cfg * 2 ^ a)
                    (new ++ seg ++ w0)) as [(_ & Es)|(e' & _ & Es)]; rewrite Es.
        -- specialize (HI' (RETRY_DELAY_SECONDS cfg * 2 ^ a)).
           destruct (IH _ _ HI') as (res & new' & E' & HP').
           exists res, new'. split; [|exact HP'].
           rewrite <- E'. simpl. now rewrite <- app_assoc.
        -- exists (Raise e'), (new ++ seg).
           split; [now rewrite <- app_assoc|exact HS].
Qed.

Lemma last_failure_app (a b : World) :
  last_failure (a ++ b)
  = match last_failure a with
    | Some e => Some e
    | None => last_failure b
    end.
Proof.
  induction a as [|ev a IH]; simpl; auto.
  destruct (event_failure ev); auto.
Qed.

Ltac detail_attempt :=
  repeat match goal with
         | |- context [file_read ?P ?w ?p] => destruct (file_read P w p)
         | |- context [engine_sql ?P ?w ?q] => destruct (engine_sql P w q) as [[|]|]
         | |- context [engine_collect ?P ?w] => destruct (engine_collect P w)
         end;
  simpl; give_segment; simpl;
  repeat split; auto;
  first [ left; do 3 eexists; split; reflexivity
        | right; do 3 eexists; split; reflexivity ].

Lemma script_attempt_detail (P : Platform) (path : string) :
  attempt_detail (script_attempt P path).
Proof.
  intros r w.
  unfold script_attempt, record_success, bind, read_file, spark_sql, collect,
    now, ret, raise.
  detail_attempt.
Qed.

Lemma command_attempt_detail (P : Platform) (sql_command : string) :
  attempt_detail (command_attempt P sql_command).
Proof.
  intros r w.
  unfold command_attempt, record_success, bind, spark_sql, collect, now, ret, raise.
  detail_attempt.
Qed.

(** [attempt_detail], read at one run of the body. *)
Lemma attempt_detail_at (body : ExecutionOutcome -> M ExecutionOutcome)
    (r : ExecutionOutcome) (w : World) (res : Result ExecutionOutcome)
    (w1 : World) :
  attempt_detail body -> body r w = (res, w1) ->
  exists new,
    w1 = new ++ w /\
    match res with
    | Raise e => last_failure new = Some e
    | Ret r' =>
        last_failure new = None /\
        error_message r' = error_message r /\
        status r' = "SUCCESS"%string /\
        ((exists t rows rest,
            new = EvNow t :: EvCollect (Ret rows) :: rest /\
            row_count r' = Z.of_nat (List.length rows)) \/
         (exists t q rest,
            new = EvNow t :: EvSql q (Ret NoFrame) :: rest /\
            row_count r' = row_count r))
    end.
Proof.
  intros Hd E. destruct (Hd r w) as (new & Hw & Hres).
  rewrite E in Hw, Hres. simpl in Hw, Hres. exists new. auto.
Qed.

(** A call that ended did so with the outcome it returns whenever the
    delays fit. *)
Lemma script_result_when_fit P cfg path desc mr w
    (res : Result ExecutionOutcome) (w' : World) :
  execute_sql_script P cfg path desc mr w = (res, w') ->
  delays_fit P cfg (default_retries cfg mr) -> exists r, res = Ret r.
Proof.
  intros E Hfit.
  destruct (execute_sql_script_returns P cfg path desc mr w Hfit)
    as (r & new & E' & _).
  rewrite E' in E. inversion E. eauto.
Qed.

Lemma command_result_when_fit P cfg cmd desc mr w
    (res : Result ExecutionOutcome) (w' : World) :
  execute_sql_command P cfg cmd desc mr w = (res, w') ->
  delays_fit P cfg (default_retries cfg mr) -> exists r, res = Ret r.
Proof.
  intros E Hfit.
  destruct (execute_sql_command_returns P cfg cmd desc mr w Hfit)
    as (r & new & E' & _).
  rewrite E' in E. inversion E. eauto.
Qed.

(** The loop keeps [error_message] equal to the most recent failure. *)
Lemma retry_loop_error_message (P : Platform) (cfg : Config)
    (body : ExecutionOutcome -> M ExecutionOutcome) (n : Z) (w0 : World)
    (attempts : list Z) (r0 : ExecutionOutcome) :
  attempt_detail body -> error_message r0 = None ->
  exists res new,
    retry_loop P cfg body n attempts r0 w0 = (res, new ++ w0) /\
    forall r, res = Ret r -> error_message r = last_failure new.
Proof.
  intros Hd H0.
  destruct (retry_loop_rule P cfg body
              (fun r seg => error_message r = last_failure seg)
              (fun r seg => error_message r = last_failure seg)
              (fun _ => True) n w0) with (attempts := attempts) (r := r0)
              (seg := @nil Event) as (res & new & E & Hres); auto.
  - intros a r seg r' w1 HI E.
    destruct (attempt_detail_at _ _ _ _ _ Hd E) as (new & -> & Hl & He & _).
    exists new. split; [reflexivity|].
    rewrite last_failure_app, Hl, He. exact HI.
  - intros a r seg e w1 HI E.
    destruct (attempt_detail_at _ _ _ _ _ Hd E) as (new & -> & Hl).
    exists new. split; [reflexivity|].
    split; [|split; [|exact I]]; intros; simpl;
      now rewrite last_failure_app, Hl.
  - exists res, new. split; [exact E|]. intros r ->. exact Hres.
Qed.

Lemma last_failure_stamp (new : list Event) (t : Z) :
  last_failure (new ++ [EvNow t]) = last_failure new.
Proof. rewrite last_failure_app. simpl. now destruct (last_failure new). Qed.

(** X1.  Every call of either executor ends, and returns an outcome when
    the retry delays fit.  The [error_message] of a returned outcome, a
    successful one included, is the message of the most recent failed
    attempt of the call: it is not cleared by a later success, and it is
    absent exactly when no attempt of the call failed. *)
Theorem error_message_is_the_last_failure
    (P : Platform) (cfg : Config) (max_retries : option Z) (w : World)
    (text description : string) :
  (exists res new,
     execute_sql_script P cfg text description max_retries w
       = (res, new ++ w) /\
     (delays_fit P cfg (default_retries cfg max_retries) ->
      exists r, res = Ret r) /\
     forall r, res = Ret r -> error_message r = last_failure new)
  /\
  (exists res new,
     execute_sql_command P cfg text description max_retries w
       = (res, new ++ w) /\
     (delays_fit P cfg (default_retries cfg max_retries) ->
      exists r, res = Ret r) /\
     forall r, res = Ret r -> error_message r = last_failure new).
Proof.
  split.
  - destruct (retry_loop_error_message P cfg (script_attempt P text)
                (default_retries cfg max_retries) (EvNow (clock P w) :: w)
                (map Z.of_nat (seq 0 (Z.to_nat (default_retries cfg max_retries))))
                (initial_outcome (script text) description (clock P w))
                (script_attempt_detail P text) eq_refl)
      as (res & new & E & He).
    rewrite <- execute_sql_script_unfold in E.
    exists res, (new ++ [EvNow (clock P w)]).
    rewrite <- app_assoc, last_failure_stamp.
    split; [exact E|]. split; [|exact He].
    eapply script_result_when_fit; eauto.
  - destruct (retry_loop_error_message P cfg (command_attempt P text)
                (default_retries cfg max_retries) (EvNow (clock P w) :: w)
                (map Z.of_nat (seq 0 (Z.to_nat (default_retries cfg max_retries))))
                (initial_outcome (command (display_command text)) description
                   (clock P w))
                (command_attempt_detail P text) eq_refl)
      as (res & new & E & He).
    rewrite <- execute_sql_command_unfold in E.
    exists res, (new ++ [EvNow (clock P w)]).
    rewrite <- app_assoc, last_failure_stamp.
    split; [exact E|]. split; [|exact He].
    eapply command_result_when_fit; eauto.
Qed.

Lemma retry_loop_row_count (P : Platform) (cfg : Config)
    (body : ExecutionOutcome -> M ExecutionOutcome) (n : Z) (w0 : World)
    (attempts : list Z) (r0 : ExecutionOutcome) :
  attempt_detail body ->
  status r0 = "PENDING"%string -> row_count r0 = 0 ->
  exists res new,
    retry_loop P cfg body n attempts r0 w0 = (res, new ++ w0) /\
    forall r, res = Ret r -> row_count_explained r new.
Proof.
  intros Hd Hs0 Hr0.
  destruct (retry_loop_rule P cfg body
              (fun r seg => status r = "PENDING"%string /\ row_count r = 0)
              row_count_explained (fun _ => True) n w0)
    with (attempts := attempts) (r := r0) (seg := @nil Event)
    as (res & new & E & Hres); auto.
  - intros r seg (Hs & Hr). right. split; [rewrite Hs; discriminate|exact Hr].
  - intros a r seg r' w1 (Hs & Hr) E.
    destruct (attempt_detail_at _ _ _ _ _ Hd E)
      as (new & -> & _ & _ & Hst & Hrows).
    exists new. split; [reflexivity|]. left. split; [exact Hst|].
    destruct Hrows as [(t & rows & rest & -> & Hc)|(t & q & rest & -> & Hc)].
    + left. exists t, rows, (rest ++ seg). auto.
    + right. exists t, q, (rest ++ seg). split; [reflexivity|].
      rewrite Hc. exact Hr.
  - intros a r seg e w1 (Hs & Hr) E.
    destruct (attempt_detail_at _ _ _ _ _ Hd E) as (new & -> & _).
    exists new. split; [reflexivity|]. split; [|split; [|exact I]].
    + intros t. right. split; [discriminate|exact Hr].
    + intros s. auto.
  - exists res, new. split; [exact E|]. intros r ->. exact Hres.
Qed.

Lemma row_count_explained_stamp (r : ExecutionOutcome) (new : list Event)
    (t0 : Z) :
  row_count_explained r new -> row_count_explained r (new ++ [EvNow t0]).
Proof.
  intros [(Hs & [(t & rows & rest & -> & Hc)|(t & q & rest & -> & Hc)])|H].
  - left. split; auto. left. exists t, rows, (rest ++ [EvNow t0]). auto.
  - left. split; auto. right. exists t, q, (rest ++ [EvNow t0]). auto.
  - right. exact H.
Qed.

(** X2.  The [row_count] of a returned outcome is 0 unless the status is
    SUCCESS; for a SUCCESS it is the number of rows collected on the
    successful attempt, right before the end stamp, and 0 when [spark.sql]
    returned nothing to collect.  Rows seen by failed attempts never
    count. *)
Theorem row_count_comes_from_the_successful_attempt
    (P : Platform) (cfg : Config) (max_retries : option Z) (w : World)
    (text description : string) :
  (exists res new,
     execute_sql_script P cfg text description max_retries w
       = (res, new ++ w) /\
     (delays_fit P cfg (default_retries cfg max_retries) ->
      exists r, res = Ret r) /\
     forall r, res = Ret r -> row_count_explained r new)
  /\
  (exists res new,
     execute_sql_command P cfg text description max_retries w
       = (res, new ++ w) /\
     (delays_fit P cfg (default_retries cfg max_retries) ->
      exists r, res = Ret r) /\
     forall r, res = Ret r -> row_count_explained r new).
Proof.
  split.
  - destruct (retry_loop_row_count P cfg (script_attempt P text)
                (default_retries cfg max_retries) (EvNow (clock P w) :: w)
                (map Z.of_nat (seq 0 (Z.to_nat (default_retries cfg max_retries))))
                (initial_outcome (script text) description (clock P w))
                (script_attempt_detail P text) eq_refl eq_refl)
      as (res & new & E & He).
    rewrite <- execute_sql_script_unfold in E.
    exists res, (new ++ [EvNow (clock P w)]). rewrite <- app_assoc.
    split; [exact E|]. split; [eapply script_result_when_fit; eauto|].
    intros r Hr. apply row_count_explained_stamp. auto.
  - destruct (retry_loop_row_count P cfg (command_attempt P text)
                (default_retries cfg max_retries) (EvNow (clock P w) :: w)
                (map Z.of_nat (seq 0 (Z.to_nat (default_retries cfg max_retries))))
                (initial_outcome (command (display_command text)) description
                   (clock P w))
                (command_attempt_detail P text) eq_refl eq_refl)
      as (res & new & E & He).
    rewrite <- execute_sql_command_unfold in E.
    exists res, (new ++ [EvNow (clock P w)]). rewrite <- app_assoc.
    split; [exact E|]. split; [eapply command_result_when_fit; eauto|].
    intros r Hr. apply row_count_explained_stamp. auto.
Qed.

Lemma finalised_of_run (P : Platform) (cfg : Config) (mark : Event -> bool)
    (Q : Event -> Prop) (n : Z) (subj : Subject) (desc : string) (t0 : Z)
    (r : ExecutionOutcome) (new : list Event) :
  (forall t, mark (EvNow t) = false) ->
  run_facts cfg mark Q (Z.to_nat n) 0 (initial_outcome subj desc t0) r new ->
  start_time r = t0 /\
  attempt_count r = Z.of_nat (count mark (new ++ [EvNow t0])) /\
  ((n <= 0 /\ status r = "PENDING"%string /\ end_time r = None) \/
   (1 <= attempt_count r <= n /\
    (status r = "SUCCESS"%string \/ status r = "FAILED"%string) /\
    exists t rest,
      new ++ [EvNow t0] = EvNow t :: rest /\ end_time r = Some t /\
      execution_time_seconds r = t - t0)).
Proof.
  intros mark_now (Hle & _ & _ & _ & _ & Hstart & Hzero & Hpos).
  split; [exact Hstart|].
  rewrite (count_stamp mark mark_now).
  destruct (Z.to_nat n) as [|m] eqn:Hm.
  - destruct (Hzero eq_refl) as (-> & ->). split; [reflexivity|].
    left. repeat split. lia.
  - destruct Hpos as (Hac & Hone & (t & rest & -> & Het & Hex) & Hst);
      [discriminate|].
    split; [exact Hac|]. right. split; [lia|]. split.
    + destruct Hst as [Hs|(Hs & _)]; auto.
    + exists t, (rest ++ [EvNow t0]). repeat split; auto.
      rewrite Hex. simpl in Hstart. now rewrite Hstart.
Qed.

(** X3.  A returned outcome stays PENDING exactly when [max_retries <= 0]
    left the loop no attempt.  Otherwise it is finalised: the status is
    SUCCESS or FAILED, [attempt_count] lies between 1 and [max_retries] and
    is the number of attempts on the trace, [end_time] is the last clock
    read of the call and [execution_time_seconds] is
    [end_time - start_time].  In both cases [start_time] is the clock read
    that opens the call. *)
Theorem outcome_is_finalised_iff_attempted
    (P : Platform) (cfg : Config) (max_retries : option Z) (w : World)
    (text description : string) :
  (exists res new,
     execute_sql_script P cfg text description max_retries w
       = (res, new ++ w) /\
     (delays_fit P cfg (default_retries cfg max_retries) ->
      exists r, res = Ret r) /\
     forall r, res = Ret r ->
       start_time r = clock P w /\
       attempt_count r = Z.of_nat (count is_read new) /\
       ((default_retries cfg max_retries <= 0 /\
         status r = "PENDING"%string /\ end_time r = None) \/
        (1 <= attempt_count r <= default_retries cfg max_retries /\
         (status r = "SUCCESS"%string \/ status r = "FAILED"%string) /\
         exists t rest,
           new = EvNow t :: rest /\ end_time r = Some t /\
           execution_time_seconds r = t - clock P w)))
  /\
  (exists res new,
     execute_sql_command P cfg text description max_retries w
       = (res, new ++ w) /\
     (delays_fit P cfg (default_retries cfg max_retries) ->
      exists r, res = Ret r) /\
     forall r, res = Ret r ->
       start_time r = clock P w /\
       attempt_count r = Z.of_nat (count is_sql new) /\
       ((default_retries cfg max_retries <= 0 /\
         status r = "PENDING"%string /\ end_time r = None) \/
        (1 <= attempt_count r <= default_retries cfg max_retries /\
         (status r = "SUCCESS"%string \/ status r = "FAILED"%string) /\
         exists t rest,
           new = EvNow t :: rest /\ end_time r = Some t /\
           execution_time_seconds r = t - clock P w))).
Proof.
  split.
  - destruct (execute_sql_script_run P cfg text description max_retries w)
      as (res & new & E & Hend).
    exists res, (new ++ [EvNow (clock P w)]). rewrite <- app_assoc.
    split; [exact E|]. split; [eapply script_result_when_fit; eauto|].
    intros r ->. simpl in Hend.
    exact (finalised_of_run P cfg is_read _ _ _ _ _ r new is_read_now Hend).
  - destruct (execute_sql_command_run P cfg text description max_retries w)
      as (res & new & E & Hend).
    exists res, (new ++ [EvNow (clock P w)]). rewrite <- app_assoc.
    split; [exact E|]. split; [eapply command_result_when_fit; eauto|].
    intros r ->. simpl in Hend.
    exact (finalised_of_run P cfg is_sql _ _ _ _ _ r new is_sql_now Hend).
Qed.

Lemma total_backoff_delays (d : Z) (k m : nat) :
  total (backoff_delays d k m) = d * 2 ^ Z.of_nat k * (2 ^ Z.of_nat m - 1).
Proof.
  unfold backoff_delays, total. revert k.
  induction m as [|m IH]; intros k; simpl fold_right.
  - simpl. lia.
  - simpl map. simpl fold_right. rewrite IH.
    replace (Z.of_nat (S k)) with (Z.of_nat k + 1) by lia.
    replace (Z.of_nat (S m)) with (Z.of_nat m + 1) by lia.
    rewrite !Z.pow_add_r by lia. lia.
Qed.

Lemma backoff_total_of_run (P : Platform) (cfg : Config) (mark : Event -> bool)
    (Q : Event -> Prop) (n : Z) (r0 : ExecutionOutcome)
    (res : Result ExecutionOutcome) (new : list Event) :
  run_ended P cfg mark Q (Z.to_nat n) 0 r0 res new ->
  total (sleeps new)
    = RETRY_DELAY_SECONDS cfg
      * (2 ^ Z.of_nat (Nat.pred (count mark new)) - 1) /\
  (0 <= RETRY_DELAY_SECONDS cfg ->
   total (sleeps new)
     <= RETRY_DELAY_SECONDS cfg * (2 ^ (Z.max 1 n - 1) - 1)).
Proof.
  intros Hend.
  assert (H : (count mark new <= Z.to_nat n)%nat /\
              schedule mark new
              = backoff_schedule (RETRY_DELAY_SECONDS cfg) 0 (count mark new)).
  { destruct res; simpl in Hend.
    - destruct Hend as (Hle & Hsch & _). auto.
    - destruct Hend as (_ & Hlt & Hsch & _). split; [lia|exact Hsch]. }
  destruct H as (Hle & Hsch).
  assert (Hs : sleeps new
               = backoff_delays (RETRY_DELAY_SECONDS cfg) 0
                   (Nat.pred (count mark new))).
  { rewrite <- (delays_schedule mark), Hsch. apply delays_backoff. }
  rewrite Hs, total_backoff_delays. simpl (2 ^ Z.of_nat 0).
  split; [lia|]. intros Hd.
  assert (Hp : 2 ^ Z.of_nat (Nat.pred (count mark new)) <= 2 ^ (Z.max 1 n - 1)).
  { apply Z.pow_le_mono_r; lia. }
  nia.
Qed.

(** X4.  However a call of either executor ends, the time it spent
    sleeping is [d * (2^(a-1) - 1)] seconds when it made [a >= 1] attempts
    ([d] being [retry_delay_seconds]) and none when it made no attempt; so
    with [d >= 0] no call sleeps more than [d * (2^(max_retries-1) - 1)]
    seconds in all. *)
Theorem total_backoff_is_bounded
    (P : Platform) (cfg : Config) (max_retries : option Z) (w : World)
    (text description : string) :
  (exists res new,
     execute_sql_script P cfg text description max_retries w
       = (res, new ++ w) /\
     total (sleeps new)
       = RETRY_DELAY_SECONDS cfg
         * (2 ^ Z.of_nat (Nat.pred (count is_read new)) - 1) /\
     (0 <= RETRY_DELAY_SECONDS cfg ->
      total (sleeps new)
        <= RETRY_DELAY_SECONDS cfg
           * (2 ^ (Z.max 1 (default_retries cfg max_retries) - 1) - 1)))
  /\
  (exists res new,
     execute_sql_command P cfg text description max_retries w
       = (res, new ++ w) /\
     total (sleeps new)
       = RETRY_DELAY_SECONDS cfg
         * (2 ^ Z.of_nat (Nat.pred (count is_sql new)) - 1) /\
     (0 <= RETRY_DELAY_SECONDS cfg ->
      total (sleeps new)
        <= RETRY_DELAY_SECONDS cfg
           * (2 ^ (Z.max 1 (default_retries cfg max_retries) - 1) - 1))).
Proof.
  split.
  - destruct (execute_sql_script_run P cfg text description max_retries w)
      as (res & new & E & Hend).
    destruct (backoff_total_of_run _ _ _ _ _ _ _ _ Hend) as (Heq & Hle).
    exists res, (new ++ [EvNow (clock P w)]). rewrite <- app_assoc.
    rewrite (count_stamp is_read is_read_now), sleeps_app. simpl sleeps.
    split; [exact E|]. simpl app. auto.
  - destruct (execute_sql_command_run P cfg text description max_retries w)
      as (res & new & E & Hend).
    destruct (backoff_total_of_run _ _ _ _ _ _ _ _ Hend) as (Heq & Hle).
    exists res, (new ++ [EvNow (clock P w)]). rewrite <- app_assoc.
    rewrite (count_stamp is_sql is_sql_now), sleeps_app. simpl sleeps.
    split; [exact E|]. simpl app. auto.
Qed.

Lemma submits_what_it_read_app (path : string) (new seg : list Event) :
  submits_what_it_read path new -> submits_what_it_read path seg ->
  submits_what_it_read path (new ++ seg).
Proof.
  intros (Hr1 & Hc1 & Hf1) (Hr2 & Hc2 & Hf2). repeat split.
  - rewrite read_paths_app, count_app, Hr1, Hr2, <- repeat_app.
    f_equal. lia.
  - rewrite !count_app. lia.
  - rewrite sql_statements_app. apply Forall_app. split.
    + eapply Forall_impl; [|exact Hf2]. simpl. intros q Hq.
      apply in_or_app. auto.
    + eapply Forall_impl; [|exact Hf1]. simpl. intros q Hq.
      apply in_or_app. auto.
Qed.

Lemma script_attempt_reads (P : Platform) (path : string)
    (r : ExecutionOutcome) (w : World) :
  exists new,
    snd (script_attempt P path r w) = new ++ w /\
    submits_what_it_read path new.
Proof.
  unfold script_attempt, record_success, bind, read_file, spark_sql, collect,
    now, ret, raise, submits_what_it_read.
  repeat match goal with
         | |- context [file_read ?P ?w ?p] => destruct (file_read P w p)
         | |- context [engine_sql ?P ?w ?q] => destruct (engine_sql P w q) as [[|]|]
         | |- context [engine_collect ?P ?w] => destruct (engine_collect P w)
         end;
    simpl; give_segment; unfold count; simpl;
    repeat split; auto; try lia;
    try (constructor; [simpl; tauto|constructor]).
Qed.

Lemma retry_loop_reads (P : Platform) (cfg : Config) (path : string) (n : Z)
    (w0 : World) (attempts : list Z) (r0 : ExecutionOutcome) :
  exists res new,
    retry_loop P cfg (script_attempt P path) n attempts r0 w0
      = (res, new ++ w0) /\
    submits_what_it_read path new.
Proof.
  assert (Hunmarked : forall ev seg,
            is_read ev = false -> is_sql ev = false ->
            submits_what_it_read path seg ->
            submits_what_it_read path (ev :: seg)).
  { intros ev seg Hr Hs H.
    apply (submits_what_it_read_app path [ev] seg); auto.
    destruct ev; try discriminate; repeat split; simpl; auto. }
  destruct (retry_loop_rule P cfg (script_attempt P path)
              (fun _ seg => submits_what_it_read path seg)
              (fun _ seg => submits_what_it_read path seg)
              (submits_what_it_read path) n w0)
    with (attempts := attempts) (r := r0) (seg := @nil Event)
    as (res & new & E & Hres); auto.
  - intros a r seg r' w1 HI E.
    destruct (script_attempt_reads P path (set_attempt_count (a + 1) r)
                (seg ++ w0)) as (new & Hw & Hn).
    rewrite E in Hw. simpl in Hw. subst w1.
    exists new. split; [reflexivity|]. now apply submits_what_it_read_app.
  - intros a r seg e w1 HI E.
    destruct (script_attempt_reads P path (set_attempt_count (a + 1) r)
                (seg ++ w0)) as (new & Hw & Hn).
    rewrite E in Hw. simpl in Hw. subst w1.
    exists new. split; [reflexivity|].
    split; [|split]; intros; try apply Hunmarked; auto;
      now apply submits_what_it_read_app.
  - repeat split; simpl; auto.
  - exists res, new. split; [exact E|]. destruct res; exact Hres.
Qed.

(** X5.  However a call ends, [execute_sql_script] opens its script again
    on every attempt and opens no other file; it submits at most one
    statement per reading, and each statement is a text that a reading of
    the script returned during this call: a script changed between two
    attempts is picked up.  The attempt count of a returned outcome is the
    number of readings. *)
Theorem script_is_read_again_on_every_attempt
    (P : Platform) (cfg : Config) (max_retries : option Z) (w : World)
    (script_path description : string) :
  exists res new,
    execute_sql_script P cfg script_path description max_retries w
      = (res, new ++ w) /\
    (delays_fit P cfg (default_retries cfg max_retries) ->
     exists r, res = Ret r) /\
    (forall r, res = Ret r -> attempt_count r = Z.of_nat (count is_read new)) /\
    read_paths new = repeat script_path (count is_read new) /\
    (List.length (sql_statements new) <= count is_read new)%nat /\
    Forall (fun q => In (EvRead script_path (Ret q)) new) (sql_statements new).
Proof.
  destruct (execute_sql_script_run P cfg script_path description max_retries w)
    as (res & new & E & Hend).
  pose proof E as E0.
  rewrite execute_sql_script_unfold in E.
  destruct (retry_loop_reads P cfg script_path (default_retries cfg max_retries)
              (EvNow (clock P w) :: w)
              (map Z.of_nat (seq 0 (Z.to_nat (default_retries cfg max_retries))))
              (initial_outcome (script script_path) description (clock P w)))
    as (res' & new' & E' & Hr & Hc & Hf).
  rewrite E in E'. inversion E' as [[Hreq Hw]].
  apply app_inv_tail in Hw. subst res' new'.
  exists res, (new ++ [EvNow (clock P w)]).
  rewrite <- app_assoc.
  rewrite (count_stamp is_read is_read_now), read_paths_app,
    sql_statements_app. simpl.
  split; [exact E0|]. split; [eapply script_result_when_fit; eauto|].
  split; [|split; [exact Hr|split]].
  - intros r ->. simpl in Hend.
    destruct Hend as (_ & _ & _ & _ & _ & _ & Hzero & Hpos).
    destruct (Z.to_nat (default_retries cfg max_retries)) as [|m] eqn:Hm.
    + destruct (Hzero eq_refl) as (-> & ->). reflexivity.
    + destruct Hpos as (Hac & _); [discriminate|]. exact Hac.
  - rewrite statements_counted. exact Hc.
  - eapply Forall_impl; [|exact Hf]. simpl. intros q Hq.
    apply in_or_app. auto.
Qed.
(** ** The displayed command *)

Lemma string_length_append (a b : string) :
  String.length (a ++ b)%string = (String.length a + String.length b)%nat.
Proof. induction a as [|c a IH]; simpl; auto. Qed.

Lemma prefix_length (n : nat) (s : string) :
  String.length (substring 0 n s) = Nat.min n (String.length s).
Proof.
  revert s. induction n as [|n IH]; intros [|c s]; simpl; auto.
Qed.

Lemma prefix_of_append (n : nat) (a b : string) :
  (n <= String.length a)%nat ->
  substring 0 n (a ++ b)%string = substring 0 n a.
Proof.
  revert a. induction n as [|n IH]; intros [|c a] Hn; simpl in *; auto.
  - destruct b; reflexivity.
  - lia.
  - rewrite IH; auto. lia.
Qed.

Lemma prefix_of_prefix (n : nat) (s : string) :
  substring 0 n (substring 0 n s) = substring 0 n s.
Proof.
  revert s. induction n as [|n IH]; intros [|c s]; simpl; auto.
  now rewrite IH.
Qed.

(** X6.  The text stored for display never exceeds 103 characters,
    agrees with the command on its first 100 characters, is the command
    itself when that has at most 100 characters, and shortening it again
    changes nothing. *)
Theorem displayed_command_is_bounded (sql_command : string) :
  (String.length (display_command sql_command) <= 103)%nat /\
  substring 0 100 (display_command sql_command) = substring 0 100 sql_command /\
  ((String.length sql_command <= 100)%nat ->
   display_command sql_command = sql_command) /\
  display_command (display_command sql_command) = display_command sql_command.
Proof.
  unfold display_command.
  destruct (Nat.ltb_spec 100 (String.length sql_command)) as [Hlong|Hshort].
  - assert (Hp : String.length (substring 0 100 sql_command) = 100%nat).
    { rewrite prefix_length. lia. }
    assert (Hl : String.length (substring 0 100 sql_command ++ "...")%string
                 = 103%nat).
    { rewrite string_length_append, Hp. reflexivity. }
    assert (Hpre : substring 0 100 (substring 0 100 sql_command ++ "...")%string
                   = substring 0 100 sql_command).
    { rewrite prefix_of_append by lia. apply prefix_of_prefix. }
    repeat split.
    + lia.
    + exact Hpre.
    + intros. lia.
    + rewrite Hl. simpl (100 <? 103)%nat. now rewrite Hpre.
  - repeat split; auto; try lia.
    destruct (Nat.ltb_spec 100 (String.length sql_command)); [lia|reflexivity].
Qed.

(** ** Pre-flight validation, check by check *)

Lemma schema_block (P : Platform) (cfg : Config) (errs : list string)
    (w : World) :
  exists schema new,
    try_except
      (_ <- spark_sql P ("USE CATALOG " ++ CATALOG cfg) ;;
       shown_schemas <- spark_sql P ("SHOW SCHEMAS LIKE '" ++ SCHEMA cfg ++ "'") ;;
       _ <- collect P shown_schemas ;; ret errs)
      (fun e => ret (errs ++ [schema_not_accessible cfg e])) w
    = (Ret (errs ++ schema), new ++ w) /\
    schema_checked P cfg w new schema.
Proof.
  unfold try_except, bind, spark_sql, collect, ret, raise, schema_not_accessible.
  destruct (engine_sql P w ("USE CATALOG " ++ CATALOG cfg)) as [f|e] eqn:Eu.
  - destruct (engine_sql P _ ("SHOW SCHEMAS LIKE '" ++ SCHEMA cfg ++ "'"))
      as [[|]|e] eqn:Es.
    + eexists. eexists [_; _]. split; [reflexivity|].
      exact (schema_show_nothing P cfg w f Eu Es).
    + destruct (engine_collect P _) as [rows|e] eqn:Ec.
      * exists []. eexists [_; _; _]. rewrite app_nil_r.
        split; [reflexivity|].
        exact (schema_accessible P cfg w f rows Eu Es Ec).
      * eexists. eexists [_; _; _]. split; [reflexivity|].
        exact (schema_uncollected P cfg w f e Eu Es Ec).
    + eexists. eexists [_; _]. split; [reflexivity|].
      exact (schema_show_refused P cfg w f e Eu Es).
  - eexists. eexists [_]. split; [reflexivity|].
    exact (schema_use_refused P cfg w e Eu).
Qed.

Lemma cluster_block (P : Platform) (errs : list string) (w : World) :
  exists cluster new,
    try_except
      (one <- spark_sql P "SELECT 1" ;; _ <- collect P one ;; ret errs)
      (fun e => ret (errs ++ [cluster_issue e])) w
    = (Ret (errs ++ cluster), new ++ w) /\
    cluster_checked P w new cluster.
Proof.
  unfold try_except, bind, spark_sql, collect, ret, raise, cluster_issue.
  destruct (engine_sql P w "SELECT 1") as [[|]|e] eqn:Es.
  - eexists. eexists [_]. split; [reflexivity|].
    exact (cluster_nothing P w Es).
  - destruct (engine_collect P _) as [rows|e] eqn:Ec.
    + exists []. eexists [_; _]. rewrite app_nil_r. split; [reflexivity|].
      exact (cluster_answers P w rows Es Ec).
    + eexists. eexists [_; _]. split; [reflexivity|].
      exact (cluster_uncollected P w e Es Ec).
  - eexists. eexists [_]. split; [reflexivity|].
    exact (cluster_refused P w e Es).
Qed.

Lemma table_errors_spec (outcomes : list AccessOutcome) :
  map cannot_access (access_failures outcomes) = table_errors outcomes.
Proof.
  unfold access_failures, table_errors.
  induction outcomes as [|o outs IH]; simpl; [reflexivity|].
  destruct (accessible o); simpl; [exact IH|].
  rewrite IH. unfold cannot_access, shown. reflexivity.
Qed.

Lemma missing_keys_spec (cfg : Config) :
  missing_keys cfg = missing_sections (CONFIG cfg).
Proof.
  unfold missing_keys, missing_sections, required_config_keys, key_in_config.
  simpl.
  destruct (section_schemas (CONFIG cfg)), (section_etl (CONFIG cfg)),
    (section_performance_thresholds (CONFIG cfg)); reflexivity.
Qed.

(** The errors of pre-flight validation, in the order of the checks, and
    the events of each check. *)
Lemma validate_prerequisites_shape (P : Platform) (cfg : Config)
    (tables : list string) (w : World) :
  required_tables cfg = Ret tables ->
  exists outcomes probing schema_events schema cluster_events cluster,
    validate_prerequisites P cfg w
    = (Ret ((List.length
               (((map cannot_access (access_failures outcomes) ++ schema)
                 ++ map missing_section (missing_keys cfg)) ++ cluster) =? 0)%nat,
            ((map cannot_access (access_failures outcomes) ++ schema)
             ++ map missing_section (missing_keys cfg)) ++ cluster),
       cluster_events ++ schema_events ++ probing ++ w) /\
    probes P w tables probing outcomes /\
    sql_statements probing = map probe_sql tables /\
    schema_checked P cfg (probing ++ w) schema_events schema /\
    cluster_checked P (schema_events ++ probing ++ w) cluster_events cluster.
Proof.
  intros Ht.
  unfold validate_prerequisites. unfold bind at 1.
  rewrite (check_system_table_access_unfold P cfg tables w Ht).
  destruct (probe_tables_run P tables [] w)
    as (outs & new1 & E1 & _ & Hs1 & _ & Hp1).
  simpl app in E1. rewrite E1. cbv zeta.
  change (@nil string ++ map cannot_access
            (filter (fun r => negb (accessible r)) outs))
    with (map cannot_access (access_failures outs)).
  fold (missing_keys cfg).
  unfold bind at 1.
  destruct (schema_block P cfg (map cannot_access (access_failures outs))
              (new1 ++ w)) as (schema & new2 & E2 & Hshape2).
  rewrite E2. unfold bind at 1.
  destruct (cluster_block P
              ((map cannot_access (access_failures outs) ++ schema)
               ++ map missing_section (missing_keys cfg))
              (new2 ++ new1 ++ w)) as (cluster & new3 & E3 & Hshape3).
  rewrite E3. unfold ret.
  exists outs, new1, new2, schema, new3, cluster.
  split; [reflexivity|]. auto.
Qed.

(** X7.  Given the list of required tables, pre-flight validation runs
    its four checks whatever fails: it probes every required table, runs
    the schema check (USE CATALOG, then SHOW SCHEMAS unless USE CATALOG was
    refused), and always ends with the cluster check (SELECT 1).  Its
    errors come in the order of the checks: one per table that is not
    accessible, at most one for the schema, one per missing configuration
    section, at most one for the cluster; each decided by the answers of
    the warehouse to that check; and the success flag is true exactly when
    there is none. *)
Theorem preflight_runs_every_check
    (P : Platform) (cfg : Config) (tables : list string) (w : World) :
  required_tables cfg = Ret tables ->
  exists outcomes probing schema_events schema cluster_events cluster
         success errors,
    validate_prerequisites P cfg w
    = (Ret (success, errors),
       cluster_events ++ schema_events ++ probing ++ w) /\
    probes P w tables probing outcomes /\
    schema_checked P cfg (probing ++ w) schema_events schema /\
    cluster_checked P (schema_events ++ probing ++ w) cluster_events cluster /\
    errors = table_errors outcomes ++ schema
             ++ map (fun key =>
                       ("Missing required configuration section: "
                        ++ key)%string)
                  (missing_sections (CONFIG cfg))
             ++ cluster /\
    (List.length schema <= 1)%nat /\ (List.length cluster <= 1)%nat /\
    (success = true <-> errors = []).
Proof.
  intros Ht.
  destruct (validate_prerequisites_shape P cfg tables w Ht)
    as (outs & probing & sev & schema & cev & cluster & Ev & Hp & _ & Hsch & Hcl).
  exists outs, probing, sev, schema, cev, cluster. eexists. eexists.
  split; [exact Ev|]. split; [exact Hp|]. split; [exact Hsch|].
  split; [exact Hcl|].
  split; [|split; [|split]].
  - rewrite table_errors_spec, missing_keys_spec, <- !app_assoc. reflexivity.
  - destruct Hsch; simpl; lia.
  - destruct Hcl; simpl; lia.
  - rewrite Nat.eqb_eq. apply length_zero_iff_nil.
Qed.

Lemma preflight_runs_every_check_witness :
  exists success errors new,
    validate_prerequisites (locked_table_platform "system.billing.usage")
      fallback_config []
    = (Ret (success, errors), new) /\
    success = false /\
    errors = ["Cannot access system.billing.usage: PERMISSION_DENIED"%string].
Proof.
  assert (Ht : required_tables fallback_config = Ret default_required_tables)
    by reflexivity.
  destruct (preflight_runs_every_check
              (locked_table_platform "system.billing.usage") fallback_config
              default_required_tables [] Ht)
    as (outs & probing & sev & schema & cev & cluster & success & errors &
        Ev & _).
  exists success, errors, (cev ++ sev ++ probing ++ []). split; [exact Ev|].
  assert (H : fst (validate_prerequisites
                     (locked_table_platform "system.billing.usage")
                     fallback_config [])
              = Ret (success, errors)) by now rewrite Ev.
  vm_compute in H. inversion H. split; reflexivity.
Defined.

Lemma configured_raw (raw : RawConfig) (cfg : Config) :
  read_constants (Some raw) = Ret cfg -> CONFIG cfg = raw.
Proof.
  unfold read_constants, and_then.
  repeat match goal with
         | |- context [match ?x with _ => _ end] => destruct x; try discriminate
         end.
  intros H. inversion H. reflexivity.
Qed.

(** X8.  What a missing required section does depends on the section.
    Without "schemas", or with it and without "etl", the notebook raises
    the [KeyError] of lines 74-78, before pre-flight validation runs: the
    trace holds the reading of the configuration file and nothing else.
    Without "performance_thresholds", pre-flight validation runs and fails
    on every platform: the error list names the section and the notebook
    raises at the gate. *)
Theorem missing_config_section_fails_preflight
    (P : Platform) (w w0 : World) (raw : RawConfig) :
  load_config P w = (Ret (Some raw), w0) ->
  (section_schemas raw = Missing ->
   notebook P w = (Raise "'schemas'", w0)) /\
  (forall catalog schema,
     section_schemas raw
     = Present (Present (mkNames (Some catalog) (Some schema))) ->
     section_etl raw = Missing ->
     notebook P w = (Raise "'etl'", w0)) /\
  (forall cfg tables,
     read_constants (Some raw) = Ret cfg ->
     required_tables cfg = Ret tables ->
     section_performance_thresholds raw = Missing ->
     exists errors new,
       validate_prerequisites P cfg w0 = (Ret (false, errors), new ++ w0) /\
       In "Missing required configuration section: performance_thresholds"%string
         errors /\
       notebook P w
       = (Raise ("Prerequisites validation failed: "
                   ++ String.concat "; " errors)%string,
          EvNotify "ERROR"
            ("Prerequisites validation failed: "
               ++ String.concat "; " errors)%string
          :: EvNow (clock P (new ++ w0)) :: new ++ w0)).
Proof.
  intros Hload. split; [|split].
  - intros Hs. apply (notebook_unconfigured P w w0 (Some raw)); [exact Hload|].
    unfold read_constants, schema_names. rewrite Hs. reflexivity.
  - intros catalog schema Hs He.
    apply (notebook_unconfigured P w w0 (Some raw)); [exact Hload|].
    unfold read_constants, schema_names. rewrite Hs, He. reflexivity.
  - intros cfg tables Hcfg Ht Hp.
    destruct (validate_prerequisites_shape P cfg tables w0 Ht)
      as (outs & probing & sev & schema & cev & cluster & Ev & _).
    set (errors := ((map cannot_access (access_failures outs) ++ schema)
                    ++ map missing_section (missing_keys cfg)) ++ cluster) in *.
    assert (Hin : In "Missing required configuration section: performance_thresholds"%string
                    errors).
    { unfold errors. apply in_or_app. left. apply in_or_app. right.
      change "Missing required configuration section: performance_thresholds"%string
        with (missing_section "performance_thresholds").
      apply in_map. rewrite missing_keys_spec, (configured_raw raw cfg Hcfg).
      unfold missing_sections. rewrite Hp.
      apply in_or_app. right. apply in_or_app. right. simpl. auto. }
    assert (Hne : errors <> []).
    { intros H0. rewrite H0 in Hin. contradiction. }
    assert (Hlen : (List.length errors =? 0)%nat = false).
    { apply Nat.eqb_neq. destruct errors; [contradiction|discriminate]. }
    exists errors, (cev ++ sev ++ probing). rewrite <- !app_assoc.
    split; [now rewrite <- Hlen|]. split; [exact Hin|].
    pose proof (notebook_stops_at_the_gate P w w0 (Some raw) cfg errors
                  (cev ++ sev ++ probing) Hload Hcfg) as Hstop.
    rewrite <- !app_assoc in Hstop. apply Hstop; assumption.
Qed.

Lemma missing_config_section_fails_preflight_witness :
  (notebook (working_platform no_etl_raw) []
   = (Raise "'etl'", [EvRead "../config.yaml" (Ret "-- ../config.yaml"%string)]))
  /\
  (exists errors w',
     In "Missing required configuration section: performance_thresholds"%string
       errors /\
     notebook (working_platform no_thresholds_raw) []
     = (Raise ("Prerequisites validation failed: "
                 ++ String.concat "; " errors)%string, w')).
Proof.
  split.
  - assert (Hload : load_config (working_platform no_etl_raw) []
                    = (Ret (Some no_etl_raw),
                       [EvRead "../config.yaml" (Ret "-- ../config.yaml"%string)]))
      by reflexivity.
    refine (proj1 (proj2 (missing_config_section_fails_preflight
                            (working_platform no_etl_raw) [] _ no_etl_raw Hload))
              "mcp"%string "query_optimization"%string _ _); reflexivity.
  - assert (Hload : load_config (working_platform no_thresholds_raw) []
                    = (Ret (Some no_thresholds_raw),
                       [EvRead "../config.yaml" (Ret "-- ../config.yaml"%string)]))
      by reflexivity.
    assert (Hcfg : read_constants (Some no_thresholds_raw)
                   = Ret no_thresholds_config) by reflexivity.
    assert (Ht : required_tables no_thresholds_config
                 = Ret default_required_tables) by reflexivity.
    destruct (proj2 (proj2 (missing_config_section_fails_preflight
                              (working_platform no_thresholds_raw) [] _
                              no_thresholds_raw Hload))
                no_thresholds_config default_required_tables Hcfg Ht eq_refl)
      as (errors & new & _ & Hin & Hnb).
    exists errors. eexists. split; [exact Hin|exact Hnb].
Defined.

Lemma answered_probes (P : Platform) (tables : list string)
    (acc : list AccessOutcome) (w : World) :
  answers_every_query P ->
  exists new,
    probe_tables P tables acc w
      = (Ret (acc ++ map access_granted tables), new ++ w) /\
    sql_statements new = map probe_sql tables.
Proof.
  intros (Hsql & Hcol). revert acc w.
  induction tables as [|table rest IH]; intros acc w; simpl.
  - exists []. now rewrite app_nil_r.
  - unfold bind at 1. unfold probe_table, try_except, bind, spark_sql, collect, ret.
    rewrite Hsql.
    destruct (Hcol (EvSql (probe_sql table) (Ret DataFrame) :: w)) as (rows & ->).
    destruct (IH (acc ++ [access_granted table])
                (EvCollect (Ret rows)
                 :: EvSql (probe_sql table) (Ret DataFrame) :: w))
      as (new & E & Hs).
    rewrite E. rewrite <- app_assoc. simpl.
    exists (new ++ [EvCollect (Ret rows);
                    EvSql (probe_sql table) (Ret DataFrame)]).
    rewrite <- app_assoc. split; [reflexivity|].
    rewrite sql_statements_app, Hs. reflexivity.
Qed.

Lemma no_access_failures (tables : list string) :
  access_failures (map access_granted tables) = [].
Proof. induction tables; simpl; auto. Qed.

Lemma answered_validation (P : Platform) (cfg : Config)
    (tables : list string) (w : World) :
  required_tables cfg = Ret tables ->
  answers_every_query P ->
  missing_keys cfg = [] ->
  exists new,
    validate_prerequisites P cfg w = (Ret (true, []), new ++ w) /\
    sql_statements new
    = map probe_sql tables
      ++ [use_catalog_sql cfg; show_schemas_sql cfg; "SELECT 1"%string].
Proof.
  intros Ht HP Hkeys.
  destruct (answered_probes P tables [] w HP) as (new1 & E1 & Hs1).
  destruct HP as (Hsql & Hcol).
  unfold validate_prerequisites. unfold bind at 1.
  rewrite (check_system_table_access_unfold P cfg tables w Ht).
  rewrite E1. cbv zeta.
  change (@nil string ++ map cannot_access
            (filter (fun r => negb (accessible r))
               ([] ++ map access_granted tables)))
    with (map cannot_access
            (access_failures (map access_granted tables))).
  fold (missing_keys cfg). rewrite no_access_failures, Hkeys.
  unfold try_except, bind, spark_sql, collect, ret,
    use_catalog_sql, show_schemas_sql.
  rewrite !Hsql.
  destruct (Hcol (EvSql ("SHOW SCHEMAS LIKE '" ++ SCHEMA cfg ++ "'")
                    (Ret DataFrame)
                  :: EvSql ("USE CATALOG " ++ CATALOG cfg) (Ret DataFrame)
                  :: new1 ++ w)) as (rows & ->).
  rewrite !Hsql.
  match goal with
  | |- context [engine_collect P ?h] => destruct (Hcol h) as (rows' & ->)
  end.
  simpl.
  eexists ([_; _; _; _; _] ++ new1). rewrite <- app_assoc.
  split; [reflexivity|].
  rewrite sql_statements_app, Hs1. reflexivity.
Qed.

(** X9.  On a warehouse that accepts every statement, with a list of
    required tables and the three required sections in the configuration,
    pre-flight validation reports no error and the gate lets the run
    through, having sent the probes, [USE CATALOG], [SHOW SCHEMAS] and
    [SELECT 1] in that order.  The rows that come back are never looked
    at: the schema check passes even when [SHOW SCHEMAS] finds no
    schema. *)
Theorem answering_warehouse_passes_preflight
    (P : Platform) (cfg : Config) (tables : list string) (w : World) :
  required_tables cfg = Ret tables ->
  answers_every_query P ->
  missing_keys cfg = [] ->
  exists new,
    validate_prerequisites P cfg w = (Ret (true, []), new ++ w) /\
    prerequisites_gate P cfg w = (Ret tt, new ++ w) /\
    sql_statements new
    = map probe_sql tables
      ++ [use_catalog_sql cfg; show_schemas_sql cfg; "SELECT 1"%string].
Proof.
  intros Ht HP Hkeys.
  destruct (answered_validation P cfg tables w Ht HP Hkeys) as (new & Ev & Hs).
  exists new.
  split; [exact Ev|]. split; [|exact Hs].
  exact (prerequisites_gate_run P cfg w [] new Ev).
Qed.

Lemma answering_warehouse_passes_preflight_witness :
  exists new,
    validate_prerequisites (flaky_platform 0) fallback_config []
      = (Ret (true, []), new ++ []) /\
    prerequisites_gate (flaky_platform 0) fallback_config []
      = (Ret tt, new ++ []) /\
    sql_statements new
    = map probe_sql default_required_tables
      ++ [use_catalog_sql fallback_config; show_schemas_sql fallback_config;
          "SELECT 1"%string].
Proof.
  assert (Ht : required_tables fallback_config = Ret default_required_tables)
    by reflexivity.
  assert (HP : answers_every_query (flaky_platform 0)).
  { split; [reflexivity|]. intros h. exists []. reflexivity. }
  assert (Hk : missing_keys fallback_config = []) by reflexivity.
  exact (answering_warehouse_passes_preflight (flaky_platform 0)
           fallback_config default_required_tables [] Ht HP Hk).
Defined.
(** ** Table health *)


(** X11.  When [DESCRIBE TABLE] is accepted and its rows collected, and
    the statistics query is accepted and finds no row, indexing the empty
    result fails inside the [try]: the table is reported FAILED and
    missing, with the message of the index error, although
    [DESCRIBE TABLE] had succeeded and both statements were sent. *)
Theorem empty_statistics_fail_the_health_check
    (P : Platform) (cfg : Config) (table : string)
    (schema_name : option string) (w : World) (rows : list Row) :
  let full_name := full_table_name cfg schema_name table in
  let described := EvCollect (Ret rows)
                   :: EvSql (describe_sql full_name) (Ret DataFrame) :: w in
  engine_sql P w (describe_sql full_name) = Ret DataFrame ->
  engine_collect P (EvSql (describe_sql full_name) (Ret DataFrame) :: w)
    = Ret rows ->
  engine_sql P described (stats_sql full_name) = Ret DataFrame ->
  engine_collect P (EvSql (stats_sql full_name) (Ret DataFrame) :: described)
    = Ret [] ->
  check_table_health P cfg table schema_name w
  = (Ret (mkHealth table full_name "FAILED" false None None
            (Some "list index out of range"%string)),
     EvCollect (Ret [])
     :: EvSql (stats_sql full_name) (Ret DataFrame) :: described).
Proof.
  intros full_name described Hd Hdc Hs Hsc.
  unfold check_table_health, try_except, bind, spark_sql, collect, ret, raise.
  fold (full_table_name cfg schema_name table). fold full_name.
  fold (describe_sql full_name). rewrite Hd. cbv beta iota zeta.
  rewrite Hdc. cbv beta iota zeta.
  fold (stats_sql full_name). fold described.
  rewrite Hs. cbv beta iota zeta. rewrite Hsc. reflexivity.
Qed.

Lemma empty_statistics_fail_the_health_check_witness :
  exists h new,
    check_table_health (flaky_platform 0) fallback_config "query_patterns"
      None [] = (Ret h, new) /\
    health_status h = "FAILED"%string /\
    health_exists h = false /\
    health_error h = Some "list index out of range"%string /\
    List.length (sql_statements new) = 2%nat.
Proof.
  eexists. eexists. split.
  - apply (empty_statistics_fail_the_health_check (flaky_platform 0)
             fallback_config "query_patterns"%string None [] []);
      reflexivity.
  - repeat split.
Defined.
(** ** Housekeeping *)

Lemma optimize_table_run (P : Platform) (cfg : Config) (table_name : string)
    (acc : list OptimizationOutcome) (w : World) :
  exists o new q,
    optimize_tables P cfg [table_name] acc w = (Ret (acc ++ [o]), new ++ w) /\
    optimized_table o = table_name /\
    table_run cfg o q /\
    sql_statements new = q /\
    read_paths new = [] /\ sleeps new = [].
Proof.
  simpl optimize_tables.
  unfold try_except, bind, spark_sql, now, ret, table_run, optimization_entry,
    table_statements, optimize_sql, analyze_sql, full_table_name.
  repeat match goal with
         | |- context [engine_sql ?P ?w ?q] => destruct (engine_sql P w q) as [?|?]
         end;
    simpl; eexists;
    match goal with
    | |- exists new, _ => eexists (_ : list Event)
    end; eexists;
    (split; [match goal with
             | |- (_, ?l) = (_, ?n ++ w) =>
                 let seg := segment_of l w in unify n seg; reflexivity
             end|]);
    simpl; (split; [reflexivity|]);
    (split; [|split; [reflexivity|split; reflexivity]]);
    (split; [|split]).
  all: try discriminate.
  all: try (left; split; [reflexivity|split; [reflexivity|eexists; reflexivity]]).
  all: try (right; split; [reflexivity|split; [reflexivity|eexists; reflexivity]]).
  all: try (left; reflexivity).
  all: try (right; reflexivity).
  all: try reflexivity.
Qed.

Lemma optimize_tables_cons (P : Platform) (cfg : Config) (table_name : string)
    (rest : list string) (acc : list OptimizationOutcome) (w : World) :
  optimize_tables P cfg (table_name :: rest) acc w =
  bind (optimize_tables P cfg [table_name] acc) (optimize_tables P cfg rest) w.
Proof.
  simpl optimize_tables.
  match goal with
  | |- context [try_except ?b ?h] => set (turn := try_except b h)
  end.
  unfold bind, ret. destruct (turn w) as [[x|e] w']; reflexivity.
Qed.

Lemma optimize_tables_run (P : Platform) (cfg : Config) (tables : list string) :
  forall (acc : list OptimizationOutcome) (w : World),
  exists outs new qs,
    optimize_tables P cfg tables acc w = (Ret (acc ++ outs), new ++ w) /\
    map optimized_table outs = tables /\
    Forall2 (table_run cfg) outs qs /\
    sql_statements new = List.concat qs /\
    read_paths new = [] /\ sleeps new = [].
Proof.
  induction tables as [|table_name rest IH]; intros acc w.
  - exists [], [], []. simpl. unfold ret. rewrite app_nil_r. repeat split; constructor.
  - rewrite optimize_tables_cons. unfold bind.
    destruct (optimize_table_run P cfg table_name acc w)
      as (o & new1 & q & -> & Hname & Hrun & Hq & Hr & Hs).
    destruct (IH (acc ++ [o]) (new1 ++ w))
      as (outs & new2 & qs & -> & Hnames & Hruns & Hqs & Hrs & Hss).
    exists (o :: outs), (new2 ++ new1), (q :: qs).
    rewrite <- !app_assoc. simpl.
    rewrite sql_statements_app, read_paths_app, sleeps_app, Hq, Hr, Hs, Hqs, Hrs, Hss,
      Hname, Hnames.
    repeat split; auto.
Qed.

Lemma refresh_views_cons (P : Platform) (cfg : Config) (view_name : string)
    (rest : list string) (w : World) :
  refresh_views P cfg (view_name :: rest) w =
  match engine_sql P w (refresh_sql cfg view_name) with
  | Ret f =>
      refresh_views P cfg rest (EvSql (refresh_sql cfg view_name) (Ret f) :: w)
  | Raise e => (Raise e, EvSql (refresh_sql cfg view_name) (Raise e) :: w)
  end.
Proof.
  unfold refresh_sql. simpl. unfold bind, spark_sql. simpl.
  destruct (engine_sql P w _); reflexivity.
Qed.

Lemma refresh_views_run (P : Platform) (cfg : Config) (views : list string) :
  forall w : World,
  exists (k : nat) (new : list Event),
    snd (refresh_views P cfg views w) = new ++ w /\
    sql_statements new = map (refresh_sql cfg) (firstn k views) /\
    (k <= List.length views)%nat /\
    read_paths new = [] /\ sleeps new = [] /\
    ((fst (refresh_views P cfg views w) = Ret tt /\ k = List.length views) \/
     ((exists e, fst (refresh_views P cfg views w) = Raise e) /\
      ends_refused new)).
Proof.
  induction views as [|view_name rest IH]; intros w.
  - exists 0%nat, []. simpl. repeat split; auto.
  - rewrite refresh_views_cons.
    destruct (engine_sql P w (refresh_sql cfg view_name)) as [f|e] eqn:E.
    + destruct (IH (EvSql (refresh_sql cfg view_name) (Ret f) :: w))
        as (k & new & Hw & Hq & Hk & Hr & Hs & H).
      exists (S k), (new ++ [EvSql (refresh_sql cfg view_name) (Ret f)]).
      rewrite sql_statements_app, read_paths_app, sleeps_app, Hq, Hr, Hs.
      simpl.
      split; [rewrite Hw, <- app_assoc; reflexivity|].
      split; [reflexivity|]. split; [lia|].
      split; [reflexivity|]. split; [reflexivity|].
      destruct H as [[H1 H2]|[H1 (q & e & tl & H2)]].
      * left. split; [exact H1|lia].
      * right. split; [exact H1|]. exists q, e, (tl ++ [EvSql (refresh_sql cfg view_name) (Ret f)]).
        rewrite H2. reflexivity.
    + exists 1%nat, [EvSql (refresh_sql cfg view_name) (Raise e)].
      simpl. repeat split; auto; try lia.
      right. split; [eexists; reflexivity|]. eexists _, _, _. reflexivity.
Qed.

Lemma perform_table_optimization_run (P : Platform) (cfg : Config) (w : World) :
  exists results new1 new2 qs k,
    optimize_tables P cfg tables_to_optimize [] w = (Ret results, new1 ++ w) /\
    perform_table_optimization P cfg w = (Ret results, new2 ++ new1 ++ w) /\
    map optimized_table results = tables_to_optimize /\
    Forall2 (table_run cfg) results qs /\
    sql_statements new1 = List.concat qs /\
    read_paths new1 = [] /\ sleeps new1 = [] /\
    sql_statements new2 = map (refresh_sql cfg) (firstn k materialized_views) /\
    (k <= List.length materialized_views)%nat /\
    read_paths new2 = [] /\ sleeps new2 = [] /\
    (k = List.length materialized_views \/ ends_refused new2).
Proof.
  destruct (optimize_tables_run P cfg tables_to_optimize [] w)
    as (results & new1 & qs & Hopt & Hnames & Hruns & Hq & Hr & Hs).
  destruct (refresh_views_run P cfg materialized_views (new1 ++ w))
    as (k & new2 & Hw & Hq2 & Hk & Hr2 & Hs2 & H).
  exists results, new1, new2, qs, k.
  split; [exact Hopt|].
  split.
  { unfold perform_table_optimization, bind at 1. rewrite Hopt.
    unfold bind, try_except.
    destruct (refresh_views P cfg materialized_views (new1 ++ w)) as [[[]|e] w2];
      simpl in Hw; subst w2; reflexivity. }
  repeat split; auto.
  destruct H as [[_ H]|[_ H]]; [left|right]; exact H.
Qed.

(** X12.  [perform_table_optimization] never raises and returns exactly one
    entry per table of its list, in the order of the list, whichever
    statements the warehouse refuses: a SUCCESS entry carries a duration and
    no error, a FAILED entry an error and no duration.  The entries are those
    of the table loop alone: refreshing the materialized views afterwards,
    failing or not, changes none of them.  No file is read and the function
    never sleeps. *)
Theorem every_table_gets_an_optimization_entry
    (P : Platform) (cfg : Config) (w : World) :
  exists results new,
    perform_table_optimization P cfg w = (Ret results, new ++ w) /\
    map optimized_table results =
      [ "query_performance_raw"; "query_patterns"; "optimization_tracking";
        "performance_baselines" ]%string /\
    Forall optimization_entry results /\
    fst (optimize_tables P cfg tables_to_optimize [] w) = Ret results /\
    read_paths new = [] /\ sleeps new = [].
Proof.
  destruct (perform_table_optimization_run P cfg w)
    as (results & new1 & new2 & qs & k & Hopt & Hrun & Hnames & Hruns & _ & Hr1
        & Hs1 & _ & _ & Hr2 & Hs2 & _).
  exists results, (new2 ++ new1).
  rewrite <- app_assoc, read_paths_app, sleeps_app, Hr1, Hr2, Hs1, Hs2, Hopt.
  repeat split; auto.
  clear -Hruns. induction Hruns as [|o q os qs' [Ho _] _ IH]; constructor; auto.
Qed.

Lemma optimize_table_detail (P : Platform) (cfg : Config) (table : string)
    (acc : list OptimizationOutcome) (w : World) :
  exists o seg,
    optimize_tables P cfg [table] acc w = (Ret (acc ++ [o]), seg ++ w) /\
    table_optimized P cfg table w seg o.
Proof.
  simpl optimize_tables.
  unfold try_except, bind, spark_sql, now, ret.
  match goal with
  | |- context [engine_sql P ?h ?q] =>
      destruct (engine_sql P h q) as [f|e] eqn:Eo
  end.
  - match goal with
    | |- context [engine_sql P ?h ?q] =>
        destruct (engine_sql P h q) as [g|e] eqn:Ea
    end.
    + eexists. eexists [_; _; _; _]. split; [reflexivity|].
      exact (optimized_and_analyzed P cfg table w f g Eo Ea).
    + eexists. eexists [_; _; _; _]. split; [reflexivity|].
      exact (analyze_refused P cfg table w f e Eo Ea).
  - eexists. eexists [_; _]. split; [reflexivity|].
    exact (optimize_refused P cfg table w e Eo).
Qed.

Lemma optimize_tables_detail (P : Platform) (cfg : Config) (tables : list string) :
  forall (acc : list OptimizationOutcome) (w : World),
  exists outs new,
    optimize_tables P cfg tables acc w = (Ret (acc ++ outs), new ++ w) /\
    tables_optimized P cfg w tables new outs.
Proof.
  induction tables as [|table rest IH]; intros acc w.
  - exists [], []. simpl. unfold ret. rewrite app_nil_r.
    split; [reflexivity|constructor].
  - rewrite optimize_tables_cons. unfold bind.
    destruct (optimize_table_detail P cfg table acc w) as (o & seg & -> & Ho).
    destruct (IH (acc ++ [o]) (seg ++ w)) as (outs & later & -> & Hrest).
    exists (o :: outs), (later ++ seg). rewrite <- !app_assoc.
    split; [reflexivity|]. econstructor; eauto.
Qed.

Lemma refresh_views_detail (P : Platform) (cfg : Config) (views : list string) :
  forall w : World,
  exists res new,
    refresh_views P cfg views w = (res, new ++ w) /\
    views_refreshed P cfg w views new.
Proof.
  induction views as [|view rest IH]; intros w.
  - exists (Ret tt), []. split; [reflexivity|constructor].
  - rewrite refresh_views_cons. unfold refresh_sql.
    destruct (engine_sql P w _) as [f|e] eqn:E.
    + destruct (IH (EvSql ("REFRESH MATERIALIZED VIEW " ++ CATALOG cfg ++ "."
                            ++ SCHEMA cfg ++ "." ++ view)%string (Ret f) :: w))
        as (res & later & Er & Hr).
      exists res, (later ++ [EvSql ("REFRESH MATERIALIZED VIEW " ++ CATALOG cfg
                                     ++ "." ++ SCHEMA cfg ++ "." ++ view)%string
                              (Ret f)]).
      rewrite <- app_assoc.
      split; [exact Er|]. exact (refreshed_next P cfg w view rest f later E Hr).
    + eexists. eexists [_]. split; [reflexivity|].
      exact (refreshed_refused P cfg w view rest e E).
Qed.

(** X13.  The statements [perform_table_optimization] submits are decided
    by the answers of the warehouse.  Table by table: [OPTIMIZE], then
    [ANALYZE TABLE] exactly when [OPTIMIZE] was accepted, with a SUCCESS
    entry exactly when both were; every table has its turn.  Then
    [REFRESH MATERIALIZED VIEW], view by view in list order, up to and
    including the first one the warehouse refuses: the views after it are
    not refreshed, and the refusal changes neither the entries nor the
    fact that the function returns. *)
Theorem view_refresh_stops_at_the_first_refusal
    (P : Platform) (cfg : Config) (w : World) :
  exists results table_events view_events,
    perform_table_optimization P cfg w
    = (Ret results, view_events ++ table_events ++ w) /\
    tables_optimized P cfg w
      [ "query_performance_raw"; "query_patterns"; "optimization_tracking";
        "performance_baselines" ]%string
      table_events results /\
    views_refreshed P cfg (table_events ++ w)
      [ "mv_hourly_performance"; "mv_daily_performance";
        "mv_pattern_performance"; "mv_user_performance";
        "mv_performance_alerts" ]%string
      view_events.
Proof.
  destruct (optimize_tables_detail P cfg tables_to_optimize [] w)
    as (results & new1 & Hopt & Ht).
  destruct (refresh_views_detail P cfg materialized_views (new1 ++ w))
    as (res & new2 & Hv & Hr).
  exists results, new1, new2.
  split; [|split; [exact Ht|exact Hr]].
  unfold perform_table_optimization, bind at 1. rewrite Hopt.
  unfold bind, try_except. rewrite Hv.
  destruct res as [[]|e]; reflexivity.
Qed.
(** ** Post-execution validation *)

Lemma check_table_health_run (P : Platform) (cfg : Config) (table : string)
    (schema_name : option string) (w : World) :
  exists h new,
    check_table_health P cfg table schema_name w = (Ret h, new ++ w) /\
    health_table_name h = table /\
    (health_passed h \/ health_failed h).
Proof.
  unfold check_table_health, try_except, bind, spark_sql, collect, now, ret,
    raise, health_passed, health_failed.
  repeat match goal with
         | |- context [engine_sql ?P ?w ?q] => destruct (engine_sql P w q) as [[|]|]
         | |- context [engine_collect ?P ?w] =>
             destruct (engine_collect P w) as [[|? ?]|]
         | |- context [col_latest_created_at ?r] =>
             destruct (col_latest_created_at r) eqn:?
         end;
    simpl;
    match goal with
    | |- exists h new, (Ret ?x, ?l) = _ /\ _ =>
        let seg := segment_of l w in exists x, seg
    end;
    simpl; (split; [reflexivity|]); (split; [reflexivity|]);
    first [left; reflexivity | right; reflexivity].
Qed.

Lemma health_checks_run (P : Platform) (cfg : Config) (tables : list string) :
  forall (acc : list HealthRecord) (w : World),
  exists hs new,
    health_checks P cfg tables acc w = (Ret (acc ++ hs), new ++ w) /\
    map health_table_name hs = tables /\
    Forall (fun h => health_passed h \/ health_failed h) hs.
Proof.
  induction tables as [|table rest IH]; intros acc w.
  - exists [], []. simpl. unfold ret. rewrite app_nil_r. auto.
  - simpl health_checks. unfold bind at 1.
    destruct (check_table_health_run P cfg table None w)
      as (h & new1 & -> & Hname & Hst).
    destruct (IH (acc ++ [h]) (new1 ++ w)) as (hs & new2 & -> & Hnames & Hsts).
    exists (h :: hs), (new2 ++ new1).
    rewrite <- !app_assoc. simpl. rewrite Hname, Hnames. auto.
Qed.

Lemma filter_nil_iff {A} (f : A -> bool) (l : list A) :
  filter f l = [] <-> Forall (fun x => f x = false) l.
Proof.
  induction l as [|x l IH]; simpl.
  - split; auto.
  - destruct (f x) eqn:E; split; intros H.
    + discriminate.
    + inversion H; congruence.
    + constructor; [exact E|apply IH, H].
    + inversion H; apply IH; assumption.
Qed.
Lemma validation_verdict (hs : list HealthRecord) (c : QualityCheck) :
  Forall (fun h => health_passed h \/ health_failed h) hs ->
  let overall :=
    match filter (fun h => (health_status h =? "FAILED")%string) hs,
          filter (fun q => (quality_status q =? "FAILED")%string) [c] with
    | [], [] => "SUCCESS"%string
    | _, _ => "FAILED"%string
    end in
  (Some overall = Some "FAILED"%string <->
   Exists health_failed hs \/ quality_failed c) /\
  (Some overall = Some "SUCCESS"%string <->
   Forall health_passed hs /\ ~ quality_failed c).
Proof.
  intros Hsts.
  assert (Hh : filter (fun h => (health_status h =? "FAILED")%string) hs = [] <->
               Forall health_passed hs).
  { rewrite filter_nil_iff. clear -Hsts. unfold health_passed, health_failed in *.
    induction Hsts as [|h hs' [H|H] _ IH]; split; intros HF; try constructor;
      inversion HF; subst; try tauto.
    - rewrite H. reflexivity.
    - rewrite H in *. discriminate.
    - rewrite H in *. discriminate. }
  assert (Hq' : (quality_status c =? "FAILED")%string = true <-> quality_failed c).
  { destruct c as [q|e]; simpl.
    - apply String.eqb_eq.
    - split; auto. }
  assert (He : Exists health_failed hs <-> ~ Forall health_passed hs).
  { clear -Hsts. unfold health_passed, health_failed in *.
    induction Hsts as [|h hs' [H|H] _ IH]; split; intros HF.
    - inversion HF.
    - exfalso. apply HF. constructor.
    - intros HA. inversion HA; subst. inversion HF; subst.
      + rewrite H in *. discriminate.
      + apply IH in H1; auto.
    - apply Exists_cons_tl. apply IH. intros HA. apply HF. constructor; auto.
    - intros HA. inversion HA; subst. rewrite H in *. discriminate.
    - apply Exists_cons_hd. exact H. }
  cbn [filter].
  destruct (filter (fun h => (health_status h =? "FAILED")%string) hs) as [|h0 tl] eqn:Ef.
  - assert (HF : Forall health_passed hs) by (apply Hh; reflexivity).
    destruct (quality_status c =? "FAILED")%string eqn:Es.
    + assert (quality_failed c) by (apply Hq'; reflexivity).
      split; split; intros; try tauto; try discriminate; try reflexivity.
    + assert (~ quality_failed c).
      { intros Heq. apply Hq' in Heq. discriminate. }
      split; split; intros; try discriminate; try reflexivity; try tauto.
  - assert (HF : ~ Forall health_passed hs).
    { intros HA. apply Hh in HA. discriminate. }
    split; split; intros; try discriminate; try tauto.
Qed.

(** X14.  [validate_pipeline_results] never raises.  It returns one health
    record per key table, in the order of the list, and exactly one quality
    check: the executor's outcome for the data-quality script, or, when
    that call raised because a sleep was refused, the message of the
    exception, recorded by the [except] branch.  Its overall status is
    FAILED exactly when some health record or the quality check failed,
    and SUCCESS exactly when every health record is a SUCCESS and the
    quality check did not fail; a quality outcome that is still PENDING
    therefore passes.  The start time is the clock at the call and the end
    time the last clock read. *)
Theorem validation_fails_iff_a_check_failed
    (P : Platform) (cfg : Config) (w : World) :
  exists v new res h h' c,
    validate_pipeline_results P cfg w = (Ret v, new ++ w) /\
    map health_table_name (table_health_checks v) =
      [ "query_performance_raw"; "query_patterns"; "optimization_tracking";
        "performance_baselines" ]%string /\
    execute_sql_script P cfg "../validation/data_quality_tests.sql"
      "Data quality validation tests" None h = (res, h') /\
    (delays_fit P cfg (MAX_RETRY_ATTEMPTS cfg) -> exists q, res = Ret q) /\
    data_quality_checks v = [c] /\
    match res with
    | Ret q =>
        c = quality_outcome q /\
        subject q = script "../validation/data_quality_tests.sql"
    | Raise e => c = quality_error e /\ exists s, sleep_refused P s e
    end /\
    validation_start_time v = clock P w /\
    (exists t rest, new = EvNow t :: rest /\ validation_end_time v = Some t) /\
    (validation_overall_status v = Some "FAILED"%string <->
     Exists health_failed (table_health_checks v) \/ quality_failed c) /\
    (validation_overall_status v = Some "SUCCESS"%string <->
     Forall health_passed (table_health_checks v) /\ ~ quality_failed c).
Proof.
  unfold validate_pipeline_results, bind at 1, now.
  unfold bind at 1.
  destruct (health_checks_run P cfg key_tables [] (EvNow (clock P w) :: w))
    as (hs & new1 & -> & Hnames & Hsts).
  simpl app at 1.
  unfold bind at 1, try_except, bind at 1.
  destruct (script_outcome P cfg "../validation/data_quality_tests.sql"
              "Data quality validation tests" (new1 ++ EvNow (clock P w) :: w))
    as (res & new2 & Hq & Hret & Hres).
  rewrite Hq.
  destruct res as [q|e].
  - unfold ret at 1. unfold bind, now, ret.
    eexists _, (EvNow _ :: new2 ++ new1 ++ [EvNow (clock P w)]), (Ret q), _, _,
      (quality_outcome q).
    split.
    { simpl. rewrite <- !app_assoc. simpl. reflexivity. }
    cbn [table_health_checks data_quality_checks validation_start_time
         validation_end_time validation_overall_status app].
    split; [exact Hnames|]. split; [exact Hq|]. split; [exact Hret|].
    split; [reflexivity|]. split; [split; [reflexivity|apply Hres]|].
    split; [reflexivity|].
    split; [eexists _, _; split; reflexivity|].
    exact (validation_verdict hs (quality_outcome q) Hsts).
  - unfold ret at 1. unfold bind, now, ret.
    eexists _, (EvNow _ :: new2 ++ new1 ++ [EvNow (clock P w)]), (Raise e), _, _,
      (quality_error e).
    split.
    { simpl. rewrite <- !app_assoc. simpl. reflexivity. }
    cbn [table_health_checks data_quality_checks validation_start_time
         validation_end_time validation_overall_status app].
    split; [exact Hnames|]. split; [exact Hq|]. split; [exact Hret|].
    split; [reflexivity|]. split; [split; [reflexivity|exact Hres]|].
    split; [reflexivity|].
    split; [eexists _, _; split; reflexivity|].
    exact (validation_verdict hs (quality_error e) Hsts).
Qed.

(** ** The shapes of a pipeline summary *)

Lemma count_status_app (st : string) (a b : list ExecutionOutcome) :
  count_status st (a ++ b) = count_status st a + count_status st b.
Proof. unfold count_status. rewrite filter_app, length_app. lia. Qed.

Lemma count_status_every (st st' : string) (rs : list ExecutionOutcome) :
  every_status st rs ->
  count_status st' rs
  = if (st =? st')%string then Z.of_nat (List.length rs) else 0.
Proof.
  unfold count_status. induction 1 as [|r rs Hr _ IH]; simpl.
  - destruct (st =? st')%string; reflexivity.
  - rewrite Hr. destruct (st =? st')%string eqn:E; simpl; lia.
Qed.

Lemma pending_outcomes (cfg : Config) (steps : list PipelineStep)
    (outs : list ExecutionOutcome) :
  MAX_RETRY_ATTEMPTS cfg <= 0 ->
  Forall2 (step_outcome cfg) steps outs -> every_status "PENDING" outs.
Proof.
  intros Hle. induction 1 as [|step r steps outs (_ & _ & [(_ & H)|(H & _)]) _ IH];
    constructor; auto; lia.
Qed.

Lemma passed_outcomes (cfg : Config) (steps : list PipelineStep)
    (outs : list ExecutionOutcome) :
  1 <= MAX_RETRY_ATTEMPTS cfg ->
  Forall (fun step => step_required step = true) steps ->
  Forall2 (step_outcome cfg) steps outs ->
  Forall2 step_passed steps outs ->
  every_status "SUCCESS" outs.
Proof.
  intros Hge Hreq Ho. revert Hreq.
  induction Ho as [|step r steps outs (_ & _ & [(H & _)|(_ & H)]) _ IH];
    intros Hreq Hp; [constructor|lia|].
  inversion Hreq; subst. inversion Hp; subst.
  constructor; [|apply IH; assumption].
  destruct H as [H|H]; [exact H|]. exfalso.
  match goal with
  | Hs : step_passed _ _ |- _ => apply Hs; assumption
  end.
Qed.

Lemma steps_all_required :
  Forall (fun step => step_required step = true) pipeline_steps.
Proof. repeat constructor. Qed.


Lemma nth_error_prefix {A} (l1 l2 : list A) (i : nat) :
  (i < List.length l1)%nat -> nth_error (l1 ++ l2) i = nth_error l1 i.
Proof. intros H. apply nth_error_app1. exact H. Qed.

Lemma nth_error_last {A} (l : list A) (x : A) :
  nth_error (l ++ [x]) (Nat.pred (List.length (l ++ [x]))) = Some x.
Proof.
  rewrite length_app. simpl.
  replace (Nat.pred (List.length l + 1)) with (List.length l) by lia.
  rewrite nth_error_app2 by lia. now rewrite Nat.sub_diag.
Qed.

(** X16.  The outcomes of a returned pipeline summary follow the step
    list: the outcome at position [i] is the one of the script and
    description of step [i], and a fifth outcome, when there is one, is
    that of the incremental ETL command.  When the summary carries an
    error, the error names the description of the step of the last
    outcome, that outcome is FAILED, and after the executor call that
    produced it the run only added a clock read, the ERROR notification
    with that message, and the two clock reads of the end time and of the
    total time: no later step and no ETL call was started. *)
Theorem outcomes_follow_the_step_list
    (P : Platform) (cfg : Config) (w : World) :
  exists res w',
    execute_pipeline P cfg w = (res, w') /\
    (delays_fit P cfg (MAX_RETRY_ATTEMPTS cfg) -> window_fits P cfg ->
     exists s, res = Ret s) /\
    forall s, res = Ret s ->
    pipeline_start_time s = clock P w /\
    (forall i step r,
       nth_error pipeline_steps i = Some step ->
       nth_error (results s) i = Some r ->
       subject r = script (step_script step) /\
       description r = step_description step) /\
    (forall r,
       nth_error (results s) 4 = Some r ->
       description r = etl_description /\
       exists text, subject r = command text) /\
    (forall error,
       pipeline_error s = Some error ->
       exists step r t1 t2 t3 w0 wr,
         nth_error pipeline_steps (Nat.pred (List.length (results s)))
           = Some step /\
         nth_error (results s) (Nat.pred (List.length (results s))) = Some r /\
         status r = "FAILED"%string /\
         error = required_step_failed step /\
         execute_sql_script P cfg (step_script step) (step_description step)
           None w0 = (Ret r, wr) /\
         w' = [EvNow t3; EvNow t2; EvNotify "ERROR" error; EvNow t1] ++ wr /\
         pipeline_end_time s = t2 /\
         total_execution_time s = Some (t3 - clock P w)).
Proof.
  rewrite execute_pipeline_unfold.
  destruct (run_steps_detail P cfg (clock P w) pipeline_steps []
              (pipeline_started P w)) as (res & w1 & E & Hret & Hres).
  rewrite E. destruct res as [[s|rs]|e].
  - (* aborted *)
    destruct Hres as (outs & r & passed & step & rest & t2 & t3 & w2 &
                      Hsteps & Ho & Hp & Ho' & Hreq & Hst & Hs & Hw
                      & t1 & w0 & wr & Hw2 & Hex).
    exists (Ret s), w1. split; [reflexivity|]. split; [eauto|].
    intros s' Hs'. inversion Hs'; subst s'.
    assert (Hall : Forall2 (step_outcome cfg) (passed ++ [step]) (outs ++ [r])).
    { apply Forall2_app; [exact Ho|]. constructor; [exact Ho'|constructor]. }
    assert (Hlen : List.length (outs ++ [r]) = List.length (passed ++ [step])).
    { symmetry. exact (Forall2_length Hall). }
    assert (Hcut : pipeline_steps = (passed ++ [step]) ++ rest).
    { rewrite Hsteps, <- app_assoc. reflexivity. }
    assert (H4 : (List.length (outs ++ [r]) <= 4)%nat).
    { rewrite Hlen. change 4%nat with (List.length pipeline_steps).
      rewrite Hcut, (length_app (passed ++ [step])). lia. }
    subst s. simpl results. simpl pipeline_start_time. simpl pipeline_error.
    simpl pipeline_end_time. simpl total_execution_time.
    split; [reflexivity|]. split; [|split].
    + intros i st r' Hst' Hr'.
      assert (Hi : (i < List.length (passed ++ [step]))%nat).
      { rewrite <- Hlen. apply nth_error_Some. congruence. }
      rewrite Hcut, nth_error_prefix in Hst' by exact Hi.
      destruct (Forall2_nth_error _ _ _ Hall i st r' Hst' Hr') as (H1 & H2 & _).
      split; assumption.
    + intros r' Hr'.
      assert (4 < List.length (outs ++ [r]))%nat
        by (apply nth_error_Some; congruence).
      lia.
    + intros error Herr. inversion Herr; subst error.
      exists step, r, t1, t2, t3, w0, wr.
      split.
      { rewrite Hlen, Hcut, nth_error_prefix.
        - apply nth_error_last.
        - rewrite length_app. simpl. lia. }
      split; [apply nth_error_last|].
      split; [exact Hst|]. split; [reflexivity|]. split; [exact Hex|].
      split; [rewrite Hw, Hw2; reflexivity|]. split; reflexivity.
  - (* every step ran *)
    destruct Hres as (outs & -> & Ho & Hp). simpl app.
    destruct (complete_pipeline_detail P cfg (clock P w) outs w1)
      as (res & w' & Ec & Hretc & Hresc).
    rewrite Ec. exists res, w'. split; [reflexivity|]. split; [exact Hretc|].
    intros s ->.
    destruct Hresc as (etl & t & w'' & Hs & Hw & Hde & Hsu & _). subst s.
    cbn [results pipeline_start_time pipeline_error].
    assert (Hlen : List.length outs = 4%nat)
      by (rewrite <- (Forall2_length Ho); reflexivity).
    split; [reflexivity|]. split; [|split].
    + intros i st r' Hst' Hr'.
      assert (Hi : (i < List.length outs)%nat).
      { rewrite Hlen. change 4%nat with (List.length pipeline_steps).
        apply nth_error_Some. congruence. }
      rewrite nth_error_prefix in Hr' by exact Hi.
      destruct (Forall2_nth_error _ _ _ Ho i st r' Hst' Hr') as (H1 & H2 & _).
      split; assumption.
    + intros r' Hr'. rewrite nth_error_app2 in Hr' by lia.
      rewrite Hlen in Hr'. simpl in Hr'. inversion Hr'; subst r'.
      split; assumption.
    + intros error Herr. discriminate.
  - exists (Raise e), w1. split; [reflexivity|]. split.
    + intros Hfit _. destruct (Hret Hfit) as (v & Hv). discriminate.
    + intros s Hs. discriminate.
Qed.
(** ** A retry budget of zero *)

Lemma script_no_budget (P : Platform) (cfg : Config) (path desc : string)
    (w : World) :
  MAX_RETRY_ATTEMPTS cfg <= 0 ->
  execute_sql_script P cfg path desc None w
  = (Ret (initial_outcome (script path) desc (clock P w)),
     EvNow (clock P w) :: w).
Proof.
  intros Hle. rewrite execute_sql_script_unfold. simpl default_retries.
  replace (Z.to_nat (MAX_RETRY_ATTEMPTS cfg)) with 0%nat by lia. reflexivity.
Qed.

Lemma command_no_budget (P : Platform) (cfg : Config) (cmd desc : string)
    (w : World) :
  MAX_RETRY_ATTEMPTS cfg <= 0 ->
  execute_sql_command P cfg cmd desc None w
  = (Ret (initial_outcome (command (display_command cmd)) desc (clock P w)),
     EvNow (clock P w) :: w).
Proof.
  intros Hle. rewrite execute_sql_command_unfold. simpl default_retries.
  replace (Z.to_nat (MAX_RETRY_ATTEMPTS cfg)) with 0%nat by lia. reflexivity.
Qed.

Lemma run_steps_no_budget (P : Platform) (cfg : Config) (start : Z)
    (steps : list PipelineStep) :
  MAX_RETRY_ATTEMPTS cfg <= 0 ->
  forall (acc : list ExecutionOutcome) (w : World),
  exists outs new,
    run_steps P cfg start steps acc w = (Ret (inr (acc ++ outs)), new ++ w) /\
    List.length outs = List.length steps /\
    Forall untouched outs /\
    read_paths new = [] /\ sql_statements new = [] /\ sleeps new = [].
Proof.
  intros Hle. induction steps as [|step rest IH]; intros acc w.
  - exists [], []. simpl. unfold ret. rewrite app_nil_r. repeat split; constructor.
  - rewrite run_steps_cons, script_no_budget by exact Hle.
    simpl status. rewrite andb_false_r.
    destruct (IH (acc ++ [initial_outcome (script (step_script step))
                            (step_description step) (clock P w)])
                (EvNow (clock P w) :: w))
      as (outs & new & -> & Hlen & Hun & Hr & Hq & Hs).
    eexists (_ :: outs), (new ++ [EvNow (clock P w)]).
    rewrite <- !app_assoc, read_paths_app, sql_statements_app, sleeps_app,
      Hr, Hq, Hs.
    simpl. split; [reflexivity|]. split; [lia|].
    split; [|repeat split].
    constructor; [repeat split|exact Hun].
Qed.

(** X17.  With [MAX_RETRY_ATTEMPTS <= 0], and an incremental window that
    fits, the pipeline does nothing and reports SUCCESS: no script is
    opened, no statement is submitted to the warehouse, nothing sleeps; the
    summary counts 0 completed and 0 failed steps out of 5, and each of its
    five outcomes is as created (PENDING, no attempt, no end time, no
    error, no rows). *)
Theorem no_retry_budget_reports_success_without_running
    (P : Platform) (cfg : Config) (w : World) :
  MAX_RETRY_ATTEMPTS cfg <= 0 ->
  window_fits P cfg ->
  exists s new,
    execute_pipeline P cfg w = (Ret s, new ++ w) /\
    completed_summary s "SUCCESS" 0 0 /\
    Forall untouched (results s) /\
    read_paths new = [] /\ sql_statements new = [] /\ sleeps new = [].
Proof.
  intros Hle (window & Hwin & Hclock). rewrite execute_pipeline_unfold.
  destruct (run_steps_no_budget P cfg (clock P w) pipeline_steps Hle []
              (pipeline_started P w))
    as (outs & new & -> & Hlen & Hun & Hr & Hq & Hs).
  simpl app at 1.
  unfold complete_pipeline. unfold bind at 1. unfold now at 1. cbv zeta.
  unfold bind at 1. unfold lift at 1. rewrite Hwin.
  unfold bind at 1. unfold lift at 1.
  rewrite (datetime_sub_fits _ _ (Hclock (new ++ pipeline_started P w))).
  unfold bind at 1. rewrite command_no_budget by exact Hle.
  unfold bind, now, ret.
  assert (Hst : every_status "PENDING" outs).
  { clear -Hun. induction Hun as [|r rs (H & _) _ IH]; constructor; auto. }
  eexists.
  exists ([EvNow (clock P (EvNow (clock P (EvNow (clock P (new ++ pipeline_started P w))
                                         :: new ++ pipeline_started P w))
                           :: EvNow (clock P (new ++ pipeline_started P w))
                           :: new ++ pipeline_started P w));
           EvNow (clock P (EvNow (clock P (new ++ pipeline_started P w))
                           :: new ++ pipeline_started P w));
           EvNow (clock P (new ++ pipeline_started P w))]
          ++ new
          ++ [EvNotify "INFO" "Starting query optimization pipeline execution";
              EvNow (clock P (EvNow (clock P w) :: w)); EvNow (clock P w)]).
  split.
  { unfold pipeline_started. rewrite <- !app_assoc. reflexivity. }
  unfold completed_summary, aggregate_status. simpl results.
  simpl pipeline_status. simpl steps_completed. simpl steps_failed.
  simpl steps_total. simpl pipeline_error.
  rewrite !count_status_app, length_app, Hlen,
    (count_status_every "PENDING" "SUCCESS" outs Hst),
    (count_status_every "PENDING" "FAILED" outs Hst).
  rewrite !read_paths_app, !sql_statements_app, !sleeps_app, Hr, Hq, Hs.
  simpl. repeat split.
  apply Forall_app. split; [exact Hun|]. repeat constructor.
Qed.

Lemma no_retry_budget_reports_success_without_running_witness :
  exists s new,
    execute_pipeline healthy_platform no_budget_config [] = (Ret s, new ++ []) /\
    pipeline_status s = Some "SUCCESS"%string /\
    steps_completed s = Some 0 /\
    sql_statements new = [].
Proof.
  assert (Hle : MAX_RETRY_ATTEMPTS no_budget_config <= 0) by (simpl; lia).
  assert (Hwin : window_fits healthy_platform no_budget_config)
    by (apply ticking_window_fits; reflexivity).
  destruct (no_retry_budget_reports_success_without_running healthy_platform
              no_budget_config [] Hle Hwin)
    as (s & new & E & (Hs & Hc & _) & _ & _ & Hq & _).
  exists s, new. repeat split; assumption.
Defined.

(** ** The report of a run *)

Lemma pipeline_counts (P : Platform) (cfg : Config) (w : World) :
  exists res w',
    execute_pipeline P cfg w = (res, w') /\
    (delays_fit P cfg (MAX_RETRY_ATTEMPTS cfg) -> window_fits P cfg ->
     exists s, res = Ret s) /\
    (forall e, res = Raise e ->
       timedelta_hours (INCREMENTAL_WINDOW_HOURS cfg) = Raise e \/
       (exists t window,
          timedelta_hours (INCREMENTAL_WINDOW_HOURS cfg) = Ret window /\
          datetime_sub t window = Raise e) \/
       (exists seconds, sleep_refused P seconds e)) /\
    forall s, res = Ret s ->
    ((pipeline_error s = None /\
      (pipeline_status s = Some "SUCCESS"%string \/
       pipeline_status s = Some "PARTIAL_SUCCESS"%string) /\
      steps_total s = Some 5 /\
      steps_completed s = Some (count_status "SUCCESS" (results s)) /\
      0 <= count_status "SUCCESS" (results s) <= 5)
     \/
     ((exists e, pipeline_error s = Some e) /\
      pipeline_status s = Some "FAILED"%string /\
      steps_total s = Some 4 /\
      steps_completed s = Some (Z.of_nat (List.length (results s))) /\
      (1 <= List.length (results s) <= 4)%nat /\
      count_status "SUCCESS" (results s)
      = Z.of_nat (List.length (results s)) - 1)).
Proof.
  rewrite execute_pipeline_unfold.
  destruct (run_steps_detail P cfg (clock P w) pipeline_steps []
              (pipeline_started P w)) as (res & w1 & E & Hret & Hres).
  rewrite E. destruct res as [[s|rs]|e].
  - destruct Hres as (outs & r & passed & step & rest & t2 & t3 & w2 &
                      Hsteps & Ho & Hp & (_ & _ & Hok) & Hreq & Hst & Hs & Hw
                      & _).
    exists (Ret s), w1. split; [reflexivity|]. split; [eauto|].
    split; [intros e He; discriminate|].
    intros s' Hs'. inversion Hs'; subst s'. right.
    assert (Hge : 1 <= MAX_RETRY_ATTEMPTS cfg).
    { destruct Hok as [(_ & H)|(H & _)]; [|exact H].
      rewrite Hst in H. discriminate. }
    pose proof steps_all_required as Hall. rewrite Hsteps in Hall.
    apply Forall_app in Hall. destruct Hall as (Hall & _).
    assert (Hlen : (List.length outs < 4)%nat).
    { rewrite <- (Forall2_length Ho).
      assert (H4 : List.length pipeline_steps = 4%nat) by reflexivity.
      rewrite Hsteps, length_app in H4. simpl in H4. lia. }
    pose proof (passed_outcomes cfg _ _ Hge Hall Ho Hp) as Hsucc.
    subst s. simpl.
    rewrite count_status_app, (count_status_every "SUCCESS" "SUCCESS" outs Hsucc),
      length_app.
    unfold count_status. simpl. rewrite Hst. simpl.
    split; [eexists; reflexivity|].
    split; [reflexivity|]. split; [reflexivity|]. split; [reflexivity|].
    split; lia.
  - destruct Hres as (outs & -> & Ho & Hp). simpl app.
    destruct (complete_pipeline_detail P cfg (clock P w) outs w1)
      as (res & w' & Ec & Hretc & Hresc).
    rewrite Ec. exists res, w'. split; [reflexivity|]. split; [exact Hretc|].
    destruct res as [s|e].
    2:{ split; [|intros s Hs; discriminate].
        intros e' He'. inversion He'; subst e'.
        destruct Hresc as [H|[(window & Hw & Hs)|H]]; eauto 6. }
    split; [intros e He; discriminate|].
    intros s' Hs'. inversion Hs'; subst s'.
    destruct Hresc as (etl & t & w'' & Hs & Hw & _ & _ & Hok). subst s.
    left.
    assert (Hlen : List.length outs = 4%nat)
      by (rewrite <- (Forall2_length Ho); reflexivity).
    unfold aggregate_status. simpl.
    rewrite !count_status_app.
    destruct Hok as [(Hle & Hst)|(Hge & Hst)].
    + pose proof (pending_outcomes cfg _ _ Hle Ho) as Hpend.
      rewrite (count_status_every "PENDING" "SUCCESS" outs Hpend),
        (count_status_every "PENDING" "FAILED" outs Hpend).
      unfold count_status. simpl. rewrite Hst. simpl.
      rewrite length_app, Hlen. repeat split; auto; lia.
    + pose proof (passed_outcomes cfg _ _ Hge steps_all_required Ho Hp) as Hsucc.
      rewrite (count_status_every "SUCCESS" "SUCCESS" outs Hsucc),
        (count_status_every "SUCCESS" "FAILED" outs Hsucc).
      rewrite length_app, Hlen. unfold count_status. simpl.
      destruct Hst as [Hst|Hst]; rewrite Hst; simpl; repeat split; auto; lia.
  - exists (Raise e), w1. split; [reflexivity|]. split.
    { intros Hfit _. destruct (Hret Hfit) as (v & Hv). discriminate. }
    split; [|intros s Hs; discriminate].
    intros e' He'. inversion He'; subst e'.
    destruct Hres as (_ & _ & _ & _ & _ & _ & _ & _ & _ & H).
    right. right. exact H.
Qed.


Lemma report_run (P : Platform) (cfg : Config) (version : option string)
    (s : PipelineSummary) (v : ValidationResults) (w : World) :
  config_version cfg = Ret version ->
  exists report t severity message,
    generate_summary_report P cfg s v w
    = (Ret report,
       EvNotify severity message :: EvNow t :: EvNow (clock P w) :: w) /\
    report_pipeline_summary report = s /\
    report_validation_results report = v /\
    performance_metrics report = metrics_of s /\
    report_line (overall_status report) severity
      (get (pipeline_status s) "UNKNOWN")
      (get (validation_overall_status v) "UNKNOWN").
Proof.
  intros Hver.
  unfold generate_summary_report, report_line, metrics_of.
  unfold bind at 1, now at 1. cbv zeta.
  unfold bind at 1, lift at 1. rewrite Hver.
  set (ps := get (pipeline_status s) "UNKNOWN"%string).
  set (vs := get (validation_overall_status v) "UNKNOWN"%string).
  destruct (String.eqb_spec ps "SUCCESS") as [Hp|Hp];
    destruct (String.eqb_spec vs "SUCCESS") as [Hv|Hv];
    destruct (String.eqb_spec ps "PARTIAL_SUCCESS") as [Hpp|Hpp];
    destruct (String.eqb_spec vs "FAILED") as [Hvf|Hvf];
    simpl andb; simpl orb; cbv iota;
    unfold bind, send_notification, bind, now, ret;
    eexists; eexists; eexists; eexists;
    (split; [reflexivity|]); simpl;
    (split; [reflexivity|]); (split; [reflexivity|]); (split; [reflexivity|]);
    try (left; repeat split; assumption);
    try (right; left; repeat split; tauto);
    try (right; right; repeat split; tauto).
Qed.




(** X19.  The metrics of a report never divide by zero: whatever summary
    the reporter is given, a missing, zero or negative "steps_total"
    included, both denominators are at least 1.  For a summary returned by
    [execute_pipeline] the success rate lies between 0 and 1; it is the
    number of SUCCESS outcomes over 5 for a run that went through, and over
    4 for an aborted one the number of outcomes recorded, that is the
    SUCCESS outcomes plus the FAILED step itself, so an aborted run never
    has a success rate of 0.  (The reporter returns when the version lookup
    of line 609 succeeds.) *)
Theorem success_rate_counts_the_failed_step
    (P : Platform) (cfg : Config) (w : World) :
  (forall version s v w0,
     config_version cfg = Ret version ->
     exists report w1,
       generate_summary_report P cfg s v w0 = (Ret report, w1) /\
       1 <= denominator (success_rate (performance_metrics report)) /\
       1 <= denominator (avg_step_time_seconds (performance_metrics report))) /\
  exists res w1,
    execute_pipeline P cfg w = (res, w1) /\
    (delays_fit P cfg (MAX_RETRY_ATTEMPTS cfg) -> window_fits P cfg ->
     exists s, res = Ret s) /\
    forall s version v w2,
    res = Ret s ->
    config_version cfg = Ret version ->
    exists report w3,
      generate_summary_report P cfg s v w2 = (Ret report, w3) /\
      0 <= numerator (success_rate (performance_metrics report))
        <= denominator (success_rate (performance_metrics report)) /\
      (pipeline_error s = None ->
       denominator (success_rate (performance_metrics report)) = 5 /\
       numerator (success_rate (performance_metrics report))
       = count_status "SUCCESS" (results s)) /\
      (pipeline_error s <> None ->
       denominator (success_rate (performance_metrics report)) = 4 /\
       numerator (success_rate (performance_metrics report))
       = count_status "SUCCESS" (results s) + 1).
Proof.
  split.
  - intros version s v w0 Hver.
    destruct (report_run P cfg version s v w0 Hver)
      as (report & t & severity & message & -> & _ & _ & Hm & _).
    eexists. eexists. split; [reflexivity|]. rewrite Hm. simpl. lia.
  - destruct (pipeline_counts P cfg w) as (res & w1 & E & Hret & _ & Hs).
    exists res, w1. split; [exact E|]. split; [exact Hret|].
    intros s version v w2 -> Hver. specialize (Hs s eq_refl).
    destruct (report_run P cfg version s v w2 Hver)
      as (report & t & severity & message & -> & _ & _ & Hm & _).
    eexists. eexists. split; [reflexivity|]. rewrite Hm. simpl.
    destruct Hs as [(He & _ & Ht & Hc & Hb)|((e & He) & _ & Ht & Hc & Hb & Hn)];
      rewrite Ht, Hc, He; simpl.
    + split; [lia|]. split; [intros _; split; [lia|reflexivity]|].
      intros H; contradiction.
    + split; [lia|]. split; [intros H; discriminate|].
      intros _. split; lia.
Qed.

(** ** A run on a healthy platform *)

Lemma healthy_script (P : Platform) (cfg : Config) (path desc : string)
    (w : World) :
  healthy P -> 1 <= MAX_RETRY_ATTEMPTS cfg ->
  exists r new,
    execute_sql_script P cfg path desc None w = (Ret r, new ++ w) /\
    first_try r /\ sleeps new = [].
Proof.
  intros (Hread & Hsql & Hcol) Hge.
  rewrite execute_sql_script_unfold. simpl default_retries.
  destruct (Z.to_nat (MAX_RETRY_ATTEMPTS cfg)) as [|m] eqn:Em; [lia|].
  simpl seq. simpl map. simpl retry_loop.
  unfold try_except, script_attempt, bind at 1, read_file.
  destruct (Hread (EvNow (clock P w) :: w) path) as (text & ->).
  cbv zeta. unfold bind at 1, spark_sql. rewrite Hsql. cbv zeta.
  unfold record_success, collect, bind at 1, bind at 1.
  match goal with
  | |- context [engine_collect P ?h] => destruct (Hcol h) as (row & rows & ->)
  end.
  unfold bind, now, ret. cbv zeta.
  eexists. eexists ([_; _; _; _; _]). split; [reflexivity|].
  split; [|reflexivity].
  unfold first_try. simpl. repeat split; lia.
Qed.

Lemma healthy_command (P : Platform) (cfg : Config) (cmd desc : string)
    (w : World) :
  healthy P -> 1 <= MAX_RETRY_ATTEMPTS cfg ->
  exists r new,
    execute_sql_command P cfg cmd desc None w = (Ret r, new ++ w) /\
    first_try r /\ sleeps new = [].
Proof.
  intros (Hread & Hsql & Hcol) Hge.
  rewrite execute_sql_command_unfold. simpl default_retries.
  destruct (Z.to_nat (MAX_RETRY_ATTEMPTS cfg)) as [|m] eqn:Em; [lia|].
  simpl seq. simpl map. simpl retry_loop.
  unfold try_except, command_attempt, bind at 1, spark_sql. rewrite Hsql.
  cbv zeta.
  unfold record_success, collect, bind at 1, bind at 1.
  match goal with
  | |- context [engine_collect P ?h] => destruct (Hcol h) as (row & rows & ->)
  end.
  unfold bind, now, ret. cbv zeta.
  eexists. eexists ([_; _; _; _]). split; [reflexivity|].
  split; [|reflexivity].
  unfold first_try. simpl. repeat split; lia.
Qed.

Lemma healthy_run_steps (P : Platform) (cfg : Config) (start : Z)
    (steps : list PipelineStep) :
  healthy P -> 1 <= MAX_RETRY_ATTEMPTS cfg ->
  forall (acc : list ExecutionOutcome) (w : World),
  exists outs new,
    run_steps P cfg start steps acc w = (Ret (inr (acc ++ outs)), new ++ w) /\
    List.length outs = List.length steps /\
    Forall first_try outs /\ sleeps new = [].
Proof.
  intros HP Hge. induction steps as [|step rest IH]; intros acc w.
  - exists [], []. simpl. unfold ret. rewrite app_nil_r. repeat split; constructor.
  - rewrite run_steps_cons.
    destruct (healthy_script P cfg (step_script step) (step_description step)
                w HP Hge) as (r & new1 & -> & Hr & Hs1).
    pose proof Hr as (Hst & _). rewrite Hst. simpl String.eqb.
    rewrite andb_false_r.
    destruct (IH (acc ++ [r]) (new1 ++ w)) as (outs & new2 & -> & Hlen & Hun & Hs2).
    exists (r :: outs), (new2 ++ new1).
    rewrite <- !app_assoc, sleeps_app, Hs1, Hs2. simpl.
    repeat split; auto.
Qed.

Lemma healthy_pipeline (P : Platform) (cfg : Config) (w : World) :
  healthy P -> 1 <= MAX_RETRY_ATTEMPTS cfg -> window_fits P cfg ->
  exists s new,
    execute_pipeline P cfg w = (Ret s, new ++ w) /\
    completed_summary s "SUCCESS" 5 0 /\
    Forall first_try (results s) /\ sleeps new = [].
Proof.
  intros HP Hge (window & Hwin & Hclock). rewrite execute_pipeline_unfold.
  destruct (healthy_run_steps P cfg (clock P w) pipeline_steps HP Hge []
              (pipeline_started P w)) as (outs & new1 & -> & Hlen & Hun & Hs1).
  simpl app at 1.
  unfold complete_pipeline. unfold bind at 1. unfold now at 1. cbv zeta.
  unfold bind at 1. unfold lift at 1. rewrite Hwin.
  unfold bind at 1. unfold lift at 1.
  rewrite (datetime_sub_fits _ _ (Hclock (new1 ++ pipeline_started P w))).
  unfold bind at 1.
  match goal with
  | |- context [execute_sql_command P cfg ?cmd ?desc None ?h] =>
      destruct (healthy_command P cfg cmd desc h HP Hge)
        as (etl & new2 & -> & Hetl & Hs2)
  end.
  unfold bind, now, ret.
  assert (Hst : every_status "SUCCESS" (outs ++ [etl])).
  { apply Forall_app. split.
    - clear -Hun. induction Hun as [|r rs (H & _) _ IH]; constructor; auto.
    - constructor; [apply Hetl|constructor]. }
  eexists.
  eexists ([_] ++ new2 ++ [_] ++ new1 ++ [_; _; _]).
  split.
  { unfold pipeline_started. simpl. rewrite <- !app_assoc. simpl.
    rewrite <- !app_assoc. reflexivity. }
  unfold completed_summary, aggregate_status. simpl results.
  simpl pipeline_status. simpl steps_completed. simpl steps_failed.
  simpl steps_total. simpl pipeline_error.
  rewrite (count_status_every "SUCCESS" "SUCCESS" _ Hst),
    (count_status_every "SUCCESS" "FAILED" _ Hst).
  rewrite length_app, Hlen.
  rewrite !sleeps_app, Hs1, Hs2.
  simpl. repeat split.
  apply Forall_app. split; [exact Hun|]. constructor; [exact Hetl|constructor].
Qed.

Lemma healthy_table (P : Platform) (cfg : Config) (table : string) (w : World) :
  healthy P ->
  exists h new,
    check_table_health P cfg table None w = (Ret h, new ++ w) /\
    health_passed h /\ sleeps new = [].
Proof.
  intros (_ & Hsql & Hcol).
  unfold check_table_health, try_except, bind at 1, spark_sql.
  rewrite Hsql. cbv zeta. unfold bind at 1, collect.
  match goal with
  | |- context [engine_collect P ?h] => destruct (Hcol h) as (row0 & rows0 & ->)
  end.
  cbv zeta. unfold bind at 1. rewrite Hsql. cbv zeta. unfold bind at 1.
  match goal with
  | |- context [engine_collect P ?h] => destruct (Hcol h) as (row & rows & ->)
  end.
  cbv zeta. unfold bind at 1, ret at 1.
  destruct (col_latest_created_at row) as [created|];
    unfold bind, now, ret, health_passed.
  - eexists. eexists ([_; _; _; _; _]). repeat split.
  - eexists. eexists ([_; _; _; _]). repeat split.
Qed.

Lemma healthy_tables (P : Platform) (cfg : Config) (tables : list string) :
  healthy P ->
  forall (acc : list HealthRecord) (w : World),
  exists hs new,
    health_checks P cfg tables acc w = (Ret (acc ++ hs), new ++ w) /\
    Forall health_passed hs /\ sleeps new = [].
Proof.
  intros HP. induction tables as [|table rest IH]; intros acc w.
  - exists [], []. simpl. unfold ret. rewrite app_nil_r. auto.
  - simpl health_checks. unfold bind at 1.
    destruct (healthy_table P cfg table w HP) as (h & new1 & -> & Hh & Hs1).
    destruct (IH (acc ++ [h]) (new1 ++ w)) as (hs & new2 & -> & Hhs & Hs2).
    exists (h :: hs), (new2 ++ new1).
    rewrite <- !app_assoc, sleeps_app, Hs1, Hs2. simpl. auto.
Qed.

Lemma healthy_validation (P : Platform) (cfg : Config) (w : World) :
  healthy P -> 1 <= MAX_RETRY_ATTEMPTS cfg ->
  exists v new,
    validate_pipeline_results P cfg w = (Ret v, new ++ w) /\
    validation_overall_status v = Some "SUCCESS"%string /\
    Forall health_passed (table_health_checks v) /\
    sleeps new = [].
Proof.
  intros HP Hge.
  unfold validate_pipeline_results, bind at 1, now.
  unfold bind at 1.
  destruct (healthy_tables P cfg key_tables HP [] (EvNow (clock P w) :: w))
    as (hs & new1 & -> & Hhs & Hs1).
  simpl app at 1.
  unfold bind at 1, try_except, bind at 1.
  destruct (healthy_script P cfg quality_script "Data quality validation tests"
              (new1 ++ EvNow (clock P w) :: w) HP Hge)
    as (q & new2 & Hq & (Hst & _) & Hs2).
  unfold quality_script in Hq. rewrite Hq. unfold ret at 1.
  unfold bind, now, ret.
  eexists. eexists ([_] ++ new2 ++ new1 ++ [_]).
  split; [rewrite <- !app_assoc; reflexivity|].
  simpl. rewrite Hst. simpl.
  rewrite !sleeps_app, Hs1, Hs2. simpl.
  assert (Hf : filter (fun h => (health_status h =? "FAILED")%string) hs = []).
  { apply filter_nil_iff. clear -Hhs. unfold health_passed in Hhs.
    induction Hhs as [|h hs' H _ IH]; constructor; auto. rewrite H. reflexivity. }
  rewrite Hf. repeat split. exact Hhs.
Qed.
Lemma notebook_after_orchestration (P : Platform) (w w0 : World)
    (loaded : option RawConfig) (cfg : Config) :
  load_config P w = (Ret loaded, w0) ->
  read_constants loaded = Ret cfg ->
  notebook P w
  = bind (orchestration P cfg)
      (fun summary_report =>
         display_metrics P ;;;
         optimization_results <- perform_table_optimization P cfg ;;
         _ <- now P ;;
         _ <- now P ;;
         _ <- lift (config_version cfg) ;;
         ret (summary_report, optimization_results)) w0.
Proof.
  intros Hload Hcfg. unfold notebook. unfold bind at 1. rewrite Hload.
  unfold bind at 1. unfold lift at 1. rewrite Hcfg. reflexivity.
Qed.

(** Lines 658 to 765 when [display] accepts the metrics and the version
    lookup succeeds. *)
Lemma after_report_run (P : Platform) (cfg : Config) (version : option string)
    (report : Report) (w : World) :
  display_accepts P -> config_version cfg = Ret version ->
  exists results new,
    (display_metrics P ;;;
     optimization_results <- perform_table_optimization P cfg ;;
     _ <- now P ;;
     _ <- now P ;;
     _ <- lift (config_version cfg) ;;
     ret (report, optimization_results)) w
    = (Ret (report, results), new ++ w) /\
    map optimized_table results = tables_to_optimize /\
    read_paths new = [] /\ sleeps new = [].
Proof.
  intros Hd Hv. unfold bind at 1. unfold display_metrics. rewrite (Hd w).
  unfold bind at 1.
  destruct (perform_table_optimization_run P cfg (EvDisplay (Ret tt) :: w))
    as (results & new1 & new2 & qs & k & _ & Hrun & Hnames & _ & _ & Hr1 & Hs1
        & _ & _ & Hr2 & Hs2 & _).
  rewrite Hrun. rewrite Hv. unfold bind, now, lift, ret.
  exists results. eexists ([_; _] ++ new2 ++ new1 ++ [_]).
  split; [rewrite <- !app_assoc; reflexivity|].
  split; [exact Hnames|].
  rewrite !read_paths_app, !sleeps_app, Hr1, Hr2, Hs1, Hs2. split; reflexivity.
Qed.

Lemma healthy_orchestration (P : Platform) (cfg : Config)
    (tables : list string) (version : option string) (w : World) :
  healthy P ->
  required_tables cfg = Ret tables ->
  config_version cfg = Ret version ->
  missing_sections (CONFIG cfg) = [] ->
  1 <= MAX_RETRY_ATTEMPTS cfg ->
  window_fits P cfg ->
  exists report new message,
    orchestration P cfg w = (Ret report, EvNotify "INFO" message :: new ++ w) /\
    overall_status report = "SUCCESS"%string /\
    completed_summary (report_pipeline_summary report) "SUCCESS" 5 0 /\
    Forall first_try (results (report_pipeline_summary report)) /\
    validation_overall_status (report_validation_results report)
      = Some "SUCCESS"%string /\
    Forall health_passed
      (table_health_checks (report_validation_results report)) /\
    success_rate (performance_metrics report) = mkRatio 5 5 /\
    sleeps new = [].
Proof.
  intros HP Ht Hver Hkeys Hge Hwin.
  rewrite <- missing_keys_spec in Hkeys.
  assert (HA : answers_every_query P).
  { destruct HP as (_ & Hsql & Hcol). split; [exact Hsql|].
    intros h. destruct (Hcol h) as (row & rows & E). eauto. }
  destruct (answered_validation P cfg tables w Ht HA Hkeys) as (new0 & Ev & Hq0).
  pose proof (prerequisites_gate_run P cfg w [] new0 Ev) as Hgate.
  assert (Hs0 : sleeps new0 = []).
  { destruct (validate_prerequisites_run P cfg tables w Ht)
      as (errors & new & _ & _ & _ & E & HQ & _).
    rewrite Ev in E.
    assert (Hw : new0 ++ w = new ++ w) by congruence.
    apply app_inv_tail in Hw. subst new.
    apply (validation_reads_no_script cfg tables new0 HQ). }
  unfold orchestration. unfold bind at 1. rewrite Hgate. unfold bind at 1.
  destruct (healthy_pipeline P cfg (new0 ++ w) HP Hge Hwin)
    as (s & new1 & -> & Hsum & Hfirst & Hs1).
  unfold bind at 1.
  destruct (healthy_validation P cfg (new1 ++ new0 ++ w) HP Hge)
    as (v & new2 & -> & Hvs & Hhealth & Hs2).
  destruct (report_run P cfg version s v (new2 ++ new1 ++ new0 ++ w) Hver)
    as (report & t & severity & message & -> & Hrs & Hrv & Hm & Hline).
  pose proof Hsum as (Hps & Hc & _ & Htot & _).
  rewrite Hps, Hvs in Hline. simpl in Hline.
  destruct Hline as [(Ho & Hsev & _)|[(_ & _ & Hnot & _)|(_ & _ & Hnot & _)]];
    [|exfalso; apply Hnot; split; reflexivity
     |exfalso; apply Hnot; split; reflexivity].
  subst severity.
  exists report,
    ([EvNow t; EvNow (clock P (new2 ++ new1 ++ new0 ++ w))]
     ++ new2 ++ new1 ++ new0), message.
  split; [simpl; rewrite <- !app_assoc; reflexivity|].
  rewrite Hrs, Hrv, Hm. unfold metrics_of. rewrite Hc, Htot.
  rewrite !sleeps_app, Hs0, Hs1, Hs2. simpl.
  split; [exact Ho|]. split; [exact Hsum|]. repeat split; auto.
Qed.

(** X20.  On a healthy platform (every script can be opened, every
    statement is accepted, every result set has a row, [display] accepts
    the metrics), with a configuration that has its required sections, a
    list of required tables and a version that can be looked up, at least
    one attempt allowed and an incremental window that fits, the notebook
    runs clean from the configuration to the execution log: nothing raises
    and nothing sleeps, each of the four steps and the ETL call succeeds at
    its first attempt, the summary is SUCCESS with 5 of 5 steps, all four
    tables pass their health check, the validation is a SUCCESS, the
    success rate is 5/5, the report is SUCCESS, announced by an INFO
    notification as the last event of the run up to the report, and the
    housekeeping returns an entry for each of its tables. *)
Theorem healthy_platform_runs_clean
    (P : Platform) (w w0 : World) (loaded : option RawConfig) (cfg : Config)
    (tables : list string) (version : option string) :
  healthy P ->
  display_accepts P ->
  load_config P w = (Ret loaded, w0) ->
  read_constants loaded = Ret cfg ->
  required_tables cfg = Ret tables ->
  config_version cfg = Ret version ->
  missing_sections (CONFIG cfg) = [] ->
  1 <= MAX_RETRY_ATTEMPTS cfg ->
  window_fits P cfg ->
  exists report optimization_results new later message,
    orchestration P cfg w0
    = (Ret report, EvNotify "INFO" message :: new ++ w0) /\
    notebook P w
    = (Ret (report, optimization_results),
       later ++ EvNotify "INFO" message :: new ++ w0) /\
    overall_status report = "SUCCESS"%string /\
    completed_summary (report_pipeline_summary report) "SUCCESS" 5 0 /\
    Forall first_try (results (report_pipeline_summary report)) /\
    validation_overall_status (report_validation_results report)
      = Some "SUCCESS"%string /\
    Forall health_passed
      (table_health_checks (report_validation_results report)) /\
    success_rate (performance_metrics report) = mkRatio 5 5 /\
    map optimized_table optimization_results
    = [ "query_performance_raw"; "query_patterns"; "optimization_tracking";
        "performance_baselines" ]%string /\
    sleeps new = [] /\ sleeps later = [].
Proof.
  intros HP Hd Hload Hcfg Ht Hver Hkeys Hge Hwin.
  destruct (healthy_orchestration P cfg tables version w0 HP Ht Hver Hkeys
              Hge Hwin)
    as (report & new & message & Eo & Ho & Hsum & Hfirst & Hvs & Hh & Hrate & Hs).
  destruct (after_report_run P cfg version report
              (EvNotify "INFO" message :: new ++ w0) Hd Hver)
    as (results & later & Ea & Hnames & _ & Hsl).
  exists report, results, new, later, message.
  split; [exact Eo|]. split.
  { rewrite (notebook_after_orchestration P w w0 loaded cfg Hload Hcfg).
    unfold bind at 1. rewrite Eo. exact Ea. }
  repeat (split; [assumption|]). exact Hsl.
Qed.

Lemma healthy_platform_runs_clean_witness :
  exists report optimization_results w',
    notebook healthy_platform [] = (Ret (report, optimization_results), w') /\
    overall_status report = "SUCCESS"%string /\
    steps_completed (report_pipeline_summary report) = Some 5 /\
    List.length optimization_results = 4%nat.
Proof.
  assert (HP : healthy healthy_platform).
  { split; [|split].
    - intros h path. eexists. reflexivity.
    - intros h q. reflexivity.
    - intros h. eexists. eexists. reflexivity. }
  assert (Hd : display_accepts healthy_platform) by (intros h; reflexivity).
  assert (Hload : load_config healthy_platform []
                  = (Ret (Some fallback_raw),
                     [EvRead "../config.yaml" (Ret "-- ../config.yaml"%string)]))
    by reflexivity.
  assert (Hcfg : read_constants (Some fallback_raw) = Ret fallback_config)
    by reflexivity.
  assert (Ht : required_tables fallback_config = Ret default_required_tables)
    by reflexivity.
  assert (Hver : config_version fallback_config = Ret (Some "unknown"%string))
    by reflexivity.
  assert (Hk : missing_sections (CONFIG fallback_config) = []) by reflexivity.
  assert (Hge : 1 <= MAX_RETRY_ATTEMPTS fallback_config) by (simpl; lia).
  assert (Hwin : window_fits healthy_platform fallback_config)
    by (apply ticking_window_fits; reflexivity).
  destruct (healthy_platform_runs_clean healthy_platform [] _ _ _ _ _
              HP Hd Hload Hcfg Ht Hver Hk Hge Hwin)
    as (report & results & new & later & message & _ & E & Ho & (_ & Hc & _)
        & _ & _ & _ & _ & Hnames & _).
  exists report, results. eexists. split; [exact E|]. split; [exact Ho|].
  split; [exact Hc|].
  rewrite <- (length_map optimized_table), Hnames. reflexivity.
Defined.
